(** * Breakout rooms of a live sanctuary session

    A shallow embedding of [backend/routes/breakoutRoomRoutes.js]: the six
    route handlers (create, join, leave, list, close, auto-assign) as state
    transformers over the two document collections they touch and the log
    of published events.

    Conventions.
    - Strings are [string]; a character stands for one code unit below 256.
    - JS numbers that the handlers only compare and store are [Z];
      array lengths are [nat].
    - A Mongoose document is identified by its position in its collection
      (this plays the role of [_id]); [save] writes the document back at
      that position.
    - [new Date()], [Date.now()] and [nanoid] read an oracle of the
      environment, indexed by the number of reads made so far.
    - The six handlers are given as single steps, each running from the
      request to its answer; [run] handles requests one after the other.
      What happens when handlers overlap, one running between two [await]s
      of another, is the subject of the part on handlers that overlap,
      where the join handler is given again, cut at its [await]s.
    - A [save] of a document that was read and a [publishEvent] are taken
      to go through. The only exceptions here are those the handlers' own
      code raises and the rejection of a new room by its schema. *)

From Stdlib Require Import ZArith Lia Bool Ascii String List Sorted.
From stdpp Require Import base option list strings gmap.
Import ListNotations.
Local Open Scope string_scope.
Local Open Scope Z_scope.

(** ** Data model *)

Inductive ConnectionStatus := connected | disconnected.

Inductive RoomStatus := active | closed.

Definition RoomStatus_eqb (a b : RoomStatus) : bool :=
  match a, b with
  | active, active | closed, closed => true
  | _, _ => false
  end.

(** Entry of [session.participants]. *)
Module Participant.
Record t := mk {
  id : string;
  alias : string;
  avatarIndex : Z;
  isHost : bool;
  isModerator : bool;
  joinedAt : Z;
  isMuted : bool;
  connectionStatus : ConnectionStatus
}.
End Participant.

(** Entry of [breakoutRoom.participants]: the object literal
    [roomParticipant] of the join and auto-assign handlers. *)
Module RoomParticipant.
Record t := mk {
  id : string;
  alias : string;
  avatarIndex : Z;
  joinedAt : Z;
  isMuted : bool;
  connectionStatus : ConnectionStatus
}.
End RoomParticipant.

Module Session.
Record t := mk {
  id : string;
  hostId : string;
  hostAlias : string;
  participants : list Participant.t;
  breakoutRooms : list nat
}.
End Session.

(** The room document. Modelled from the spec: the schema of
    [models/BreakoutRoom] is not among the sources. The fields are those the
    handlers read and write; [maxParticipants] is an integer, as the
    specification's data model has it, and whether the schema accepts a
    given integer is left to [schemaError]. *)
Module BreakoutRoom.
Record t := mk {
  id : string;
  sessionId : string;
  name : string;
  createdBy : string;
  creatorAlias : string;
  maxParticipants : Z;
  agoraChannelName : string;
  agoraToken : string;
  status : RoomStatus;
  createdAt : Z;
  expiresAt : Z;
  closedAt : option Z;
  participants : list RoomParticipant.t;
  autoAssign : bool
}.

Definition with_participants (ps : list RoomParticipant.t) (r : t) : t :=
  mk (id r) (sessionId r) (name r) (createdBy r) (creatorAlias r)
     (maxParticipants r) (agoraChannelName r) (agoraToken r) (status r)
     (createdAt r) (expiresAt r) (closedAt r) ps (autoAssign r).

Definition close (now : Z) (r : t) : t :=
  mk (id r) (sessionId r) (name r) (createdBy r) (creatorAlias r)
     (maxParticipants r) (agoraChannelName r) (agoraToken r) closed
     (createdAt r) (expiresAt r) (Some now) (participants r) (autoAssign r).
End BreakoutRoom.

(** ** Events and responses *)

(** Payloads of [redisService.publishEvent], one constructor per event. *)
Inductive Payload :=
| RoomCreatedP (roomId name creatorAlias : string) (maxParticipants : Z)
               (currentParticipants : nat) (timestamp : Z)
| ParticipantJoinedP (participant : RoomParticipant.t) (roomId roomName : string)
                     (timestamp : Z)
| BreakoutRoomJoinedP (roomId roomName participantId participantAlias : string)
                      (timestamp : Z)
| ParticipantLeftP (participantId participantAlias roomId : string) (timestamp : Z)
| BreakoutRoomLeftP (roomId roomName participantId participantAlias : string)
                    (timestamp : Z)
| RoomClosedP (roomId roomName closedBy : string) (timestamp : Z)
| AutoAssignedP (roomId roomName : string) (timestamp : Z).

Record Event := mkEvent {
  topic : string;
  eventType : string;
  payload : Payload
}.

(** Element of [roomList] in the listing handler. *)
Module RoomSummary.
Record member := mkMember {
  m_id : string;
  m_alias : string;
  m_avatarIndex : Z;
  m_joinedAt : Z
}.
Record t := mk {
  id : string;
  name : string;
  createdBy : string;
  creatorAlias : string;
  maxParticipants : Z;
  currentParticipants : nat;
  participants : list member;
  createdAt : Z;
  canJoin : bool
}.
End RoomSummary.

(** First argument of [res.success], one constructor per handler. *)
Inductive Data :=
| CreatedD (id name createdBy creatorAlias : string) (maxParticipants : Z)
           (currentParticipants : nat) (status : RoomStatus)
           (agoraChannelName agoraToken : string) (createdAt : Z)
| JoinedD (id name agoraChannelName agoraToken : string)
          (participants : list RoomParticipant.t) (maxParticipants : Z)
          (participant : RoomParticipant.t)
| LeftD (roomId roomName : string)
| RoomsD (rooms : list RoomSummary.t) (totalRooms : nat)
| ClosedD (roomId roomName : string)
| AllAssignedD (message : string)
| AssignedD (assignedCount totalRooms : nat).

Inductive Response :=
| res_error (message : string) (code : Z)
| res_success (data : Data) (message : string).

(** ** The world a handler runs in *)

Record World := mkWorld {
  sessions : list Session.t;
  rooms : list BreakoutRoom.t;
  events : list Event;
  tick : nat
}.

(** What the handlers call but this file does not define: the clock, the id
    generator, the token generator of [utils/agoraTokenGenerator] ([None]
    when it throws) and the validation a new [BreakoutRoom] document goes
    through when it is first saved ([Some msg] when it is rejected with
    message [msg]). *)
Record Env := mkEnv {
  clock : nat -> Z;
  nanoid : nat -> nat -> string;
  generateRtcToken : string -> Z -> string -> Z -> option string;
  schemaError : BreakoutRoom.t -> option string
}.

(** ** JavaScript library functions used by the handlers *)

(** [Array.prototype.findIndex]; [None] stands for [-1]. *)
Fixpoint findIndex {A} (f : A -> bool) (l : list A) : option nat :=
  match l with
  | [] => None
  | x :: l' => if f x then Some O else option_map S (findIndex f l')
  end.

(** [findOne] on a collection: the first matching document with its
    position. *)
Definition findOne {A} (f : A -> bool) (l : list A) : option (nat * A) :=
  match findIndex f l with
  | Some i => match l !! i with Some x => Some (i, x) | None => None end
  | None => None
  end.

(** [collection.find(query)]: every matching document with its position, in
    the collection's order. *)
Fixpoint findAllFrom {A} (f : A -> bool) (i : nat) (l : list A) : list (nat * A) :=
  match l with
  | [] => []
  | x :: l' => if f x then (i, x) :: findAllFrom f (S i) l' else findAllFrom f (S i) l'
  end.

Definition findAll {A} (f : A -> bool) (l : list A) : list (nat * A) :=
  findAllFrom f O l.

(** [arr.splice(i, 1)]. *)
Definition splice1 {A} (i : nat) (l : list A) : list A :=
  firstn i l ++ skipn (S i) l.

(** [arr.push(x)]. *)
Definition push {A} (x : A) (l : list A) : list A := l ++ [x].

(** White space and line terminators of ECMAScript among the code units
    below 256: TAB, LF, VT, FF, CR, SP, NBSP. *)
Definition isWhiteSpace (c : ascii) : bool :=
  let n := nat_of_ascii c in
  ((9 <=? n)%nat && (n <=? 13)%nat) || (n =? 32)%nat || (n =? 160)%nat.

Fixpoint trimStart (s : string) : string :=
  match s with
  | EmptyString => EmptyString
  | String c s' => if isWhiteSpace c then trimStart s' else s
  end.

Fixpoint revString (acc s : string) : string :=
  match s with
  | EmptyString => acc
  | String c s' => revString (String c acc) s'
  end.

Definition trimEnd (s : string) : string :=
  revString EmptyString (trimStart (revString EmptyString s)).

(** [String.prototype.trim]. *)
Definition trim (s : string) : string := trimEnd (trimStart s).

(** [.sort({ createdAt: 1 })]: ascending by [createdAt], ties kept in the
    collection's order. *)
Fixpoint insertByCreatedAt (x : nat * BreakoutRoom.t) (l : list (nat * BreakoutRoom.t))
  : list (nat * BreakoutRoom.t) :=
  match l with
  | [] => [x]
  | y :: l' =>
      if BreakoutRoom.createdAt (snd x) <=? BreakoutRoom.createdAt (snd y)
      then x :: l
      else y :: insertByCreatedAt x l'
  end.

Definition sortByCreatedAt (l : list (nat * BreakoutRoom.t)) : list (nat * BreakoutRoom.t) :=
  fold_right insertByCreatedAt [] l.

(** ** The handler monad

    A computation reads and writes the world and ends in a value, in a
    response already sent ([return res.error(...)]) or in an exception. *)

Inductive Outcome (A : Type) :=
| Value (a : A)
| Responded (r : Response)
| Thrown (msg : string).
Arguments Value {A} a.
Arguments Responded {A} r.
Arguments Thrown {A} msg.

Definition M (A : Type) : Type := World -> Outcome A * World.

Definition ret {A} (a : A) : M A := fun w => (Value a, w).

Definition bind {A B} (c : M A) (k : A -> M B) : M B :=
  fun w =>
    match c w with
    | (Value a, w') => k a w'
    | (Responded r, w') => (Responded r, w')
    | (Thrown msg, w') => (Thrown msg, w')
    end.

Declare Scope handler_scope.
Delimit Scope handler_scope with handler.
Notation "x <- c ;; k" := (bind c (fun x => k))
  (at level 100, c at next level, right associativity) : handler_scope.
Notation "c ;;; k" := (bind c (fun _ => k))
  (at level 100, right associativity) : handler_scope.

(** [return res.success(...)] or [return res.error(...)] in the middle of a
    handler. *)
Definition respond {A} (r : Response) : M A := fun w => (Responded r, w).

Definition fail {A} (msg : string) (code : Z) : M A := respond (res_error msg code).

(** [if (!x) return res.error(msg, code)] for a looked-up [x]. *)
Definition orFail {A} (o : option A) (msg : string) (code : Z) : M A :=
  match o with
  | Some a => ret a
  | None => fail msg code
  end.

(** [if (b) return res.error(msg, code)]. *)
Definition failIf (b : bool) (msg : string) (code : Z) : M unit :=
  if b then fail msg code else ret tt.

(** [throw new Error(msg)]. *)
Definition throw {A} (msg : string) : M A := fun w => (Thrown msg, w).

(** [try { body } catch (error) { res.error(prefix + error.message, 500) }]
    around a whole handler. *)
Definition handler (prefix : string) (body : M Response) (w : World) : Response * World :=
  match body w with
  | (Value r, w') => (r, w')
  | (Responded r, w') => (r, w')
  | (Thrown msg, w') => (res_error (prefix ++ msg) 500, w')
  end.

Definition getSessions : M (list Session.t) := fun w => (Value (sessions w), w).
Definition getRooms : M (list BreakoutRoom.t) := fun w => (Value (rooms w), w).

Definition sessionNamed (sessionId : string) (s : Session.t) : bool :=
  String.eqb (Session.id s) sessionId.

Definition roomNamed (roomId : string) (r : BreakoutRoom.t) : bool :=
  String.eqb (BreakoutRoom.id r) roomId.

(** [LiveSanctuarySession.findOne({ id: sessionId })]. *)
Definition findSession (sessionId : string) : M (option (nat * Session.t)) :=
  (ss <- getSessions ;; ret (findOne (sessionNamed sessionId) ss))%handler.

(** [BreakoutRoom.findOne({ id: roomId })]. *)
Definition findRoom (roomId : string) : M (option (nat * BreakoutRoom.t)) :=
  (rs <- getRooms ;; ret (findOne (roomNamed roomId) rs))%handler.

(** [BreakoutRoom.find({ sessionId: sid, status: 'active' })]. *)
Definition isActiveRoomOf (sid : string) (r : BreakoutRoom.t) : bool :=
  String.eqb (BreakoutRoom.sessionId r) sid && RoomStatus_eqb (BreakoutRoom.status r) active.

Definition findActiveRooms (sid : string) : M (list (nat * BreakoutRoom.t)) :=
  (rs <- getRooms ;; ret (findAll (isActiveRoomOf sid) rs))%handler.

(** [room.save()] of a document read from the collection. *)
Definition saveRoom (i : nat) (r : BreakoutRoom.t) : M unit :=
  fun w => (Value tt, mkWorld (sessions w) (<[i := r]> (rooms w)) (events w) (tick w)).

(** [session.save()]. *)
Definition saveSession (i : nat) (s : Session.t) : M unit :=
  fun w => (Value tt, mkWorld (<[i := s]> (sessions w)) (rooms w) (events w) (tick w)).

(** [redisService.publishEvent(topic, type, payload)]. *)
Definition publishEvent (tp ty : string) (p : Payload) : M unit :=
  fun w => (Value tt, mkWorld (sessions w) (rooms w) (events w ++ [mkEvent tp ty p]) (tick w)).

Section Handlers.

Variable E : Env.

(** [new Date()]. *)
Definition now : M Z :=
  fun w => (Value (clock E (tick w)),
            mkWorld (sessions w) (rooms w) (events w) (S (tick w))).

(** [nanoid(size)]. *)
Definition newId (size : nat) : M string :=
  fun w => (Value (nanoid E (tick w) size),
            mkWorld (sessions w) (rooms w) (events w) (S (tick w))).

(** [new BreakoutRoom({...}).save()]: validated, then appended to the
    collection; the value is the new document's position. *)
Definition insertRoom (r : BreakoutRoom.t) : M nat :=
  fun w =>
    match schemaError E r with
    | Some msg => (Thrown msg, w)
    | None => (Value (length (rooms w)),
               mkWorld (sessions w) (rooms w ++ [r]) (events w) (tick w))
    end.

(** The [try]/[catch] around [generateRtcToken(channelName, 0, 'subscriber',
    3600)] in the create handler. *)
Definition issueToken (channelName : string) : M string :=
  match generateRtcToken E channelName 0 "subscriber" 3600 with
  | Some token => ret token
  | None => (n <- newId 16 ;; ret ("temp_breakout_token_" ++ n))%handler
  end.

Definition hasId (user : string) (p : Participant.t) : bool :=
  String.eqb (Participant.id p) user.

Definition hasRoomId (user : string) (p : RoomParticipant.t) : bool :=
  String.eqb (RoomParticipant.id p) user.

(** The object literal [roomParticipant]. *)
Definition roomParticipant (id : string) (participant : Participant.t) (joinedAt : Z)
  : RoomParticipant.t :=
  RoomParticipant.mk id (Participant.alias participant)
    (Participant.avatarIndex participant) joinedAt true connected.

(** ** [POST /:sessionId/breakout-rooms] *)
Definition createRoom (user sessionId : string) (name : option string)
    (maxParticipants : option Z) (autoAssign : option bool)
  : World -> Response * World :=
  handler "Failed to create breakout room: " (
    let maxParticipants := default 10 maxParticipants in
    let autoAssign := default false autoAssign in
    found <- findSession sessionId ;;
    s <- orFail found "Session not found" 404 ;;
    let session := snd s in
    participant <- orFail (List.find (hasId user) (Session.participants session))
                     "Only hosts and moderators can create breakout rooms" 403 ;;
    failIf (negb (Participant.isHost participant)
            && negb (Participant.isModerator participant))
      "Only hosts and moderators can create breakout rooms" 403 ;;;
    name <- orFail name "Room name must be at least 2 characters" 400 ;;
    failIf ((String.length name =? 0)%nat || (String.length (trim name) <? 2)%nat)
      "Room name must be at least 2 characters" 400 ;;;
    n6 <- newId 6 ;;
    let roomId := "breakout_" ++ sessionId ++ "_" ++ n6 in
    let channelName := "breakout_" ++ roomId in
    agoraToken <- issueToken channelName ;;
    createdAt <- now ;;
    dateNow <- now ;;
    let breakoutRoom :=
      BreakoutRoom.mk roomId (Session.id session) (trim name) user
        (Participant.alias participant) maxParticipants channelName agoraToken
        active createdAt (dateNow + 3600 * 1000) None [] autoAssign in
    _id <- insertRoom breakoutRoom ;;
    saveSession (fst s)
      (Session.mk (Session.id session) (Session.hostId session)
         (Session.hostAlias session) (Session.participants session)
         (push _id (Session.breakoutRooms session))) ;;;
    timestamp <- now ;;
    publishEvent ("session:" ++ sessionId) "breakout_room_created"
      (RoomCreatedP roomId (trim name) (Participant.alias participant)
         maxParticipants 0 timestamp) ;;;
    ret (res_success
           (CreatedD roomId (trim name) user (Participant.alias participant)
              maxParticipants (length (BreakoutRoom.participants breakoutRoom))
              active channelName agoraToken createdAt)
           "Breakout room created successfully"))%handler.

(** ** [POST /:sessionId/breakout-rooms/:roomId/join] *)
Definition joinRoom (user sessionId roomId : string) : World -> Response * World :=
  handler "Failed to join breakout room: " (
    found <- findSession sessionId ;;
    s <- orFail found "Session not found" 404 ;;
    let session := snd s in
    participant <- orFail (List.find (hasId user) (Session.participants session))
                     "Must be a participant in the main session" 403 ;;
    foundRoom <- findRoom roomId ;;
    r <- orFail foundRoom "Breakout room not found" 404 ;;
    let breakoutRoom := snd r in
    failIf (negb (String.eqb (BreakoutRoom.sessionId breakoutRoom) sessionId))
      "Breakout room does not belong to this session" 400 ;;;
    failIf (BreakoutRoom.maxParticipants breakoutRoom
              <=? Z.of_nat (length (BreakoutRoom.participants breakoutRoom)))
      "Breakout room is full" 400 ;;;
    failIf (existsb (hasRoomId user) (BreakoutRoom.participants breakoutRoom))
      "Already in breakout room" 400 ;;;
    joinedAt <- now ;;
    let roomParticipant := roomParticipant user participant joinedAt in
    let breakoutRoom' :=
      BreakoutRoom.with_participants
        (push roomParticipant (BreakoutRoom.participants breakoutRoom)) breakoutRoom in
    saveRoom (fst r) breakoutRoom' ;;;
    t1 <- now ;;
    publishEvent ("breakout:" ++ roomId) "participant_joined"
      (ParticipantJoinedP roomParticipant (BreakoutRoom.id breakoutRoom)
         (BreakoutRoom.name breakoutRoom) t1) ;;;
    t2 <- now ;;
    publishEvent ("session:" ++ sessionId) "breakout_room_joined"
      (BreakoutRoomJoinedP (BreakoutRoom.id breakoutRoom) (BreakoutRoom.name breakoutRoom)
         user (Participant.alias participant) t2) ;;;
    ret (res_success
           (JoinedD (BreakoutRoom.id breakoutRoom) (BreakoutRoom.name breakoutRoom)
              (BreakoutRoom.agoraChannelName breakoutRoom)
              (BreakoutRoom.agoraToken breakoutRoom)
              (BreakoutRoom.participants breakoutRoom')
              (BreakoutRoom.maxParticipants breakoutRoom) roomParticipant)
           "Joined breakout room successfully"))%handler.

(** ** [POST /:sessionId/breakout-rooms/:roomId/leave] *)
Definition leaveRoom (user sessionId roomId : string) : World -> Response * World :=
  handler "Failed to leave breakout room: " (
    foundRoom <- findRoom roomId ;;
    r <- orFail foundRoom "Breakout room not found" 404 ;;
    let breakoutRoom := snd r in
    participantIndex <-
      orFail (findIndex (hasRoomId user) (BreakoutRoom.participants breakoutRoom))
        "Not in breakout room" 400 ;;
    let participant := BreakoutRoom.participants breakoutRoom !! participantIndex in
    saveRoom (fst r)
      (BreakoutRoom.with_participants
         (splice1 participantIndex (BreakoutRoom.participants breakoutRoom))
         breakoutRoom) ;;;
    participant <-
      match participant with
      | Some p => ret p
      | None => throw "Cannot read properties of undefined (reading 'alias')"
      end ;;
    t1 <- now ;;
    publishEvent ("breakout:" ++ roomId) "participant_left"
      (ParticipantLeftP user (RoomParticipant.alias participant)
         (BreakoutRoom.id breakoutRoom) t1) ;;;
    t2 <- now ;;
    publishEvent ("session:" ++ sessionId) "breakout_room_left"
      (BreakoutRoomLeftP (BreakoutRoom.id breakoutRoom) (BreakoutRoom.name breakoutRoom)
         user (RoomParticipant.alias participant) t2) ;;;
    ret (res_success
           (LeftD (BreakoutRoom.id breakoutRoom) (BreakoutRoom.name breakoutRoom))
           "Left breakout room successfully"))%handler.

(** The element of [roomList] built for [room] when [user] asks. *)
Definition summarize (user : string) (room : BreakoutRoom.t) : RoomSummary.t :=
  RoomSummary.mk (BreakoutRoom.id room) (BreakoutRoom.name room)
    (BreakoutRoom.createdBy room) (BreakoutRoom.creatorAlias room)
    (BreakoutRoom.maxParticipants room)
    (length (BreakoutRoom.participants room))
    (List.map (fun p => RoomSummary.mkMember (RoomParticipant.id p)
                          (RoomParticipant.alias p) (RoomParticipant.avatarIndex p)
                          (RoomParticipant.joinedAt p))
       (BreakoutRoom.participants room))
    (BreakoutRoom.createdAt room)
    ((Z.of_nat (length (BreakoutRoom.participants room))
        <? BreakoutRoom.maxParticipants room)
     && negb (existsb (hasRoomId user) (BreakoutRoom.participants room))).

(** ** [GET /:sessionId/breakout-rooms] *)
Definition listRooms (user sessionId : string) : World -> Response * World :=
  handler "Failed to retrieve breakout rooms: " (
    found <- findSession sessionId ;;
    s <- orFail found "Session not found" 404 ;;
    let session := snd s in
    participant <- orFail (List.find (hasId user) (Session.participants session))
                     "Not a participant in this session" 403 ;;
    found <- findActiveRooms (Session.id session) ;;
    let breakoutRooms := List.map snd (sortByCreatedAt found) in
    let roomList := List.map (summarize user) breakoutRooms in
    ret (res_success (RoomsD roomList (length roomList))
           "Breakout rooms retrieved successfully"))%handler.

(** ** [DELETE /:sessionId/breakout-rooms/:roomId] *)
Definition closeRoom (user sessionId roomId : string) : World -> Response * World :=
  handler "Failed to close breakout room: " (
    found <- findSession sessionId ;;
    s <- orFail found "Session not found" 404 ;;
    let session := snd s in
    failIf (negb (String.eqb (Session.hostId session) user))
      "Only the host can delete breakout rooms" 403 ;;;
    foundRoom <- findRoom roomId ;;
    r <- orFail foundRoom "Breakout room not found" 404 ;;
    let breakoutRoom := snd r in
    closedAt <- now ;;
    saveRoom (fst r) (BreakoutRoom.close closedAt breakoutRoom) ;;;
    t1 <- now ;;
    publishEvent ("breakout:" ++ roomId) "room_closed"
      (RoomClosedP (BreakoutRoom.id breakoutRoom) (BreakoutRoom.name breakoutRoom)
         (Session.hostAlias session) t1) ;;;
    t2 <- now ;;
    publishEvent ("session:" ++ sessionId) "breakout_room_closed"
      (RoomClosedP (BreakoutRoom.id breakoutRoom) (BreakoutRoom.name breakoutRoom)
         (Session.hostAlias session) t2) ;;;
    ret (res_success
           (ClosedD (BreakoutRoom.id breakoutRoom) (BreakoutRoom.name breakoutRoom))
           "Breakout room closed successfully"))%handler.

(** [session.participants.filter(p => !breakoutRooms.some(room =>
    room.participants.some(rp => rp.id === p.id)))]. *)
Definition unassignedParticipants (session : Session.t)
    (breakoutRooms : list (nat * BreakoutRoom.t)) : list Participant.t :=
  List.filter
    (fun p => negb (existsb
                      (fun room => existsb (hasRoomId (Participant.id p))
                                     (BreakoutRoom.participants (snd room)))
                      breakoutRooms))
    (Session.participants session).

(** The [for (const participant of unassignedParticipants)] loop.
    [breakoutRooms] is the array of documents the query returned; a [push]
    on [targetRoom] is seen by later iterations through that array. *)
Fixpoint assignLoop (breakoutRooms : list (nat * BreakoutRoom.t)) (roomIndex : nat)
    (unassigned : list Participant.t) : M (list (nat * BreakoutRoom.t)) :=
  match unassigned with
  | [] => ret breakoutRooms
  | participant :: rest =>
      let slot := (roomIndex mod length breakoutRooms)%nat in
      match breakoutRooms !! slot with
      | None => throw "Cannot read properties of undefined (reading 'participants')"
      | Some (i, targetRoom) =>
          if Z.of_nat (length (BreakoutRoom.participants targetRoom))
               <? BreakoutRoom.maxParticipants targetRoom
          then (
            joinedAt <- now ;;
            let roomParticipant :=
              roomParticipant (Participant.id participant) participant joinedAt in
            let targetRoom' :=
              BreakoutRoom.with_participants
                (push roomParticipant (BreakoutRoom.participants targetRoom))
                targetRoom in
            saveRoom i targetRoom' ;;;
            timestamp <- now ;;
            publishEvent ("user:" ++ Participant.id participant)
              "auto_assigned_to_breakout"
              (AutoAssignedP (BreakoutRoom.id targetRoom) (BreakoutRoom.name targetRoom)
                 timestamp) ;;;
            assignLoop (<[slot := (i, targetRoom')]> breakoutRooms) (S roomIndex) rest
          )%handler
          else assignLoop breakoutRooms (S roomIndex) rest
      end
  end.

(** ** [POST /:sessionId/breakout-rooms/auto-assign] *)
Definition autoAssign (user sessionId : string) : World -> Response * World :=
  handler "Failed to auto-assign participants: " (
    found <- findSession sessionId ;;
    s <- orFail found "Session not found" 404 ;;
    let session := snd s in
    failIf (negb (String.eqb (Session.hostId session) user))
      "Only the host can auto-assign participants" 403 ;;;
    breakoutRooms <- findActiveRooms (Session.id session) ;;
    failIf (length breakoutRooms =? 0)%nat "No active breakout rooms found" 400 ;;;
    let unassigned := unassignedParticipants session breakoutRooms in
    (if (length unassigned =? 0)%nat
     then respond (res_success (AllAssignedD "All participants are already assigned")
                     "All participants assigned")
     else ret tt) ;;;
    assignLoop breakoutRooms 0 unassigned ;;;
    ret (res_success (AssignedD (length unassigned) (length breakoutRooms))
           "Participants auto-assigned successfully"))%handler.

(** ** Requests *)

Inductive Request :=
| CreateRoom (user sessionId : string) (name : option string)
             (maxParticipants : option Z) (autoAssign : option bool)
| JoinRoom (user sessionId roomId : string)
| LeaveRoom (user sessionId roomId : string)
| ListRooms (user sessionId : string)
| CloseRoom (user sessionId roomId : string)
| AutoAssign (user sessionId : string).

Definition handle (q : Request) : World -> Response * World :=
  match q with
  | CreateRoom u s n m a => createRoom u s n m a
  | JoinRoom u s r => joinRoom u s r
  | LeaveRoom u s r => leaveRoom u s r
  | ListRooms u s => listRooms u s
  | CloseRoom u s r => closeRoom u s r
  | AutoAssign u s => autoAssign u s
  end.

(** The world after a sequence of requests, each handled to its answer
    before the next begins. *)
Fixpoint run (qs : list Request) (w : World) : World :=
  match qs with
  | [] => w
  | q :: qs' => run qs' (snd (handle q w))
  end.

End Handlers.

(** ** The error taxonomy

    The handlers answer with an HTTP status and a message; this is the
    kind each answer stands for. *)

Inductive ErrorKind :=
| NotFound | Forbidden | InvalidArgument | InvalidState
| AlreadyMember | NotMember | CapacityExceeded | Internal.

Definition kindOfMessage (msg : string) : ErrorKind :=
  if String.eqb msg "Breakout room is full" then CapacityExceeded
  else if String.eqb msg "Already in breakout room" then AlreadyMember
  else if String.eqb msg "Not in breakout room" then NotMember
  else if String.eqb msg "No active breakout rooms found" then InvalidState
  else InvalidArgument.

Definition errorKind (r : Response) : option ErrorKind :=
  match r with
  | res_success _ _ => None
  | res_error msg code =>
      Some (if code =? 404 then NotFound
            else if code =? 403 then Forbidden
            else if code =? 400 then kindOfMessage msg
            else Internal)
  end.

Definition isSuccess (r : Response) : bool :=
  match r with
  | res_success _ _ => true
  | res_error _ _ => false
  end.

(** ** Properties of rooms and worlds *)

Definition roster (r : BreakoutRoom.t) : list RoomParticipant.t :=
  BreakoutRoom.participants r.

Definition rosterIds (r : BreakoutRoom.t) : list string :=
  List.map RoomParticipant.id (roster r).

(** [|participants| <= maxParticipants]. *)
Definition withinCapacity (r : BreakoutRoom.t) : Prop :=
  Z.of_nat (length (roster r)) <= BreakoutRoom.maxParticipants r.

Definition capacityOk (w : World) : Prop := Forall withinCapacity (rooms w).

#[export] Instance withinCapacity_dec r : Decision (withinCapacity r).
Proof. unfold withinCapacity. apply _. Defined.

#[export] Instance capacityOk_dec w : Decision (capacityOk w).
Proof. unfold capacityOk. apply _. Defined.

(** A roster entry as the handlers create it: muted and connected. *)
Definition startsMuted (p : RoomParticipant.t) : Prop :=
  RoomParticipant.isMuted p = true /\ RoomParticipant.connectionStatus p = connected.

Definition rostersMuted (w : World) : Prop :=
  Forall (fun r => Forall startsMuted (roster r)) (rooms w).

(** Requests that cannot store a room of negative capacity: everything but
    a create whose [maxParticipants] is negative. *)
Definition capacitySafe (q : Request) : Prop :=
  match q with
  | CreateRoom _ _ _ (Some m) _ => 0 <= m
  | _ => True
  end.

(** How one handler run may change the room collection. [w] is the world
    before and [w'] the world after; the clock reads made in between are
    those numbered from [tick w] up to, excluding, [tick w']. [New] is what
    is known of a room that is opened. *)
Inductive evolves (E : Env) (New : BreakoutRoom.t -> Prop) : World -> World -> Prop :=
| ev_same w w' :
    rooms w' = rooms w -> (tick w <= tick w')%nat ->
    evolves E New w w'
| ev_open w w' r :
    rooms w' = (rooms w ++ [r])%list -> roster r = [] -> New r ->
    (tick w <= tick w')%nat ->
    evolves E New w w'
| ev_admit w w' i r id p k :
    rooms w !! i = Some r ->
    Z.of_nat (length (roster r)) < BreakoutRoom.maxParticipants r ->
    (tick w <= k < tick w')%nat ->
    rooms w' = <[i := BreakoutRoom.with_participants
                         (push (roomParticipant id p (clock E k)) (roster r)) r]> (rooms w) ->
    evolves E New w w'
| ev_remove w w' i r j :
    rooms w !! i = Some r ->
    rooms w' = <[i := BreakoutRoom.with_participants (splice1 j (roster r)) r]> (rooms w) ->
    (tick w <= tick w')%nat ->
    evolves E New w w'
| ev_close w w' i r t :
    rooms w !! i = Some r ->
    rooms w' = <[i := BreakoutRoom.close t r]> (rooms w) ->
    (tick w <= tick w')%nat ->
    evolves E New w w'
| ev_trans w1 w2 w3 :
    evolves E New w1 w2 -> evolves E New w2 w3 -> evolves E New w1 w3.

(** ** Auto-assignment as the specification words it

    [free] holds the remaining capacity of each active room. The [i]-th
    unassigned participant is aimed at room [i mod N]; the assignment is
    committed when that room has a free place and dropped otherwise. The
    result lists the committed assignments as (participant, room slot). *)
Fixpoint roundRobin (free : list Z) (i : nat) (unassigned : list Participant.t)
  : list (Participant.t * nat) :=
  match unassigned with
  | [] => []
  | p :: rest =>
      let slot := (i mod length free)%nat in
      match free !! slot with
      | Some f =>
          if 0 <? f
          then (p, slot) :: roundRobin (<[slot := f - 1]> free) (S i) rest
          else roundRobin free (S i) rest
      | None => []
      end
  end.

Definition freePlaces (r : BreakoutRoom.t) : Z :=
  BreakoutRoom.maxParticipants r - Z.of_nat (length (roster r)).

(** The ids sent to room [slot] by a list of assignments, in order. *)
Definition assignedTo (slot : nat) (plan : list (Participant.t * nat)) : list string :=
  List.map (fun a => Participant.id (fst a))
    (List.filter (fun a => Nat.eqb (snd a) slot) plan).

(** The in-memory array of documents agrees with the collection. *)
Definition inSync (breakoutRooms : list (nat * BreakoutRoom.t)) (rs : list BreakoutRoom.t)
  : Prop :=
  forall slot i r, breakoutRooms !! slot = Some (i, r) -> rs !! i = Some r.

(** ** Sample worlds *)

Module Sample.

(** The issuer answers and the schema accepts every document. *)
Definition env : Env :=
  mkEnv (fun n => 1700000000000 + Z.of_nat n)
        (fun n _ => String (ascii_of_nat (97 + n mod 26)) "k3Qz9")
        (fun channel _ _ _ => Some ("006" ++ channel))
        (fun _ => None).


(** The schema rejects a room whose capacity is below 1. *)
Definition strict : Env :=
  mkEnv (clock env) (nanoid env) (generateRtcToken env)
        (fun r => if BreakoutRoom.maxParticipants r <? 1
                  then Some "BreakoutRoom validation failed: maxParticipants"
                  else None).

Definition person (id : string) (host unmuted : bool) : Participant.t :=
  Participant.mk id ("Anon " ++ id) 3 host false 1699999990000 (negb unmuted)
    (if unmuted then connected else disconnected).

Definition session : Session.t :=
  Session.mk "s1" "P1" "Anon P1"
    [person "P1" true true; person "P2" false true; person "P3" false false;
     person "P4" false true; person "P5" false false] [0%nat; 1%nat].

Definition room (id : string) (max : Z) (st : RoomStatus)
    (members : list RoomParticipant.t) : BreakoutRoom.t :=
  BreakoutRoom.mk id "s1" ("Room " ++ id) "P1" "Anon P1" max
    ("breakout_" ++ id) ("006breakout_" ++ id) st 1699999995000 1700003595000
    (match st with active => None | closed => Some 1699999999000 end)
    members false.

(** Two empty active rooms of capacity two. *)
Definition twoRooms : World :=
  mkWorld [session] [room "R1" 2 active []; room "R2" 2 active []] [] 0.

(** One closed room with a free place. *)
Definition closedRoom : World :=
  mkWorld [session] [room "R1" 2 closed []] [] 0.

(** One full room. *)
Definition fullRoom : World :=
  mkWorld [session]
    [room "R1" 1 active [roomParticipant "P3" (person "P3" false false) 1699999996000]]
    [] 0.

(** No room yet. *)
Definition noRooms : World := mkWorld [session] [] [] 0.

End Sample.


(** ** [backend/middleware/auth.js]

    The middleware that runs before every route. [jwt.verify] and the user
    collection are not part of these sources; they are parameters. *)

Module User.
Record t := mk {
  id : string;
  role : string
}.
End User.

(** [req.header('x-auth-token')] and [req.header('Authorization')]. *)
Record Headers := mkHeaders {
  x_auth_token : option string;
  authorization : option string
}.

(** What the middleware reads of a decoded token: [decoded.user?.id] and
    [decoded.userId]. *)
Record JwtPayload := mkJwtPayload {
  payload_user_id : option string;
  payload_userId : option string
}.

(** [jwt.verify(token, process.env.JWT_SECRET)] ([None] when it throws) and
    [User.findOne({ id: userId })]. *)
Record AuthEnv := mkAuthEnv {
  jwt_verify : string -> option JwtPayload;
  User_findOne : option string -> option User.t
}.

(** Truthiness of a value that is a string, [null] or [undefined]. *)
Definition truthy (o : option string) : bool :=
  match o with
  | Some s => negb (String.eqb s "")
  | None => false
  end.

(** [a || b]. *)
Definition orElse (a b : option string) : option string :=
  if truthy a then a else b.

(** [a || literal] for a string literal that is not empty. *)
Definition orDefault (a : option string) (literal : string) : string :=
  match a with
  | Some s => if truthy a then s else literal
  | None => literal
  end.

(** [s.startsWith(prefix)]. *)
Fixpoint startsWith (prefix s : string) : bool :=
  match prefix with
  | EmptyString => true
  | String c prefix' =>
      match s with
      | EmptyString => false
      | String d s' => Ascii.eqb c d && startsWith prefix' s'
      end
  end.

(** [s.slice(n)] for a non-negative [n]. *)
Fixpoint slice (n : nat) (s : string) : string :=
  match n, s with
  | O, _ => s
  | S n', String _ s' => slice n' s'
  | S _, EmptyString => EmptyString
  end.

(** A middleware either calls [next()] or answers with a status and an
    error. *)
Inductive Gate (A : Type) :=
| Pass (a : A)
| Deny (status : Z) (error : string).
Arguments Pass {A} a.
Arguments Deny {A} status error.

(** The token the strict middleware goes on with: the first truthy header,
    without one leading ["Bearer "]. *)
Definition extractToken (h : Headers) : option string :=
  let token := orElse (x_auth_token h) (authorization h) in
  match token with
  | Some t => if truthy token && startsWith "Bearer " t then Some (slice 7 t) else token
  | None => None
  end.

(** [decoded.user?.id || decoded.userId]. *)
Definition payloadUserId (decoded : JwtPayload) : option string :=
  orElse (payload_user_id decoded) (payload_userId decoded).

(** [exports.authMiddleware]; a pass carries [req.user]. *)
Definition authMiddleware (A : AuthEnv) (h : Headers) : Gate User.t :=
  let token := extractToken h in
  match token with
  | Some t =>
      if truthy token then
        match jwt_verify A t with
        | None => Deny 401 "Token is not valid"
        | Some decoded =>
            match User_findOne A (payloadUserId decoded) with
            | None => Deny 401 "Invalid token or user"
            | Some user => Pass user
            end
        end
      else Deny 401 "No token, authorization denied"
  | None => Deny 401 "No token, authorization denied"
  end.

(** [exports.optionalAuthMiddleware]: it always calls [next()]; the value is
    [req.user] at that point. *)
Definition optionalAuthMiddleware (A : AuthEnv) (h : Headers) : option User.t :=
  let token := x_auth_token h in
  match token with
  | Some t =>
      if truthy token then
        match jwt_verify A t with
        | None => None
        | Some decoded => User_findOne A (payloadUserId decoded)
        end
      else None
  | None => None
  end.

(** [exports.adminMiddleware], given [req.user]. *)
Definition adminMiddleware (user : option User.t) : Gate unit :=
  match user with
  | Some u =>
      if negb (String.eqb (User.role u) "admin")
      then Deny 403 "Access denied: Admin privileges required"
      else Pass tt
  | None => Deny 403 "Access denied: Admin privileges required"
  end.

(** ** The client's [Authorization] header

    [getAuthHeaders] of the breakout manager component: the three
    [localStorage.getItem] reads joined by [||] inside a template literal. *)

(** [`${v}`] for a value that is a string or [null]. *)
Definition interpolate (v : option string) : string :=
  match v with
  | Some s => s
  | None => "null"
  end.

Definition getAuthHeaders (auth_token veilo_auth_token token : option string) : Headers :=
  mkHeaders None
    (Some ("Bearer " ++ interpolate (orElse (orElse auth_token veilo_auth_token) token))).

(** The headers as the server reads them with [req.header]. [T] is what
    the way from the client's [fetch] to that call makes of a header value;
    neither end of it is part of these sources. *)
Definition received (T : string -> string) (h : Headers) : Headers :=
  mkHeaders (option_map T (x_auth_token h)) (option_map T (authorization h)).

(** ** A route behind [authMiddleware]

    [router.post(path, authMiddleware, handler)]: the handler runs with
    [req.user] set by the middleware, or not at all. *)





(** ** [backend/routes/voicePreviewRoutes.js] *)

(** What [elevenLabsService.generateVoicePreview] may do: resolve to a
    result object or throw. *)
Inductive PreviewReply :=
| PreviewResult (success : bool) (audioPreview error : string)
| PreviewThrown (message : string).

Inductive VoiceResponse :=
| voice_error (message : string) (code : Z)
| voice_success (voiceId audioPreview previewText message : string).

(** [POST /:sessionId/voice-preview]. The handler stores nothing and
    publishes nothing. *)
Definition voicePreview (generateVoicePreview : string -> string -> PreviewReply)
    (user sessionId : string) (voiceId text : option string) (w : World)
  : VoiceResponse :=
  match findOne (sessionNamed sessionId) (sessions w) with
  | None => voice_error "Session not found" 404
  | Some s =>
      match List.find (hasId user) (Session.participants (snd s)) with
      | None => voice_error "Not a participant in this session" 403
      | Some _ =>
          match voiceId with
          | Some v =>
              if truthy voiceId then
                let previewText :=
                  orDefault text
                    "Hello, this is how your voice will sound in the sanctuary." in
                match generateVoicePreview v previewText with
                | PreviewResult true audioPreview _ =>
                    voice_success v audioPreview previewText
                      "Voice preview generated successfully"
                | PreviewResult false _ error =>
                    voice_error ("Failed to generate voice preview: " ++ error) 500
                | PreviewThrown message =>
                    voice_error ("Failed to generate voice preview: " ++ message) 500
                end
              else voice_error "Voice ID is required" 400
          | None => voice_error "Voice ID is required" 400
          end
      end
  end.

(** ** The client's views

    [uniqueParticipants] of the live audio space component: the [filter]
    over [session.participants || []] with the [Set] of ids seen so far. *)
Fixpoint dedupeFrom (seen : gset string) (participants : list Participant.t)
  : list Participant.t :=
  match participants with
  | [] => []
  | p :: rest =>
      if decide (Participant.id p ∈ seen)
      then dedupeFrom seen rest
      else p :: dedupeFrom ({[Participant.id p]} ∪ seen) rest
  end.

Definition uniqueParticipants (participants : option (list Participant.t))
  : list Participant.t :=
  dedupeFrom ∅ (default [] participants).

(** An element of the [participants] state of the breakout room page: an
    object received from the listing or from a [participant_joined] event.
    [handRaised] is set by the page's [hand_raised] handler only; none of
    the route handlers publishes that event, so it stays unset here. *)
Record ClientParticipant := mkClientParticipant {
  c_id : string;
  c_alias : string;
  c_avatarIndex : Z;
  c_joinedAt : Z;
  c_isMuted : option bool;
  c_connectionStatus : option ConnectionStatus;
  c_handRaised : option bool
}.

(** [room.participants] of the listing, as the page stores it. *)
Definition ofMember (m : RoomSummary.member) : ClientParticipant :=
  mkClientParticipant (RoomSummary.m_id m) (RoomSummary.m_alias m)
    (RoomSummary.m_avatarIndex m) (RoomSummary.m_joinedAt m) None None None.

(** [data.participant] of a [participant_joined] event. *)
Definition ofSnapshot (p : RoomParticipant.t) : ClientParticipant :=
  mkClientParticipant (RoomParticipant.id p) (RoomParticipant.alias p)
    (RoomParticipant.avatarIndex p) (RoomParticipant.joinedAt p)
    (Some (RoomParticipant.isMuted p)) (Some (RoomParticipant.connectionStatus p)) None.

(** [fetchRoomInfo]: the [participants] state after the page has asked
    the listing of the session as [user] and looked for its room in the
    answer. The state starts as the empty list and stays so when the
    answer is not a success or does not hold the room. *)
Definition fetchRoomInfo (user sessionId roomId : string) (w : World)
  : list ClientParticipant :=
  match fst (listRooms user sessionId w) with
  | res_success (RoomsD rooms _) _ =>
      match List.find (fun r => String.eqb (RoomSummary.id r) roomId) rooms with
      | Some room => List.map ofMember (RoomSummary.participants room)
      | None => []
      end
  | _ => []
  end.

(** [setParticipants(prev => [...prev, data.participant])]. *)
Definition onParticipantJoined (participant : ClientParticipant)
    (prev : list ClientParticipant) : list ClientParticipant :=
  push participant prev.

(** [setParticipants(prev => prev.filter(p => p.id !== data.participantId))]. *)
Definition onParticipantLeft (participantId : string)
    (prev : list ClientParticipant) : list ClientParticipant :=
  List.filter (fun p => negb (String.eqb (c_id p) participantId)) prev.

(** The page's reaction to one event of the route handlers: the
    [participant_joined] and [participant_left] subscriptions; the page has
    no subscription for [room_closed]. *)
Definition onEvent (e : Event) (prev : list ClientParticipant) : list ClientParticipant :=
  match payload e with
  | ParticipantJoinedP participant _ _ _ =>
      if String.eqb (eventType e) "participant_joined"
      then onParticipantJoined (ofSnapshot participant) prev
      else prev
  | ParticipantLeftP participantId _ _ _ =>
      if String.eqb (eventType e) "participant_left"
      then onParticipantLeft participantId prev
      else prev
  | _ => prev
  end.

(** The events of a log that were published on the topic of room
    [roomId]. The socket hook and the Redis service are not part of these
    sources: that the page's socket hands it these events, in the order of
    publication, is the reading taken here. *)
Definition roomFeed (roomId : string) (log : list Event) : list Event :=
  List.filter (fun e => String.eqb (topic e) ("breakout:" ++ roomId)) log.

(** The page's list after the events of [feed], oldest first. *)
Definition replay (feed : list Event) (start : list ClientParticipant)
  : list ClientParticipant :=
  fold_left (fun view e => onEvent e view) feed start.

(** ** Further properties of rooms and sessions *)

(** Everything of a room but its roster, status and [closedAt]. *)
Definition sameRoom (r r' : BreakoutRoom.t) : Prop :=
  BreakoutRoom.id r' = BreakoutRoom.id r /\
  BreakoutRoom.sessionId r' = BreakoutRoom.sessionId r /\
  BreakoutRoom.name r' = BreakoutRoom.name r /\
  BreakoutRoom.createdBy r' = BreakoutRoom.createdBy r /\
  BreakoutRoom.creatorAlias r' = BreakoutRoom.creatorAlias r /\
  BreakoutRoom.maxParticipants r' = BreakoutRoom.maxParticipants r /\
  BreakoutRoom.agoraChannelName r' = BreakoutRoom.agoraChannelName r /\
  BreakoutRoom.agoraToken r' = BreakoutRoom.agoraToken r /\
  BreakoutRoom.createdAt r' = BreakoutRoom.createdAt r /\
  BreakoutRoom.expiresAt r' = BreakoutRoom.expiresAt r /\
  BreakoutRoom.autoAssign r' = BreakoutRoom.autoAssign r.

(** Everything of a session but the rooms it lists, which may grow at the
    end. *)
Definition sameSession (s s' : Session.t) : Prop :=
  Session.id s' = Session.id s /\
  Session.hostId s' = Session.hostId s /\
  Session.hostAlias s' = Session.hostAlias s /\
  Session.participants s' = Session.participants s /\
  Session.breakoutRooms s `prefix_of` Session.breakoutRooms s'.

(** No participant id twice in a roster. *)
Definition rostersDistinct (w : World) : Prop :=
  Forall (fun r => NoDup (rosterIds r)) (rooms w).

(** No participant id twice in a session roster. *)
Definition sessionsDistinct (w : World) : Prop :=
  Forall (fun s => NoDup (List.map Participant.id (Session.participants s))) (sessions w).

(** Every position a session lists holds a room of that session. *)
Definition linksValid (w : World) : Prop :=
  Forall (fun s =>
            Forall (fun pos => exists r, rooms w !! pos = Some r /\
                                         BreakoutRoom.sessionId r = Session.id s)
              (Session.breakoutRooms s))
    (sessions w).

(** The first and the last character of a string, if any. *)
Definition firstChar (s : string) : option ascii :=
  match s with
  | EmptyString => None
  | String c _ => Some c
  end.

Fixpoint lastChar (s : string) : option ascii :=
  match s with
  | EmptyString => None
  | String c EmptyString => Some c
  | String _ s' => lastChar s'
  end.

(** A stored room name: at least two characters, no white space at either
    end. *)
Definition tidyName (s : string) : Prop :=
  (2 <= String.length s)%nat /\
  (forall c, firstChar s = Some c -> isWhiteSpace c = false) /\
  (forall c, lastChar s = Some c -> isWhiteSpace c = false).

Fixpoint allWhiteSpace (s : string) : bool :=
  match s with
  | EmptyString => true
  | String c s' => isWhiteSpace c && allWhiteSpace s'
  end.

(** The pairs (topic, type) of the events of a log. *)
Definition headlines (log : list Event) : list (string * string) :=
  List.map (fun e => (topic e, eventType e)) log.

(** The ids of a view of the room page. *)
Definition viewIds (view : list ClientParticipant) : list string :=
  List.map c_id view.

(** The order of the listing. *)
Definition createdNoLater (a b : BreakoutRoom.t) : Prop :=
  BreakoutRoom.createdAt a <= BreakoutRoom.createdAt b.

(** The ids of a roster other than [user]'s. *)
Definition others (user : string) (ids : list string) : list string :=
  List.filter (fun x => negb (String.eqb x user)) ids.


(** ** Sample tokens and users *)

Module SampleAuth.

(** Two tokens verify: one in the current format, one in the old one. *)
Definition verify (token : string) : option JwtPayload :=
  if String.eqb token "jwt-P2" then Some (mkJwtPayload (Some "P2") None)
  else if String.eqb token "jwt-old-P1" then Some (mkJwtPayload None (Some "P1"))
  else None.

Definition findUser (id : option string) : option User.t :=
  match id with
  | Some i =>
      if String.eqb i "P1" then Some (User.mk "P1" "admin")
      else if String.eqb i "P2" then Some (User.mk "P2" "user")
      else None
  | None => None
  end.

Definition env : AuthEnv := mkAuthEnv verify findUser.

End SampleAuth.

(** Every stored room has a tidy name. *)
Definition namesTidy (w : World) : Prop :=
  Forall (fun r => tidyName (BreakoutRoom.name r)) (rooms w).

Definition isCreate (q : Request) : bool :=
  match q with
  | CreateRoom _ _ _ _ _ => true
  | _ => false
  end.

(** The headline of the notice sent for one committed assignment. *)
Definition noticeOf (a : Participant.t * nat) : string * string :=
  ("user:" ++ Participant.id (fst a), "auto_assigned_to_breakout").

(** The headlines of what a successful request other than auto-assign
    publishes, in order. *)
Definition announces (q : Request) : list (string * string) :=
  match q with
  | CreateRoom _ s _ _ _ => [("session:" ++ s, "breakout_room_created")]
  | JoinRoom _ s r =>
      [("breakout:" ++ r, "participant_joined"); ("session:" ++ s, "breakout_room_joined")]
  | LeaveRoom _ s r =>
      [("breakout:" ++ r, "participant_left"); ("session:" ++ s, "breakout_room_left")]
  | ListRooms _ _ => []
  | CloseRoom _ s r =>
      [("breakout:" ++ r, "room_closed"); ("session:" ++ s, "breakout_room_closed")]
  | AutoAssign _ _ => []
  end.

Definition isAutoAssign (q : Request) : bool :=
  match q with
  | AutoAssign _ _ => true
  | _ => false
  end.

(** What the strict middleware does once it holds the token [t]. *)
Definition authenticate (A : AuthEnv) (t : string) : Gate User.t :=
  if String.eqb t "" then Deny 401 "No token, authorization denied"
  else
    match jwt_verify A t with
    | None => Deny 401 "Token is not valid"
    | Some decoded =>
        match User_findOne A (payloadUserId decoded) with
        | None => Deny 401 "Invalid token or user"
        | Some user => Pass user
        end
    end.

(** A header of the request holds [t], bare or after ["Bearer "]. *)
Definition carries (h : Headers) (t : string) : Prop :=
  exists raw,
    (x_auth_token h = Some raw \/ authorization h = Some raw) /\
    (raw = t \/ raw = "Bearer " ++ t).

(** An answer with which a handler turns a request down itself: an error
    with a status from 400 to 499. The statuses the handlers use for this
    are 400, 403 and 404; 500 is what the [catch] of a handler answers. *)
Definition refusal (r : Response) : bool :=
  match r with
  | res_error _ code => (400 <=? code) && (code <? 500)
  | res_success _ _ => false
  end.

(** * Handlers that overlap

    [joinRoom] above runs the join handler as one step. The handler is an
    [async] function: at each [await] it gives way, and another request's
    handler may run before it goes on. Here the join handler is given
    again, cut at its [await]s, together with the runs in which several
    handlers take turns. *)

(** An [async] handler in flight: it has ended ([Finished]), it is running
    ([Sync]: the operation is done without giving way), or it is parked at
    an [await] ([Await]: the awaited operation is done when the handler is
    next resumed). *)
Inductive Task : Type :=
| Finished (o : Outcome Response)
| Sync (B : Type) (op : M B) (k : B -> Task)
| Await (B : Type) (op : M B) (k : B -> Task).
Arguments Sync {B} op k.
Arguments Await {B} op k.

Declare Scope task_scope.
Delimit Scope task_scope with task.
Notation "x <~ c ;; k" := (Await c (fun x => k))
  (at level 100, c at next level, right associativity) : task_scope.
Notation "c ~;; k" := (Await c (fun _ => k))
  (at level 100, right associativity) : task_scope.
Notation "x <- c ;; k" := (Sync c (fun x => k))
  (at level 100, c at next level, right associativity) : task_scope.
Notation "c ;;; k" := (Sync c (fun _ => k))
  (at level 100, right associativity) : task_scope.

(** Run a handler up to its next [await], or to its end. *)
Fixpoint settle (t : Task) (w : World) : Task * World :=
  match t with
  | Sync op k =>
      match op w with
      | (Value b, w') => settle (k b) w'
      | (Responded r, w') => (Finished (Responded r), w')
      | (Thrown msg, w') => (Finished (Thrown msg), w')
      end
  | _ => (t, w)
  end.

(** Resume a parked handler: the awaited operation is done on the world as
    it is now, and the handler runs on to its next [await]. *)
Definition resume (t : Task) (w : World) : Task * World :=
  match t with
  | Await op k =>
      match op w with
      | (Value b, w') => settle (k b) w'
      | (Responded r, w') => (Finished (Responded r), w')
      | (Thrown msg, w') => (Finished (Thrown msg), w')
      end
  | _ => settle t w
  end.

(** The handler run from start to end with nothing in between. *)
Fixpoint atomically (t : Task) : M Response :=
  match t with
  | Finished o => fun w => (o, w)
  | Sync op k => bind op (fun b => atomically (k b))
  | Await op k => bind op (fun b => atomically (k b))
  end.

(** Handlers taking turns: each number of [schedule] names the handler of
    [pool] that is resumed next. *)
Fixpoint interleave (schedule : list nat) (pool : list Task) (w : World)
  : list Task * World :=
  match schedule with
  | [] => (pool, w)
  | i :: rest =>
      match pool !! i with
      | Some t => interleave rest (<[i := fst (resume t w)]> pool) (snd (resume t w))
      | None => interleave rest pool w
      end
  end.

(** What [try { ... } catch] around a handler makes of its end; [None]
    while the handler is in flight. *)
Definition answer (prefix : string) (t : Task) : option Response :=
  match t with
  | Finished (Value r) => Some r
  | Finished (Responded r) => Some r
  | Finished (Thrown msg) => Some (res_error (prefix ++ msg) 500)
  | _ => None
  end.

(** What [breakoutRoom.save()] does with a roster the handler pushed an
    entry to, when the stored room is no longer the one the handler read.
    Mongoose is not part of these sources, so both readings are kept: the
    document is written as the handler holds it ([WholeDocument]), or the
    pushed entry is appended to the roster as stored ([PushDelta]). When
    the stored room is the one that was read, the two are the same. *)
Inductive SavePolicy := WholeDocument | PushDelta.

Definition savePushed (P : SavePolicy) (i : nat) (read : BreakoutRoom.t)
    (entry : RoomParticipant.t) : M unit :=
  match P with
  | WholeDocument =>
      saveRoom i
        (BreakoutRoom.with_participants (push entry (BreakoutRoom.participants read)) read)
  | PushDelta =>
      fun w =>
        match rooms w !! i with
        | Some stored =>
            saveRoom i
              (BreakoutRoom.with_participants
                 (push entry (BreakoutRoom.participants stored)) stored) w
        | None => (Thrown "No document found for query", w)
        end
  end.

Section Overlap.

Variable E : Env.
Variable P : SavePolicy.

(** The join handler of [POST /:sessionId/breakout-rooms/:roomId/join], cut
    at its five [await]s: the two reads, the save and the two publications
    ([x <~ c] and [c ~;;] await [c]; [x <- c] and [c ;;;] go on at once). *)
Definition joinTask (user sessionId roomId : string) : Task :=
  (found <~ findSession sessionId ;;
   s <- orFail found "Session not found" 404 ;;
   let session := snd s in
   participant <- orFail (List.find (hasId user) (Session.participants session))
                    "Must be a participant in the main session" 403 ;;
   foundRoom <~ findRoom roomId ;;
   r <- orFail foundRoom "Breakout room not found" 404 ;;
   let breakoutRoom := snd r in
   failIf (negb (String.eqb (BreakoutRoom.sessionId breakoutRoom) sessionId))
     "Breakout room does not belong to this session" 400 ;;;
   failIf (BreakoutRoom.maxParticipants breakoutRoom
             <=? Z.of_nat (length (BreakoutRoom.participants breakoutRoom)))
     "Breakout room is full" 400 ;;;
   failIf (existsb (hasRoomId user) (BreakoutRoom.participants breakoutRoom))
     "Already in breakout room" 400 ;;;
   joinedAt <- now E ;;
   let roomParticipant := roomParticipant user participant joinedAt in
   savePushed P (fst r) breakoutRoom roomParticipant ~;;
   t1 <- now E ;;
   publishEvent ("breakout:" ++ roomId) "participant_joined"
     (ParticipantJoinedP roomParticipant (BreakoutRoom.id breakoutRoom)
        (BreakoutRoom.name breakoutRoom) t1) ~;;
   t2 <- now E ;;
   publishEvent ("session:" ++ sessionId) "breakout_room_joined"
     (BreakoutRoomJoinedP (BreakoutRoom.id breakoutRoom) (BreakoutRoom.name breakoutRoom)
        user (Participant.alias participant) t2) ~;;
   Finished
     (Value
        (res_success
           (JoinedD (BreakoutRoom.id breakoutRoom) (BreakoutRoom.name breakoutRoom)
              (BreakoutRoom.agoraChannelName breakoutRoom)
              (BreakoutRoom.agoraToken breakoutRoom)
              (push roomParticipant (BreakoutRoom.participants breakoutRoom))
              (BreakoutRoom.maxParticipants breakoutRoom) roomParticipant)
           "Joined breakout room successfully")))%task.

(** The answers of a pool of join handlers. *)
Definition joinAnswers (pool : list Task) : list (option Response) :=
  List.map (answer "Failed to join breakout room: ") pool.

End Overlap.

(** Whether a handler has answered, and with a success. *)
Definition succeeded (a : option Response) : bool :=
  match a with
  | Some r => isSuccess r
  | None => false
  end.

Module Race.

(** One active room with a single place, nobody in it. *)
Definition oneSeat : World :=
  mkWorld [Sample.session] [Sample.room "R1" 1 active []] [] 0.

(** Both handlers have read the room before either saves: the handlers take
    turns at every [await]. *)
Definition turns : list nat := [0; 1; 0; 1; 0; 1; 0; 1; 0; 1]%nat.

(** One handler runs to its answer, then the other. *)
Definition inOrder : list nat := [0; 0; 0; 0; 0; 1; 1; 1; 1; 1]%nat.

(** Two users ask for the one place. *)
Definition rivals (P : SavePolicy) : list Task :=
  [joinTask Sample.env P "P2" "s1" "R1"; joinTask Sample.env P "P3" "s1" "R1"].

(** One user asks twice. *)
Definition twice (P : SavePolicy) : list Task :=
  [joinTask Sample.env P "P2" "s1" "R1"; joinTask Sample.env P "P2" "s1" "R1"].

(** A room with two places for the user who asks twice. *)
Definition twoSeats : World :=
  mkWorld [Sample.session] [Sample.room "R1" 2 active []] [] 0.

End Race.
(** ** Facts about the library functions *)

Section ArrayFacts.

Context {A : Type}.
Implicit Types (f : A -> bool) (l : list A).

Lemma findIndex_Some f l i :
  findIndex f l = Some i ->
  exists x, l !! i = Some x /\ f x = true.
Proof.
  revert i. induction l as [|y l IH]; intros i; simpl; [discriminate|].
  destruct (f y) eqn:Hy.
  - intros [= <-]. exists y. split; [reflexivity | exact Hy].
  - destruct (findIndex f l) as [j|]; simpl; [|discriminate].
    intros [= <-]. destruct (IH j eq_refl) as (x & Hx & Hfx).
    exists x. split; assumption.
Qed.

Lemma findIndex_None f l :
  findIndex f l = None <-> existsb f l = false.
Proof.
  induction l as [|y l IH]; simpl; [tauto|].
  destruct (f y); simpl.
  - split; discriminate.
  - rewrite <- IH. destruct (findIndex f l); simpl; split; congruence.
Qed.


(** Replacing a document by one the query treats alike does not move the
    first match. *)
Lemma findIndex_insert f l j x y :
  l !! j = Some x -> f y = f x ->
  findIndex f (<[j := y]> l) = findIndex f l.
Proof.
  revert j. induction l as [|z l IH]; intros j Hj Hf; [reflexivity|].
  destruct j as [|j]; simpl in *.
  - injection Hj as ->. rewrite Hf. reflexivity.
  - rewrite (IH j Hj Hf). reflexivity.
Qed.

Lemma findOne_Some f l i x :
  findOne f l = Some (i, x) ->
  findIndex f l = Some i /\ l !! i = Some x /\ f x = true.
Proof.
  unfold findOne. destruct (findIndex f l) as [j|] eqn:Hj; [|discriminate].
  destruct (findIndex_Some _ _ _ Hj) as (y & Hy & Hfy). rewrite Hy.
  intros [= <- <-]. auto.
Qed.

Lemma findOne_None f l :
  findOne f l = None -> existsb f l = false.
Proof.
  unfold findOne. destruct (findIndex f l) as [j|] eqn:Hj.
  - destruct (findIndex_Some _ _ _ Hj) as (y & Hy & _). rewrite Hy. discriminate.
  - intros _. apply findIndex_None, Hj.
Qed.

Lemma findOne_insert f l i x y :
  findOne f l = Some (i, x) -> f y = true ->
  findOne f (<[i := y]> l) = Some (i, y).
Proof.
  intros H Hy. apply findOne_Some in H as (Hi & Hx & Hfx).
  unfold findOne. rewrite (findIndex_insert f l i x y Hx) by congruence.
  rewrite Hi, list_lookup_insert_eq; [reflexivity|].
  apply lookup_lt_Some in Hx. exact Hx.
Qed.

Lemma findOne_insert_id f l i x :
  findOne f l = Some (i, x) -> <[i := x]> l = l.
Proof.
  intros H. apply findOne_Some in H as (_ & Hx & _).
  apply list_insert_id, Hx.
Qed.

Lemma findAllFrom_spec f l k i x :
  (i, x) ∈ findAllFrom f k l <->
  (k <= i)%nat /\ l !! (i - k)%nat = Some x /\ f x = true.
Proof.
  revert k. induction l as [|y l IH]; intros k; simpl.
  - rewrite elem_of_nil. split; [tauto|]. intros (_ & H & _). discriminate.
  - assert (Hrec : (i, x) ∈ findAllFrom f (S k) l <->
                   (k < i)%nat /\ (y :: l) !! (i - k)%nat = Some x /\ f x = true).
    { rewrite IH. split.
      - intros (Hle & Hx & Hfx). split; [lia|]. split; [|exact Hfx].
        replace (i - k)%nat with (S (i - S k)) by lia. exact Hx.
      - intros (Hlt & Hx & Hfx). split; [lia|]. split; [|exact Hfx].
        replace (i - k)%nat with (S (i - S k)) in Hx by lia. exact Hx. }
    destruct (f y) eqn:Hy.
    + rewrite elem_of_cons, Hrec. split.
      * intros [[= -> ->] | (Hlt & Hx & Hfx)].
        -- split; [lia|]. rewrite Nat.sub_diag. auto.
        -- split; [lia|]. auto.
      * intros (Hle & Hx & Hfx).
        destruct (decide (i = k)) as [->|Hne].
        -- rewrite Nat.sub_diag in Hx. simpl in Hx. injection Hx as ->. left. reflexivity.
        -- right. split; [lia|]. auto.
    + rewrite Hrec. split.
      * intros (Hlt & Hx & Hfx). split; [lia|]. auto.
      * intros (Hle & Hx & Hfx).
        destruct (decide (i = k)) as [->|Hne].
        -- rewrite Nat.sub_diag in Hx. simpl in Hx. injection Hx as ->. congruence.
        -- split; [lia|]. auto.
Qed.

Lemma findAll_spec f l i x :
  (i, x) ∈ findAll f l <-> l !! i = Some x /\ f x = true.
Proof.
  unfold findAll. rewrite findAllFrom_spec, Nat.sub_0_r.
  split; [tauto|]. intros H. split; [lia | exact H].
Qed.

Lemma findAllFrom_NoDup f l k : NoDup (List.map fst (findAllFrom f k l)).
Proof.
  revert k. induction l as [|y l IH]; intros k; simpl; [constructor|].
  destruct (f y); [|apply IH].
  simpl. constructor; [|apply IH].
  intros Hin. apply list_elem_of_fmap in Hin as ([i x] & Hi & Hin).
  simpl in Hi. subst i. apply findAllFrom_spec in Hin. lia.
Qed.

Lemma findAll_NoDup f l : NoDup (List.map fst (findAll f l)).
Proof. apply findAllFrom_NoDup. Qed.

Lemma splice1_push l x i :
  i = length l -> splice1 i (push x l) = l.
Proof.
  intros ->. unfold splice1, push.
  rewrite firstn_app, Nat.sub_diag, firstn_all. simpl.
  rewrite skipn_app, skipn_all2 by lia.
  replace (S (length l) - length l)%nat with 1%nat by lia. simpl.
  rewrite !app_nil_r. reflexivity.
Qed.

Lemma findIndex_push_fresh f l x :
  existsb f l = false -> f x = true -> findIndex f (push x l) = Some (length l).
Proof.
  unfold push. induction l as [|y l IH]; simpl; intros Hl Hx.
  - rewrite Hx. reflexivity.
  - apply orb_false_iff in Hl as [Hy Hl]. rewrite Hy, (IH Hl Hx). reflexivity.
Qed.

End ArrayFacts.

(** ** What each handler does, path by path *)

Ltac run_handler :=
  unfold handler, bind, findSession, findRoom, findActiveRooms, getSessions,
    getRooms, orFail, failIf, fail, respond, ret, now, newId, saveRoom,
    saveSession, publishEvent, insertRoom, issueToken, throw;
  simpl.

(** Case analysis on the innermost test the goal still branches on. *)
Ltac split_paths :=
  repeat match goal with
         | |- context [match ?x with _ => _ end] =>
             lazymatch x with
             | context [match _ with _ => _ end] => fail
             | _ => destruct x eqn:?; simpl
             end
         end.

Ltac open_pairs :=
  repeat match goal with
         | p : (_ * _)%type |- _ => destruct p; simpl in *
         end.

Ltac quiet := apply ev_same; simpl; [reflexivity | lia].

Section HandlerFacts.

Variable E : Env.
Variable New : BreakoutRoom.t -> Prop.

Lemma joinRoom_success user sid rid w si s p ri r :
  findOne (sessionNamed sid) (sessions w) = Some (si, s) ->
  List.find (hasId user) (Session.participants s) = Some p ->
  findOne (roomNamed rid) (rooms w) = Some (ri, r) ->
  BreakoutRoom.sessionId r = sid ->
  Z.of_nat (length (roster r)) < BreakoutRoom.maxParticipants r ->
  existsb (hasRoomId user) (roster r) = false ->
  let rp := roomParticipant user p (clock E (tick w)) in
  let r' := BreakoutRoom.with_participants (push rp (roster r)) r in
  joinRoom E user sid rid w =
    (res_success
       (JoinedD (BreakoutRoom.id r) (BreakoutRoom.name r)
          (BreakoutRoom.agoraChannelName r) (BreakoutRoom.agoraToken r)
          (push rp (roster r)) (BreakoutRoom.maxParticipants r) rp)
       "Joined breakout room successfully",
     mkWorld (sessions w) (<[ri := r']> (rooms w))
       (events w ++
          [mkEvent ("breakout:" ++ rid) "participant_joined"
             (ParticipantJoinedP rp (BreakoutRoom.id r) (BreakoutRoom.name r)
                (clock E (S (tick w))));
           mkEvent ("session:" ++ sid) "breakout_room_joined"
             (BreakoutRoomJoinedP (BreakoutRoom.id r) (BreakoutRoom.name r) user
                (Participant.alias p) (clock E (S (S (tick w)))))])
       (S (S (S (tick w))))).
Proof.
  intros Hs Hp Hr Hsid Hcap Hnew. unfold roster in *.
  unfold joinRoom. run_handler.
  rewrite Hs. simpl. rewrite Hp. simpl. rewrite Hr. simpl.
  rewrite Hsid, String.eqb_refl. simpl.
  destruct (Z.leb_spec (BreakoutRoom.maxParticipants r)
              (Z.of_nat (length (BreakoutRoom.participants r)))) as [Hle|_]; [lia|].
  simpl. rewrite Hnew. simpl. rewrite <- app_assoc. reflexivity.
Qed.

Lemma joinRoom_full user sid rid w si s p ri r :
  findOne (sessionNamed sid) (sessions w) = Some (si, s) ->
  List.find (hasId user) (Session.participants s) = Some p ->
  findOne (roomNamed rid) (rooms w) = Some (ri, r) ->
  BreakoutRoom.sessionId r = sid ->
  BreakoutRoom.maxParticipants r <= Z.of_nat (length (roster r)) ->
  joinRoom E user sid rid w = (res_error "Breakout room is full" 400, w).
Proof.
  intros Hs Hp Hr Hsid Hcap. unfold roster in *.
  unfold joinRoom. run_handler.
  rewrite Hs. simpl. rewrite Hp. simpl. rewrite Hr. simpl.
  rewrite Hsid, String.eqb_refl. simpl.
  destruct (Z.leb_spec (BreakoutRoom.maxParticipants r)
              (Z.of_nat (length (BreakoutRoom.participants r)))) as [_|Hlt]; [|lia].
  reflexivity.
Qed.

Lemma leaveRoom_success user sid rid w ri r j p :
  findOne (roomNamed rid) (rooms w) = Some (ri, r) ->
  findIndex (hasRoomId user) (roster r) = Some j ->
  roster r !! j = Some p ->
  leaveRoom E user sid rid w =
    (res_success (LeftD (BreakoutRoom.id r) (BreakoutRoom.name r))
       "Left breakout room successfully",
     mkWorld (sessions w)
       (<[ri := BreakoutRoom.with_participants (splice1 j (roster r)) r]> (rooms w))
       (events w ++
          [mkEvent ("breakout:" ++ rid) "participant_left"
             (ParticipantLeftP user (RoomParticipant.alias p) (BreakoutRoom.id r)
                (clock E (tick w)));
           mkEvent ("session:" ++ sid) "breakout_room_left"
             (BreakoutRoomLeftP (BreakoutRoom.id r) (BreakoutRoom.name r) user
                (RoomParticipant.alias p) (clock E (S (tick w))))])
       (S (S (tick w)))).
Proof.
  intros Hr Hj Hp. unfold roster in *.
  unfold leaveRoom. run_handler.
  rewrite Hr. simpl. rewrite Hj. simpl. rewrite Hp. simpl.
  rewrite <- app_assoc. reflexivity.
Qed.

Lemma leaveRoom_not_member user sid rid w ri r :
  findOne (roomNamed rid) (rooms w) = Some (ri, r) ->
  existsb (hasRoomId user) (roster r) = false ->
  leaveRoom E user sid rid w = (res_error "Not in breakout room" 400, w).
Proof.
  intros Hr Hj. apply findIndex_None in Hj. unfold roster in *.
  unfold leaveRoom. run_handler.
  rewrite Hr. simpl. rewrite Hj. reflexivity.
Qed.

Lemma leaveRoom_sessions user sid rid w :
  sessions (snd (leaveRoom E user sid rid w)) = sessions w.
Proof.
  unfold leaveRoom. run_handler. split_paths; reflexivity.
Qed.

Lemma closeRoom_success user sid rid w si s ri r :
  findOne (sessionNamed sid) (sessions w) = Some (si, s) ->
  Session.hostId s = user ->
  findOne (roomNamed rid) (rooms w) = Some (ri, r) ->
  closeRoom E user sid rid w =
    (res_success (ClosedD (BreakoutRoom.id r) (BreakoutRoom.name r))
       "Breakout room closed successfully",
     mkWorld (sessions w)
       (<[ri := BreakoutRoom.close (clock E (tick w)) r]> (rooms w))
       (events w ++
          [mkEvent ("breakout:" ++ rid) "room_closed"
             (RoomClosedP (BreakoutRoom.id r) (BreakoutRoom.name r)
                (Session.hostAlias s) (clock E (S (tick w))));
           mkEvent ("session:" ++ sid) "breakout_room_closed"
             (RoomClosedP (BreakoutRoom.id r) (BreakoutRoom.name r)
                (Session.hostAlias s) (clock E (S (S (tick w)))))])
       (S (S (S (tick w))))).
Proof.
  intros Hs Hhost Hr.
  unfold closeRoom. run_handler.
  rewrite Hs. simpl. rewrite Hhost, String.eqb_refl. simpl. rewrite Hr. simpl.
  rewrite <- app_assoc. reflexivity.
Qed.

(** *** Every handler run is a step of [evolves] *)

Lemma joinRoom_evolves user sid rid w :
  evolves E New w (snd (joinRoom E user sid rid w)).
Proof.
  unfold joinRoom. run_handler. split_paths; open_pairs; try quiet.
  match goal with
  | H : findOne (roomNamed _) _ = Some (?i, ?r) |- _ =>
      apply findOne_Some in H as (_ & Hr & _);
      eapply (ev_admit E New w _ i r user _ (tick w) Hr)
  end.
  - unfold roster. lia.
  - simpl. lia.
  - reflexivity.
Qed.

Lemma leaveRoom_evolves user sid rid w :
  evolves E New w (snd (leaveRoom E user sid rid w)).
Proof.
  unfold leaveRoom. run_handler. split_paths; open_pairs; try quiet;
    match goal with
    | H : findOne (roomNamed _) _ = Some (?i, ?r) |- _ =>
        apply findOne_Some in H as (_ & Hr & _);
        eapply (ev_remove E New w _ i r _ Hr); simpl; [reflexivity | lia]
    end.
Qed.

Lemma listRooms_evolves user sid w :
  evolves E New w (snd (listRooms user sid w)).
Proof.
  unfold listRooms. run_handler. split_paths; quiet.
Qed.

Lemma closeRoom_evolves user sid rid w :
  evolves E New w (snd (closeRoom E user sid rid w)).
Proof.
  unfold closeRoom. run_handler. split_paths; open_pairs; try quiet.
  match goal with
  | H : findOne (roomNamed _) _ = Some (?i, ?r) |- _ =>
      apply findOne_Some in H as (_ & Hr & _);
      eapply (ev_close E New w _ i r _ Hr); simpl; [reflexivity | lia]
  end.
Qed.

Lemma createRoom_evolves user sid name maxp auto w :
  (forall r, roster r = [] -> BreakoutRoom.maxParticipants r = default 10 maxp -> New r) ->
  evolves E New w (snd (createRoom E user sid name maxp auto w)).
Proof.
  intros Hnew.
  unfold createRoom. run_handler. split_paths; open_pairs; try quiet;
    eapply ev_open; simpl; try solve [reflexivity | lia];
    apply Hnew; reflexivity.
Qed.

End HandlerFacts.

(** ** The auto-assignment loop *)

Section LoopFacts.

Variable E : Env.
Variable New : BreakoutRoom.t -> Prop.

Lemma with_participants_same r : BreakoutRoom.with_participants (roster r) r = r.
Proof. destruct r. reflexivity. Qed.

Lemma with_participants_twice ps qs r :
  BreakoutRoom.with_participants ps (BreakoutRoom.with_participants qs r)
  = BreakoutRoom.with_participants ps r.
Proof. reflexivity. Qed.

Lemma assignedTo_cons_same p slot plan :
  assignedTo slot ((p, slot) :: plan) = Participant.id p :: assignedTo slot plan.
Proof. unfold assignedTo. simpl. rewrite Nat.eqb_refl. reflexivity. Qed.

Lemma assignedTo_cons_other p slot slot' plan :
  slot <> slot' ->
  assignedTo slot' ((p, slot) :: plan) = assignedTo slot' plan.
Proof.
  intros Hne. unfold assignedTo. simpl.
  destruct (Nat.eqb_spec slot slot'); [contradiction | reflexivity].
Qed.

Lemma inSync_commit brs rs slot pos r r' :
  inSync brs rs -> NoDup (List.map fst brs) ->
  brs !! slot = Some (pos, r) ->
  inSync (<[slot := (pos, r')]> brs) (<[pos := r']> rs).
Proof.
  intros Hsync Hnd Hslot slot' i x Hx.
  pose proof (Hsync _ _ _ Hslot) as Hpos.
  destruct (decide (slot' = slot)) as [->|Hne].
  - rewrite list_lookup_insert_eq in Hx by (eapply lookup_lt_Some; eauto).
    injection Hx as <- <-.
    apply list_lookup_insert_eq. eapply lookup_lt_Some; eauto.
  - rewrite list_lookup_insert_ne in Hx by congruence.
    assert (i <> pos) as Hi.
    { intros ->. apply Hne.
      eapply (NoDup_lookup (List.map fst brs) slot' slot pos); [assumption| |].
      - change (List.map fst brs) with (fst <$> brs).
        rewrite list_lookup_fmap, Hx. reflexivity.
      - change (List.map fst brs) with (fst <$> brs).
        rewrite list_lookup_fmap, Hslot. reflexivity. }
    rewrite list_lookup_insert_ne by congruence.
    eapply Hsync; eauto.
Qed.

Lemma positions_commit (brs : list (nat * BreakoutRoom.t)) slot pos r r' :
  brs !! slot = Some (pos, r) ->
  List.map fst (<[slot := (pos, r')]> brs) = List.map fst brs.
Proof.
  intros Hslot. change (fst <$> <[slot := (pos, r')]> brs = fst <$> brs).
  rewrite list_fmap_insert. simpl. apply list_insert_id.
  rewrite list_lookup_fmap, Hslot. reflexivity.
Qed.

Lemma freePlaces_commit (brs : list (nat * BreakoutRoom.t)) slot pos r x :
  List.map (fun b => freePlaces (snd b))
    (<[slot := (pos, BreakoutRoom.with_participants (push x (roster r)) r)]> brs)
  = <[slot := freePlaces r - 1]> (List.map (fun b => freePlaces (snd b)) brs).
Proof.
  change ((fun b => freePlaces (snd b)) <$>
            <[slot := (pos, BreakoutRoom.with_participants (push x (roster r)) r)]> brs
          = <[slot := freePlaces r - 1]> ((fun b => freePlaces (snd b)) <$> brs)).
  rewrite list_fmap_insert. f_equal.
  unfold freePlaces, roster, push. simpl. rewrite length_app. simpl. lia.
Qed.

Lemma assignLoop_spec us : forall brs i w,
  brs <> [] -> inSync brs (rooms w) -> NoDup (List.map fst brs) ->
  exists brs' w',
    assignLoop E brs i us w = (Value brs', w') /\
    inSync brs' (rooms w') /\
    List.map fst brs' = List.map fst brs /\
    sessions w' = sessions w /\
    evolves E New w w' /\
    (forall pos, pos ∉ List.map fst brs -> rooms w' !! pos = rooms w !! pos) /\
    (forall slot pos r, brs !! slot = Some (pos, r) ->
       exists extra,
         brs' !! slot
           = Some (pos, BreakoutRoom.with_participants (roster r ++ extra)%list r) /\
         List.map RoomParticipant.id extra
           = assignedTo slot
               (roundRobin (List.map (fun b => freePlaces (snd b)) brs) i us)).
Proof.
  induction us as [|p rest IH]; intros brs i w Hne Hsync Hnd.
  - exists brs, w. simpl. repeat split; auto.
    + apply ev_same; [reflexivity | lia].
    + intros slot pos r Hslot. exists []. rewrite app_nil_r, with_participants_same.
      split; [exact Hslot | reflexivity].
  - assert (Hlen : (i mod length brs < length brs)%nat).
    { apply Nat.mod_upper_bound. destruct brs; [congruence | simpl; lia]. }
    destruct (lookup_lt_is_Some_2 _ _ Hlen) as [[pos target] Hslot].
    simpl. rewrite Hslot, length_map.
    change (List.map (fun b => freePlaces (snd b)) brs !! (i mod length brs)%nat)
      with (((fun b => freePlaces (snd b)) <$> brs) !! (i mod length brs)%nat).
    rewrite list_lookup_fmap, Hslot. simpl.
    pose proof (Hsync _ _ _ Hslot) as Hpos.
    destruct (Z.ltb_spec (Z.of_nat (length (BreakoutRoom.participants target)))
                (BreakoutRoom.maxParticipants target)) as [Hcap|Hfull].
    + (* the target has a free place: commit *)
      assert (Hfree0 : (0 <? freePlaces target) = true)
        by (apply Z.ltb_lt; unfold freePlaces, roster; lia).
      rewrite Hfree0.
      run_handler.
      set (rp := roomParticipant (Participant.id p) p (clock E (tick w))).
      set (target' := BreakoutRoom.with_participants
                        (push rp (BreakoutRoom.participants target)) target).
      set (w1 := mkWorld _ _ _ _).
      set (brs1 := <[(i mod length brs)%nat := (pos, target')]> brs).
      assert (Hne1 : brs1 <> []).
      { intros H0. apply (f_equal length) in H0. unfold brs1 in H0.
        rewrite length_insert in H0. destruct brs; [congruence | discriminate]. }
      assert (Hsync1 : inSync brs1 (rooms w1)).
      { unfold brs1, w1. simpl. eapply inSync_commit; eauto. }
      assert (Hfst1 : List.map fst brs1 = List.map fst brs).
      { unfold brs1. eapply positions_commit; eauto. }
      assert (Hnd1 : NoDup (List.map fst brs1)) by (rewrite Hfst1; exact Hnd).
      destruct (IH brs1 (S i) w1 Hne1 Hsync1 Hnd1)
        as (brs' & w' & Hrun & Hsync' & Hfst' & Hsess' & Hev' & Hout' & Hin').
      exists brs', w'. rewrite Hrun.
      split; [reflexivity|]. split; [exact Hsync'|].
      split; [congruence|]. split; [exact Hsess'|].
      split.
      { eapply ev_trans; [|exact Hev'].
        eapply (ev_admit E New w w1 pos target (Participant.id p) p (tick w) Hpos).
        - unfold roster. lia.
        - unfold w1. simpl. lia.
        - reflexivity. }
      split.
      { intros j Hj. rewrite Hout' by (rewrite Hfst1; exact Hj).
        unfold w1. simpl. apply list_lookup_insert_ne.
        intros <-. apply Hj. change (List.map fst brs) with (fst <$> brs).
        apply list_elem_of_fmap. exists (pos, target).
        split; [reflexivity|]. eapply list_elem_of_lookup_2; eauto. }
      intros slot j r Hr.
      unfold brs1, target', rp in Hin'.
      pose proof (freePlaces_commit brs (i mod length brs)%nat pos target
                    (roomParticipant (Participant.id p) p (clock E (tick w)))) as Hfree.
      unfold roster in Hfree. 
      destruct (decide (slot = (i mod length brs)%nat)) as [->|Hother].
      * rewrite Hslot in Hr. injection Hr as <- <-.
        destruct (Hin' (i mod length brs)%nat pos
                    (BreakoutRoom.with_participants
                       (push (roomParticipant (Participant.id p) p (clock E (tick w)))
                          (BreakoutRoom.participants target)) target))
          as (extra & Hextra & Hids).
        { apply list_lookup_insert_eq. exact Hlen. }
        exists (roomParticipant (Participant.id p) p (clock E (tick w)) :: extra).
        split.
        -- rewrite Hextra. unfold roster, push. simpl.
           rewrite <- app_assoc. reflexivity.
        -- simpl. rewrite assignedTo_cons_same. f_equal.
           rewrite Hids, Hfree. reflexivity.
      * destruct (Hin' slot j r) as (extra & Hextra & Hids).
        { rewrite list_lookup_insert_ne by congruence. exact Hr. }
        exists extra. split; [exact Hextra|].
        rewrite assignedTo_cons_other by congruence.
        rewrite Hids, Hfree. reflexivity.
    + (* the target is full: skip *)
      assert (Hfree0 : (0 <? freePlaces target) = false)
        by (apply Z.ltb_ge; unfold freePlaces, roster; lia).
      rewrite Hfree0.
      destruct (IH brs (S i) w Hne Hsync Hnd)
        as (brs' & w' & Hrun & Hrest).
      exists brs', w'. split; [exact Hrun | exact Hrest].
Qed.

End LoopFacts.

Section AutoAssignFacts.

Variable E : Env.
Variable New : BreakoutRoom.t -> Prop.

#[local] Arguments assignLoop : simpl never.
#[local] Arguments findAll : simpl never.
#[local] Arguments unassignedParticipants : simpl never.

Lemma findAll_inSync {f : BreakoutRoom.t -> bool} rs : inSync (findAll f rs) rs.
Proof.
  intros slot i r Hslot.
  apply list_elem_of_lookup_2 in Hslot. apply findAll_spec in Hslot. tauto.
Qed.

Lemma sessionNamed_id sid ss si s :
  findOne (sessionNamed sid) ss = Some (si, s) -> Session.id s = sid.
Proof.
  intros H. apply findOne_Some in H as (_ & _ & H).
  apply String.eqb_eq. exact H.
Qed.

(** The active rooms the auto-assign handler of session [s] works on, and
    the participants it iterates over. *)
Lemma autoAssign_run user sid w si s :
  findOne (sessionNamed sid) (sessions w) = Some (si, s) ->
  Session.hostId s = user ->
  let brs := findAll (isActiveRoomOf sid) (rooms w) in
  let us := unassignedParticipants s brs in
  brs <> [] ->
  exists w',
    autoAssign E user sid w =
      (if (length us =? 0)%nat
       then res_success (AllAssignedD "All participants are already assigned")
              "All participants assigned"
       else res_success (AssignedD (length us) (length brs))
              "Participants auto-assigned successfully",
       w') /\
    sessions w' = sessions w /\
    evolves E New w w' /\
    (forall pos, pos ∉ List.map fst brs -> rooms w' !! pos = rooms w !! pos) /\
    (forall slot pos r, brs !! slot = Some (pos, r) ->
       exists extra,
         rooms w' !! pos
           = Some (BreakoutRoom.with_participants (roster r ++ extra)%list r) /\
         List.map RoomParticipant.id extra
           = assignedTo slot
               (roundRobin (List.map (fun b => freePlaces (snd b)) brs) 0 us)).
Proof.
  intros Hs Hhost brs us Hne.
  pose proof (sessionNamed_id _ _ _ _ Hs) as Hid.
  destruct (assignLoop_spec E New us brs 0 w Hne (findAll_inSync _) (findAll_NoDup _ _))
    as (brs' & w' & Hrun & Hsync' & Hfst' & Hsess' & Hev' & Hout' & Hin').
  unfold autoAssign. run_handler.
  rewrite Hs. simpl. rewrite Hhost, String.eqb_refl, Hid. simpl.
  fold brs. fold us.
  destruct (length brs =? 0)%nat eqn:Hlen.
  { apply Nat.eqb_eq in Hlen. destruct brs; [congruence | discriminate]. }
  destruct (length us =? 0)%nat eqn:Hus.
  - (* nobody left to assign *)
    exists w. apply Nat.eqb_eq in Hus. destruct us; [|discriminate].
    split; [reflexivity|]. split; [reflexivity|].
    split; [apply ev_same; [reflexivity | lia]|].
    split; [reflexivity|].
    intros slot pos r Hslot. exists []. rewrite app_nil_r, with_participants_same.
    split; [|reflexivity]. eapply (findAll_inSync (rooms w)). exact Hslot.
  - exists w'. rewrite Hrun.
    split; [reflexivity|]. split; [exact Hsess'|]. split; [exact Hev'|].
    split; [exact Hout'|].
    intros slot pos r Hslot. destruct (Hin' slot pos r Hslot) as (extra & Hextra & Hids).
    exists extra. split; [|exact Hids]. eapply Hsync'. exact Hextra.
Qed.

Lemma autoAssign_evolves user sid w :
  evolves E New w (snd (autoAssign E user sid w)).
Proof.
  destruct (findOne (sessionNamed sid) (sessions w)) as [[si s]|] eqn:Hs.
  - destruct (String.eqb (Session.hostId s) user) eqn:Hhost.
    + apply String.eqb_eq in Hhost.
      destruct (findAll (isActiveRoomOf sid) (rooms w)) eqn:Hbrs.
      * pose proof (sessionNamed_id _ _ _ _ Hs) as Hid.
        unfold autoAssign. run_handler. rewrite Hs. simpl.
        rewrite Hhost, String.eqb_refl, Hid. simpl.
        rewrite Hbrs. simpl. quiet.
      * destruct (autoAssign_run user sid w si s Hs Hhost) as (w' & Hrun & _ & Hev & _).
        { rewrite Hbrs. discriminate. }
        rewrite Hrun. exact Hev.
    + unfold autoAssign. run_handler. rewrite Hs. simpl. rewrite Hhost. simpl. quiet.
  - unfold autoAssign. run_handler. rewrite Hs. simpl. quiet.
Qed.

Lemma handle_evolves q w :
  (forall u s n m a r,
     q = CreateRoom u s n m a -> roster r = [] ->
     BreakoutRoom.maxParticipants r = default 10 m -> New r) ->
  evolves E New w (snd (handle E q w)).
Proof.
  intros Hnew. destruct q; simpl.
  - apply createRoom_evolves. intros r Hr Hm. eapply Hnew; eauto.
  - apply joinRoom_evolves.
  - apply leaveRoom_evolves.
  - apply listRooms_evolves.
  - apply closeRoom_evolves.
  - apply autoAssign_evolves.
Qed.

End AutoAssignFacts.

(** ** Invariants of [evolves] *)

Section EvolvesFacts.

Variable E : Env.
Variable New : BreakoutRoom.t -> Prop.

Lemma splice1_length {A} (j : nat) (l : list A) : (length (splice1 j l) <= length l)%nat.
Proof.
  unfold splice1. rewrite length_app, length_firstn, length_skipn. lia.
Qed.

Lemma splice1_elem_of {A} (j : nat) (l : list A) x : x ∈ splice1 j l -> x ∈ l.
Proof.
  unfold splice1. rewrite elem_of_app. intros [H|H].
  - eapply elem_of_sublist; [exact H | apply sublist_take].
  - eapply elem_of_sublist; [exact H | apply sublist_drop].
Qed.

Lemma evolves_tick w w' : evolves E New w w' -> (tick w <= tick w')%nat.
Proof. induction 1; lia. Qed.

Lemma evolves_length w w' :
  evolves E New w w' -> (length (rooms w) <= length (rooms w'))%nat.
Proof.
  induction 1;
    repeat match goal with H : rooms _ = _ |- _ => rewrite H end;
    rewrite ?length_app, ?length_insert; simpl; lia.
Qed.

(** A roster that grew ends within capacity; the capacity itself never
    changes. *)
Lemma evolves_grows_within w w' :
  evolves E New w w' ->
  forall i r r', rooms w !! i = Some r -> rooms w' !! i = Some r' ->
    BreakoutRoom.maxParticipants r' = BreakoutRoom.maxParticipants r /\
    ((length (roster r') <= length (roster r))%nat \/
     Z.of_nat (length (roster r')) <= BreakoutRoom.maxParticipants r).
Proof.
  induction 1 as [w w' Hrs _|w w' r0 Hrs _ _ _|w w' j r0 id p k Hj Hcap _ Hrs
                  |w w' j r0 n Hj Hrs _|w w' j r0 t Hj Hrs _|w1 w2 w3 H12 IH12 H23 IH23];
    intros i r r' Hr Hr'.
  - rewrite Hrs, Hr in Hr'. injection Hr' as <-. split; [reflexivity | left; lia].
  - rewrite Hrs, lookup_app_l, Hr in Hr' by (eapply lookup_lt_Some; eauto).
    injection Hr' as <-. split; [reflexivity | left; lia].
  - rewrite Hrs in Hr'. destruct (decide (j = i)) as [->|Hne].
    + rewrite list_lookup_insert_eq in Hr' by (eapply lookup_lt_Some; eauto).
      rewrite Hj in Hr. injection Hr as <-. injection Hr' as <-.
      split; [reflexivity|]. right. unfold roster, push in *. simpl.
      rewrite length_app. simpl. lia.
    + rewrite list_lookup_insert_ne, Hr in Hr' by congruence.
      injection Hr' as <-. split; [reflexivity | left; lia].
  - rewrite Hrs in Hr'. destruct (decide (j = i)) as [->|Hne].
    + rewrite list_lookup_insert_eq in Hr' by (eapply lookup_lt_Some; eauto).
      rewrite Hj in Hr. injection Hr as <-. injection Hr' as <-.
      split; [reflexivity|]. left. unfold roster. simpl. apply splice1_length.
    + rewrite list_lookup_insert_ne, Hr in Hr' by congruence.
      injection Hr' as <-. split; [reflexivity | left; lia].
  - rewrite Hrs in Hr'. destruct (decide (j = i)) as [->|Hne].
    + rewrite list_lookup_insert_eq in Hr' by (eapply lookup_lt_Some; eauto).
      rewrite Hj in Hr. injection Hr as <-. injection Hr' as <-.
      split; [reflexivity | left; unfold roster; simpl; lia].
    + rewrite list_lookup_insert_ne, Hr in Hr' by congruence.
      injection Hr' as <-. split; [reflexivity | left; lia].
  - assert (is_Some (rooms w2 !! i)) as [r2 Hr2].
    { apply lookup_lt_is_Some. apply lookup_lt_Some in Hr.
      pose proof (evolves_length _ _ H12). lia. }
    destruct (IH12 _ _ _ Hr Hr2) as (Hm12 & H12').
    destruct (IH23 _ _ _ Hr2 Hr') as (Hm23 & H23').
    split; [congruence|]. rewrite Hm12 in H23'. lia.
Qed.

(** Every roster entry after the run was in the same room before it, or is
    a muted, connected snapshot stamped with a clock read of this run. *)
Lemma evolves_entries w w' :
  evolves E New w w' ->
  forall i r' x, rooms w' !! i = Some r' -> x ∈ roster r' ->
    (exists r, rooms w !! i = Some r /\ x ∈ roster r) \/
    (startsMuted x /\
     exists k, (tick w <= k < tick w')%nat /\ RoomParticipant.joinedAt x = clock E k).
Proof.
  induction 1 as [w w' Hrs _|w w' r0 Hrs Hempty _ _|w w' j r0 id p k Hj Hcap Hk Hrs
                  |w w' j r0 n Hj Hrs _|w w' j r0 t Hj Hrs _|w1 w2 w3 H12 IH12 H23 IH23];
    intros i r' x Hr' Hx.
  - rewrite Hrs in Hr'. left. eauto.
  - rewrite Hrs in Hr'. apply lookup_app_Some in Hr' as [Hr'|[_ Hr']].
    + left. eauto.
    + apply list_lookup_singleton_Some in Hr' as [_ <-].
      rewrite Hempty in Hx. apply elem_of_nil in Hx. contradiction.
  - rewrite Hrs in Hr'. destruct (decide (j = i)) as [->|Hne].
    + rewrite list_lookup_insert_eq in Hr' by (eapply lookup_lt_Some; eauto).
      injection Hr' as <-. unfold roster, push in Hx. simpl in Hx.
      apply elem_of_app in Hx as [Hx|Hx].
      * left. eauto.
      * apply list_elem_of_singleton in Hx as ->. right.
        split; [split; reflexivity|]. exists k. split; [exact Hk | reflexivity].
    + rewrite list_lookup_insert_ne in Hr' by congruence. left. eauto.
  - rewrite Hrs in Hr'. destruct (decide (j = i)) as [->|Hne].
    + rewrite list_lookup_insert_eq in Hr' by (eapply lookup_lt_Some; eauto).
      injection Hr' as <-. unfold roster in Hx. simpl in Hx.
      apply splice1_elem_of in Hx. left. eauto.
    + rewrite list_lookup_insert_ne in Hr' by congruence. left. eauto.
  - rewrite Hrs in Hr'. destruct (decide (j = i)) as [->|Hne].
    + rewrite list_lookup_insert_eq in Hr' by (eapply lookup_lt_Some; eauto).
      injection Hr' as <-. left. eauto.
    + rewrite list_lookup_insert_ne in Hr' by congruence. left. eauto.
  - pose proof (evolves_tick _ _ H12). pose proof (evolves_tick _ _ H23).
    destruct (IH23 _ _ _ Hr' Hx) as [(r2 & Hr2 & Hx2)|(Hm & k & Hk & Hat)].
    + destruct (IH12 _ _ _ Hr2 Hx2) as [Hold|(Hm & k & Hk & Hat)].
      * left. exact Hold.
      * right. split; [exact Hm|]. exists k. split; [lia | exact Hat].
    + right. split; [exact Hm|]. exists k. split; [lia | exact Hat].
Qed.

Lemma evolves_rostersMuted w w' :
  evolves E New w w' -> rostersMuted w -> rostersMuted w'.
Proof.
  intros Hev Hw. unfold rostersMuted in *.
  rewrite Forall_lookup. intros i r' Hr'. rewrite Forall_forall. intros x Hx.
  destruct (evolves_entries _ _ Hev _ _ _ Hr' Hx) as [(r & Hr & Hxr)|[Hm _]].
  - rewrite Forall_lookup in Hw. specialize (Hw _ _ Hr).
    rewrite Forall_forall in Hw. apply Hw. exact Hxr.
  - exact Hm.
Qed.

End EvolvesFacts.

Lemma evolves_capacityOk E w w' :
  evolves E (fun r => 0 <= BreakoutRoom.maxParticipants r) w w' ->
  capacityOk w -> capacityOk w'.
Proof.
  unfold capacityOk.
  induction 1 as [w w' Hrs _|w w' r0 Hrs Hempty Hmax _|w w' j r0 id p k Hj Hcap Hk Hrs
                  |w w' j r0 n Hj Hrs _|w w' j r0 t Hj Hrs _|w1 w2 w3 H12 IH12 H23 IH23];
    intros Hw; try rewrite Hrs.
  - exact Hw.
  - apply Forall_app. split; [exact Hw|]. constructor; [|constructor].
    unfold withinCapacity. rewrite Hempty. simpl. lia.
  - apply Forall_insert; [exact Hw|].
    unfold withinCapacity, roster, push in *. simpl. rewrite length_app. simpl. lia.
  - apply Forall_insert; [exact Hw|].
    rewrite Forall_lookup in Hw. specialize (Hw _ _ Hj).
    unfold withinCapacity, roster in *. simpl.
    pose proof (splice1_length n (BreakoutRoom.participants r0)). lia.
  - apply Forall_insert; [exact Hw|].
    rewrite Forall_lookup in Hw. specialize (Hw _ _ Hj). exact Hw.
  - auto.
Qed.

(** * A handler between its awaits *)

Lemma settle_atomically t : forall w,
  atomically (fst (settle t w)) (snd (settle t w)) = atomically t w.
Proof.
  induction t as [o|B op k IH|B op k IH]; intros w; simpl; try reflexivity.
  unfold bind. destruct (op w) as [[b|r|msg] w']; simpl; [apply IH | reflexivity..].
Qed.

(** Resuming a handler and then running the rest without interruption is
    running all of it without interruption. *)
Lemma resume_atomically t w :
  atomically (fst (resume t w)) (snd (resume t w)) = atomically t w.
Proof.
  destruct t as [o|B op k|B op k]; simpl.
  - reflexivity.
  - exact (settle_atomically (Sync op k) w).
  - unfold bind. destruct (op w) as [[b|r|msg] w']; simpl;
      [apply settle_atomically | reflexivity..].
Qed.

(** The join handler that nothing interrupts is [joinRoom], whichever way
    the store saves. *)
Lemma joinTask_alone E P user sid rid w :
  handler "Failed to join breakout room: " (atomically (joinTask E P user sid rid)) w
  = joinRoom E user sid rid w.
Proof.
  unfold joinRoom, joinTask. simpl. run_handler.
  destruct (findOne (sessionNamed sid) (sessions w)) as [[si s]|]; simpl; [|reflexivity].
  destruct (List.find (hasId user) (Session.participants s)) as [p|]; simpl;
    [|reflexivity].
  destruct (findOne (roomNamed rid) (rooms w)) as [[ri r]|] eqn:Hr; simpl; [|reflexivity].
  destruct (negb (String.eqb (BreakoutRoom.sessionId r) sid)); simpl; [reflexivity|].
  destruct (BreakoutRoom.maxParticipants r
              <=? Z.of_nat (length (BreakoutRoom.participants r))); simpl; [reflexivity|].
  destruct (existsb (hasRoomId user) (BreakoutRoom.participants r)); simpl; [reflexivity|].
  destruct P; simpl; [reflexivity|].
  apply findOne_Some in Hr as (_ & Hri & _). rewrite Hri. reflexivity.
Qed.

(** Resumed five times in a row, once for each [await], the join handler
    has answered what [joinRoom] answers and left the world [joinRoom]
    leaves. *)
Lemma joinTask_uninterrupted E P user sid rid w :
  joinAnswers (fst (interleave [0; 0; 0; 0; 0]%nat [joinTask E P user sid rid] w))
    = [Some (fst (joinRoom E user sid rid w))] /\
  snd (interleave [0; 0; 0; 0; 0]%nat [joinTask E P user sid rid] w)
    = snd (joinRoom E user sid rid w).
Proof.
  unfold joinRoom, joinTask, joinAnswers. simpl. run_handler.
  destruct (findOne (sessionNamed sid) (sessions w)) as [[si s]|]; simpl; [|auto].
  destruct (List.find (hasId user) (Session.participants s)) as [p|]; simpl; [|auto].
  destruct (findOne (roomNamed rid) (rooms w)) as [[ri r]|] eqn:Hr; simpl; [|auto].
  destruct (negb (String.eqb (BreakoutRoom.sessionId r) sid)); simpl; [auto|].
  destruct (BreakoutRoom.maxParticipants r
              <=? Z.of_nat (length (BreakoutRoom.participants r))); simpl; [auto|].
  destruct (existsb (hasRoomId user) (BreakoutRoom.participants r)); simpl; [auto|].
  destruct P; simpl; [auto|].
  apply findOne_Some in Hr as (_ & Hri & _). rewrite Hri. simpl. auto.
Qed.

(** Two join handlers for one room that take turns at every [await]. Both
    read the room before either saves, so each tests the roster as it was
    before the other's entry. *)
Lemma joinTask_turns E P u1 u2 sid rid w si s p1 p2 ri r :
  findOne (sessionNamed sid) (sessions w) = Some (si, s) ->
  List.find (hasId u1) (Session.participants s) = Some p1 ->
  List.find (hasId u2) (Session.participants s) = Some p2 ->
  findOne (roomNamed rid) (rooms w) = Some (ri, r) ->
  BreakoutRoom.sessionId r = sid ->
  Z.of_nat (length (roster r)) < BreakoutRoom.maxParticipants r ->
  existsb (hasRoomId u1) (roster r) = false ->
  existsb (hasRoomId u2) (roster r) = false ->
  List.map succeeded
    (joinAnswers
       (fst (interleave Race.turns [joinTask E P u1 sid rid; joinTask E P u2 sid rid] w)))
    = [true; true] /\
  rooms (snd (interleave Race.turns
                [joinTask E P u1 sid rid; joinTask E P u2 sid rid] w))
  = <[ri := BreakoutRoom.with_participants
              (match P with
               | PushDelta =>
                   roster r ++ [roomParticipant u1 p1 (clock E (tick w));
                                roomParticipant u2 p2 (clock E (S (tick w)))]
               | WholeDocument =>
                   roster r ++ [roomParticipant u2 p2 (clock E (S (tick w)))]
               end)%list r]> (rooms w).
Proof.
  intros Hs Hp1 Hp2 Hr Hsid Hcap Hnew1 Hnew2. unfold roster in *.
  pose proof (findOne_Some _ _ _ _ Hr) as (_ & Hri & _).
  assert (Hlt : (ri < length (rooms w))%nat) by (eapply lookup_lt_Some; eauto).
  assert (Hleb : (BreakoutRoom.maxParticipants r
                    <=? Z.of_nat (length (BreakoutRoom.participants r))) = false)
    by (apply Z.leb_gt; exact Hcap).
  assert (Hsess : negb (String.eqb (BreakoutRoom.sessionId r) sid) = false)
    by (rewrite Hsid, String.eqb_refl; reflexivity).
  unfold Race.turns, joinTask, joinAnswers. simpl. run_handler.
  repeat (progress (simpl; rewrite ?Hs, ?Hp1, ?Hp2, ?Hr, ?Hsess, ?Hleb, ?Hnew1, ?Hnew2)).
  destruct P; simpl.
  - split; [reflexivity|]. rewrite list_insert_insert_eq. reflexivity.
  - rewrite Hri. simpl. rewrite list_lookup_insert_eq by exact Hlt. simpl.
    split; [reflexivity|].
    rewrite list_insert_insert_eq. unfold push. rewrite <- app_assoc. reflexivity.
Qed.

(** ** Sequences of requests *)

Lemma run_app E qs1 qs2 w : run E (qs1 ++ qs2) w = run E qs2 (run E qs1 w).
Proof. revert w. induction qs1 as [|q qs1 IH]; intros w; simpl; auto. Qed.

Lemma run_capacityOk E qs w :
  Forall capacitySafe qs -> capacityOk w -> capacityOk (run E qs w).
Proof.
  intros Hqs. revert w. induction Hqs as [|q qs Hq _ IH]; intros w Hw; simpl; [exact Hw|].
  apply IH. eapply evolves_capacityOk; [|exact Hw].
  apply handle_evolves. intros u s n m a r -> _ Hm. rewrite Hm.
  destruct m as [m|]; simpl in *; lia.
Qed.

Lemma run_rostersMuted E qs w : rostersMuted w -> rostersMuted (run E qs w).
Proof.
  revert w. induction qs as [|q qs IH]; intros w Hw; simpl; [exact Hw|].
  apply IH. eapply (evolves_rostersMuted E (fun _ => True)); [|exact Hw].
  apply handle_evolves. intros; exact I.
Qed.

Lemma existsb_hasRoomId user ps :
  existsb (hasRoomId user) ps = true <-> user ∈ List.map RoomParticipant.id ps.
Proof.
  rewrite existsb_exists. change (List.map RoomParticipant.id ps) with (RoomParticipant.id <$> ps).
  rewrite list_elem_of_fmap. unfold hasRoomId. split.
  - intros (p & Hin & Hp). apply String.eqb_eq in Hp. exists p.
    split; [congruence | apply list_elem_of_In, Hin].
  - intros (p & -> & Hin). exists p. split; [apply list_elem_of_In, Hin|].
    apply String.eqb_refl.
Qed.

Lemma existsb_hasRoomId_false user ps :
  existsb (hasRoomId user) ps = false <-> user ∉ List.map RoomParticipant.id ps.
Proof.
  rewrite <- existsb_hasRoomId. destruct (existsb (hasRoomId user) ps); split; congruence.
Qed.

Lemma insertByCreatedAt_elem_of x y l :
  y ∈ insertByCreatedAt x l <-> y = x \/ y ∈ l.
Proof.
  induction l as [|z l IH]; simpl.
  - rewrite list_elem_of_singleton, elem_of_nil. tauto.
  - destruct (_ <=? _); rewrite !elem_of_cons; [tauto|]. rewrite IH. tauto.
Qed.

Lemma sortByCreatedAt_elem_of y l : y ∈ sortByCreatedAt l <-> y ∈ l.
Proof.
  induction l as [|z l IH]; simpl; [tauto|].
  rewrite insertByCreatedAt_elem_of, elem_of_cons, IH. tauto.
Qed.

(** ** C9: leaving a room and the main session *)

(** C9. [LeaveRoom] never touches the main session's roster: the session
    collection after the handler is the one before it, whether the actor
    was in the room (the response is a success and the actor's entry is
    removed from that room's roster) or not (the response is [NotMember]
    and the world is unchanged). *)
Theorem leaveRoom_keeps_session_membership E user sid rid w :
  sessions (snd (leaveRoom E user sid rid w)) = sessions w /\
  (forall ri r,
     findOne (roomNamed rid) (rooms w) = Some (ri, r) ->
     match findIndex (hasRoomId user) (roster r) with
     | Some j =>
         isSuccess (fst (leaveRoom E user sid rid w)) = true /\
         rooms (snd (leaveRoom E user sid rid w))
           = <[ri := BreakoutRoom.with_participants (splice1 j (roster r)) r]> (rooms w)
     | None =>
         errorKind (fst (leaveRoom E user sid rid w)) = Some NotMember /\
         snd (leaveRoom E user sid rid w) = w
     end).
Proof.
  split; [apply leaveRoom_sessions|].
  intros ri r Hr. destruct (findIndex (hasRoomId user) (roster r)) as [j|] eqn:Hj.
  - destruct (findIndex_Some _ _ _ Hj) as (p & Hp & _).
    rewrite (leaveRoom_success E user sid rid w ri r j p Hr Hj Hp). simpl. auto.
  - apply findIndex_None in Hj.
    rewrite (leaveRoom_not_member E user sid rid w ri r Hr Hj). simpl. auto.
Qed.

Lemma leaveRoom_keeps_session_membership_witness :
  sessions (snd (leaveRoom Sample.env "P3" "s1" "R1" Sample.fullRoom))
    = [Sample.session] /\
  List.map rosterIds (rooms (snd (leaveRoom Sample.env "P3" "s1" "R1" Sample.fullRoom)))
    = [[]].
Proof.
  destruct (leaveRoom_keeps_session_membership Sample.env "P3" "s1" "R1" Sample.fullRoom)
    as [Hs Hr].
  split; [exact Hs|].
  specialize (Hr 0%nat _ eq_refl). simpl in Hr. destruct Hr as [_ Hr].
  apply (f_equal (List.map rosterIds)) in Hr. exact Hr.
Defined.

(** ** C8: the [canJoin] flag of the listing *)

(** C8. Every summary the listing returns to [user] describes a stored room
    of the session, and its [canJoin] flag holds exactly when that room is
    active, its roster is strictly below [maxParticipants] and [user] is not
    in the roster. *)
Theorem listRooms_canJoin user sid w summaries total msg w' :
  listRooms user sid w = (res_success (RoomsD summaries total) msg, w') ->
  forall summary, summary ∈ summaries ->
    exists pos r,
      rooms w !! pos = Some r /\
      BreakoutRoom.sessionId r = sid /\
      summary = summarize user r /\
      (RoomSummary.canJoin summary = true <->
         BreakoutRoom.status r = active /\
         Z.of_nat (length (roster r)) < BreakoutRoom.maxParticipants r /\
         user ∉ rosterIds r).
Proof.
  unfold listRooms. run_handler.
  destruct (findOne (sessionNamed sid) (sessions w)) as [[si s]|] eqn:Hs; simpl;
    [|discriminate].
  destruct (List.find (hasId user) (Session.participants s)); simpl; [|discriminate].
  intros [= <- _ _ _] summary Hin.
  pose proof (sessionNamed_id _ _ _ _ Hs) as Hid.
  change (summary ∈ summarize user <$>
            (snd <$> sortByCreatedAt (findAll (isActiveRoomOf (Session.id s)) (rooms w))))
    in Hin.
  apply list_elem_of_fmap in Hin as (r & -> & Hin).
  apply list_elem_of_fmap in Hin as ([pos r0] & -> & Hin). simpl.
  apply sortByCreatedAt_elem_of, findAll_spec in Hin as [Hpos Hact].
  unfold isActiveRoomOf in Hact. apply andb_true_iff in Hact as [Hsid Hst].
  apply String.eqb_eq in Hsid.
  exists pos, r0. split; [exact Hpos|]. split; [congruence|]. split; [reflexivity|].
  simpl. rewrite andb_true_iff, negb_true_iff, Z.ltb_lt, existsb_hasRoomId_false.
  unfold rosterIds, roster. destruct (BreakoutRoom.status r0); [tauto | discriminate].
Qed.

Lemma listRooms_canJoin_witness :
  exists pos r,
    rooms Sample.twoRooms !! pos = Some r /\
    BreakoutRoom.sessionId r = "s1" /\
    summarize "P2" (Sample.room "R1" 2 active []) = summarize "P2" r /\
    (RoomSummary.canJoin (summarize "P2" (Sample.room "R1" 2 active [])) = true <->
       BreakoutRoom.status r = active /\
       Z.of_nat (length (roster r)) < BreakoutRoom.maxParticipants r /\
       "P2" ∉ rosterIds r).
Proof.
  apply (listRooms_canJoin "P2" "s1" Sample.twoRooms
           [summarize "P2" (Sample.room "R1" 2 active []);
            summarize "P2" (Sample.room "R2" 2 active [])]
           2%nat "Breakout rooms retrieved successfully" Sample.twoRooms).
  - reflexivity.
  - apply list_elem_of_here.
Defined.

(** ** C1: joining a closed room *)

(** C1. The join handler does not look at the room's status. In the sample
    world whose only room is closed and has a free place, a session
    participant who asks to join is answered with a success and is appended
    to the roster of the closed room. *)
Theorem joinRoom_admits_into_closed_room :
  List.map BreakoutRoom.status (rooms Sample.closedRoom) = [closed] /\
  List.map rosterIds (rooms Sample.closedRoom) = [[]] /\
  isSuccess (fst (joinRoom Sample.env "P2" "s1" "R1" Sample.closedRoom)) = true /\
  List.map BreakoutRoom.status
    (rooms (snd (joinRoom Sample.env "P2" "s1" "R1" Sample.closedRoom))) = [closed] /\
  List.map rosterIds
    (rooms (snd (joinRoom Sample.env "P2" "s1" "R1" Sample.closedRoom))) = [["P2"]].
Proof. vm_compute. repeat split. Qed.

(** ** C3: closing a room twice *)

(** C3, as stated, fails: the host closes room R1 twice in a row; the
    second close is answered with a success and both closure events are
    published a second time. *)
Lemma closeRoom_twice_publishes_twice :
  isSuccess (fst (closeRoom Sample.env "P1" "s1" "R1"
                    (snd (closeRoom Sample.env "P1" "s1" "R1" Sample.twoRooms)))) = true /\
  List.map eventType
    (events (run Sample.env [CloseRoom "P1" "s1" "R1"; CloseRoom "P1" "s1" "R1"]
               Sample.twoRooms))
  = ["room_closed"; "breakout_room_closed"; "room_closed"; "breakout_room_closed"].
Proof. vm_compute. split; reflexivity. Qed.

(** C3, amended. [CloseRoom] does not look at the room's status: asked by
    the session host for an existing room, it succeeds, stores the room
    with status closed and [closedAt] set to the current time, roster kept,
    and publishes [room_closed] on the room topic and
    [breakout_room_closed] on the session topic, also when the room was
    closed already. *)
Theorem closeRoom_ignores_status E user sid rid w si s ri r :
  findOne (sessionNamed sid) (sessions w) = Some (si, s) ->
  Session.hostId s = user ->
  findOne (roomNamed rid) (rooms w) = Some (ri, r) ->
  isSuccess (fst (closeRoom E user sid rid w)) = true /\
  (exists r', rooms (snd (closeRoom E user sid rid w)) = <[ri := r']> (rooms w) /\
              BreakoutRoom.status r' = closed /\
              BreakoutRoom.closedAt r' = Some (clock E (tick w)) /\
              roster r' = roster r) /\
  List.map (fun e => (topic e, eventType e)) (events (snd (closeRoom E user sid rid w)))
  = (List.map (fun e => (topic e, eventType e)) (events w)
     ++ [(("breakout:" ++ rid)%string, "room_closed");
         (("session:" ++ sid)%string, "breakout_room_closed")])%list.
Proof.
  intros Hs Hhost Hr.
  rewrite (closeRoom_success E user sid rid w si s ri r Hs Hhost Hr). simpl.
  split; [reflexivity|]. split.
  - eexists. split; [reflexivity|]. simpl. auto.
  - rewrite map_app. reflexivity.
Qed.

Lemma closeRoom_ignores_status_witness :
  isSuccess (fst (closeRoom Sample.env "P1" "s1" "R1" Sample.closedRoom)) = true /\
  List.map (fun e => (topic e, eventType e))
    (events (snd (closeRoom Sample.env "P1" "s1" "R1" Sample.closedRoom)))
  = [("breakout:R1", "room_closed"); ("session:s1", "breakout_room_closed")].
Proof.
  destruct (closeRoom_ignores_status Sample.env "P1" "s1" "R1" Sample.closedRoom
              0%nat Sample.session 0%nat (Sample.room "R1" 2 closed [])
              eq_refl eq_refl eq_refl) as (Hok & _ & Hev).
  split; [exact Hok | exact Hev].
Defined.

(** ** C7: join, leave, join again *)

(** C7, as stated, fails: after join, leave and join again, each of them
    successful, the roster holds the actor, which it did not before the
    first join. *)
Lemma join_leave_join_adds_member :
  let w1 := snd (joinRoom Sample.env "P2" "s1" "R1" Sample.twoRooms) in
  let w2 := snd (leaveRoom Sample.env "P2" "s1" "R1" w1) in
  let w3 := snd (joinRoom Sample.env "P2" "s1" "R1" w2) in
  isSuccess (fst (joinRoom Sample.env "P2" "s1" "R1" Sample.twoRooms)) = true /\
  isSuccess (fst (leaveRoom Sample.env "P2" "s1" "R1" w1)) = true /\
  isSuccess (fst (joinRoom Sample.env "P2" "s1" "R1" w2)) = true /\
  List.map rosterIds (rooms Sample.twoRooms) = [[]; []] /\
  List.map rosterIds (rooms w3) = [["P2"]; []].
Proof. vm_compute. repeat split. Qed.

Lemma roomNamed_with_participants rid ps r :
  roomNamed rid (BreakoutRoom.with_participants ps r) = roomNamed rid r.
Proof. reflexivity. Qed.

(** C7, amended. From a roster that does not hold the actor and is below
    capacity, join, leave and join again succeed one after the other; the
    leave puts the room collection back as it was before the first join,
    and after the second join the roster's participant ids are those after
    the first join: the ids before the first join followed by the actor. *)
Theorem join_leave_join E user sid rid w si s p ri r :
  findOne (sessionNamed sid) (sessions w) = Some (si, s) ->
  List.find (hasId user) (Session.participants s) = Some p ->
  findOne (roomNamed rid) (rooms w) = Some (ri, r) ->
  BreakoutRoom.sessionId r = sid ->
  Z.of_nat (length (roster r)) < BreakoutRoom.maxParticipants r ->
  user ∉ rosterIds r ->
  let w1 := snd (joinRoom E user sid rid w) in
  let w2 := snd (leaveRoom E user sid rid w1) in
  let w3 := snd (joinRoom E user sid rid w2) in
  isSuccess (fst (joinRoom E user sid rid w)) = true /\
  isSuccess (fst (leaveRoom E user sid rid w1)) = true /\
  isSuccess (fst (joinRoom E user sid rid w2)) = true /\
  rooms w2 = rooms w /\
  exists r1 r3,
    rooms w1 !! ri = Some r1 /\ rooms w3 !! ri = Some r3 /\
    rosterIds r1 = (rosterIds r ++ [user])%list /\
    rosterIds r3 = rosterIds r1.
Proof.
  intros Hs Hp Hr Hsid Hcap Hnew. apply existsb_hasRoomId_false in Hnew.
  pose proof (findOne_Some _ _ _ _ Hr) as (_ & Hri & Hrid).
  assert (Hlt : (ri < length (rooms w))%nat) by (eapply lookup_lt_Some; eauto).
  intros w1 w2 w3.
  pose proof (joinRoom_success E user sid rid w si s p ri r Hs Hp Hr Hsid Hcap Hnew) as H1.
  cbv zeta in H1.
  set (rp := roomParticipant user p (clock E (tick w))) in *.
  set (r1 := BreakoutRoom.with_participants (push rp (roster r)) r) in *.
  assert (Hr1 : findOne (roomNamed rid) (rooms w1) = Some (ri, r1)).
  { unfold w1. rewrite H1. simpl. eapply findOne_insert; eauto. }
  assert (Hj : findIndex (hasRoomId user) (roster r1) = Some (length (roster r))).
  { unfold r1, roster. simpl. apply findIndex_push_fresh; [exact Hnew|].
    unfold hasRoomId, rp. simpl. apply String.eqb_refl. }
  assert (Hrp : roster r1 !! length (roster r) = Some rp).
  { unfold r1, roster, push. simpl. apply list_lookup_middle. reflexivity. }
  pose proof (leaveRoom_success E user sid rid w1 ri r1 _ rp Hr1 Hj Hrp) as H2.
  assert (Hrooms1 : rooms w1 = <[ri := r1]> (rooms w))
    by (unfold w1; rewrite H1; reflexivity).
  assert (Hback : rooms w2 = rooms w).
  { unfold w2. rewrite H2. simpl. rewrite Hrooms1, list_insert_insert_eq.
    change (roster r1) with (push rp (roster r)).
    rewrite splice1_push by reflexivity.
    unfold r1. rewrite with_participants_twice, with_participants_same.
    apply list_insert_id, Hri. }
  assert (Hs2 : sessions w2 = sessions w).
  { unfold w2. rewrite H2. simpl. unfold w1. rewrite H1. reflexivity. }
  assert (H3 := joinRoom_success E user sid rid w2 si s p ri r).
  rewrite Hs2, Hback in H3. specialize (H3 Hs Hp Hr Hsid Hcap Hnew). cbv zeta in H3.
  split; [rewrite H1; reflexivity|].
  split; [rewrite H2; reflexivity|].
  split; [rewrite H3; reflexivity|].
  split; [exact Hback|].
  exists r1. eexists.
  split; [unfold w1; rewrite H1; simpl; apply list_lookup_insert_eq, Hlt|].
  split; [unfold w3; rewrite H3; simpl; apply list_lookup_insert_eq, Hlt|].
  split.
  - unfold rosterIds, r1, roster, push. simpl. rewrite map_app. reflexivity.
  - unfold rosterIds, r1, roster, push. simpl. rewrite !map_app. reflexivity.
Qed.

Lemma join_leave_join_witness :
  rooms (snd (leaveRoom Sample.env "P2" "s1" "R1"
                (snd (joinRoom Sample.env "P2" "s1" "R1" Sample.twoRooms))))
  = rooms Sample.twoRooms.
Proof.
  refine (proj1 (proj2 (proj2 (proj2
    (join_leave_join Sample.env "P2" "s1" "R1" Sample.twoRooms
       0%nat Sample.session (Sample.person "P2" false true)
       0%nat (Sample.room "R1" 2 active [])
       eq_refl eq_refl eq_refl eq_refl _ _))))).
  - vm_compute. reflexivity.
  - vm_compute. intros H. inversion H.
Defined.

(** ** Creating a room *)

Lemma trim_length_nonempty n :
  (2 <= String.length (trim n))%nat -> (String.length n =? 0)%nat = false.
Proof. destruct n; simpl; [vm_compute; lia | reflexivity]. Qed.

(** With the session found, the actor privileged and the name long enough,
    the create handler builds one document and either stores it or is
    stopped by the schema. *)
Lemma createRoom_runs E user sid n maxp auto w si s p :
  findOne (sessionNamed sid) (sessions w) = Some (si, s) ->
  List.find (hasId user) (Session.participants s) = Some p ->
  Participant.isHost p || Participant.isModerator p = true ->
  (2 <= String.length (trim n))%nat ->
  let channel := "breakout_" ++ "breakout_" ++ sid ++ "_" ++ nanoid E (tick w) 6 in
  exists room ss' evs' t t',
    BreakoutRoom.maxParticipants room = default 10 maxp /\
    roster room = [] /\
    BreakoutRoom.status room = active /\
    BreakoutRoom.agoraToken room
      = match generateRtcToken E channel 0 "subscriber" 3600 with
        | Some token => token
        | None => "temp_breakout_token_" ++ nanoid E (S (tick w)) 16
        end /\
    createRoom E user sid (Some n) maxp auto w
      = match schemaError E room with
        | Some msg =>
            (res_error ("Failed to create breakout room: " ++ msg) 500,
             mkWorld (sessions w) (rooms w) (events w) t)
        | None =>
            (res_success
               (CreatedD (BreakoutRoom.id room) (BreakoutRoom.name room) user
                  (BreakoutRoom.creatorAlias room) (BreakoutRoom.maxParticipants room)
                  0 active (BreakoutRoom.agoraChannelName room)
                  (BreakoutRoom.agoraToken room) (BreakoutRoom.createdAt room))
               "Breakout room created successfully",
             mkWorld ss' (rooms w ++ [room]) evs' t')
        end.
Proof.
  intros Hs Hp Hpriv Hname channel.
  assert (Hpriv' : negb (Participant.isHost p) && negb (Participant.isModerator p) = false).
  { destruct (Participant.isHost p), (Participant.isModerator p);
      simpl in *; congruence. }
  assert (Hshort : (String.length (trim n) <? 2)%nat = false) by (apply Nat.ltb_ge; lia).
  unfold createRoom. run_handler.
  rewrite Hs. simpl. rewrite Hp. simpl. rewrite Hpriv'. simpl.
  rewrite (trim_length_nonempty n Hname), Hshort. simpl.
  fold channel.
  destruct (generateRtcToken E channel 0 "subscriber" 3600) as [token|]; simpl;
    match goal with
    | |- context [schemaError E ?r] =>
        exists r; do 4 eexists;
        split; [reflexivity|]; split; [reflexivity|]; split; [reflexivity|];
        split; [reflexivity|];
        destruct (schemaError E r); reflexivity
    end.
Qed.

Lemma createRoom_short_name_inert E user sid name maxp auto w :
  match name with
  | None => True
  | Some n => (String.length (trim n) < 2)%nat
  end ->
  isSuccess (fst (createRoom E user sid name maxp auto w)) = false /\
  snd (createRoom E user sid name maxp auto w) = w.
Proof.
  intros Hname. unfold createRoom. run_handler.
  destruct (findOne (sessionNamed sid) (sessions w)) as [[si s]|]; simpl; [|auto].
  destruct (List.find (hasId user) (Session.participants s)) as [p|]; simpl; [|auto].
  destruct (negb (Participant.isHost p) && negb (Participant.isModerator p));
    simpl; [auto|].
  destruct name as [n|]; simpl; [|auto].
  assert (Hshort : (String.length (trim n) <? 2)%nat = true) by (apply Nat.ltb_lt; lia).
  rewrite Hshort, orb_true_r. simpl. auto.
Qed.

Lemma createRoom_short_name E user sid name maxp auto w si s p :
  findOne (sessionNamed sid) (sessions w) = Some (si, s) ->
  List.find (hasId user) (Session.participants s) = Some p ->
  Participant.isHost p || Participant.isModerator p = true ->
  match name with
  | None => True
  | Some n => (String.length (trim n) < 2)%nat
  end ->
  createRoom E user sid name maxp auto w
    = (res_error "Room name must be at least 2 characters" 400, w).
Proof.
  intros Hs Hp Hpriv Hname.
  assert (Hpriv' : negb (Participant.isHost p) && negb (Participant.isModerator p) = false).
  { destruct (Participant.isHost p), (Participant.isModerator p);
      simpl in *; congruence. }
  unfold createRoom. run_handler.
  rewrite Hs. simpl. rewrite Hp. simpl. rewrite Hpriv'. simpl.
  destruct name as [n|]; simpl; [|reflexivity].
  assert (Hshort : (String.length (trim n) <? 2)%nat = true) by (apply Nat.ltb_lt; lia).
  rewrite Hshort, orb_true_r. reflexivity.
Qed.

(** ** C5: validation in the create handler *)

(** C5, as stated, fails: a host creates a room named "Team A" with
    [maxParticipants = 0]. With a schema that accepts the document the
    answer is a success and a room of capacity 0 is stored; with a schema
    that rejects it the answer is the handler's generic 500, not
    [InvalidArgument]. *)
Lemma createRoom_accepts_zero_capacity :
  isSuccess (fst (createRoom Sample.env "P1" "s1" (Some "Team A") (Some 0) None
                    Sample.noRooms)) = true /\
  List.map BreakoutRoom.maxParticipants
    (rooms (snd (createRoom Sample.env "P1" "s1" (Some "Team A") (Some 0) None
                   Sample.noRooms))) = [0] /\
  errorKind (fst (createRoom Sample.strict "P1" "s1" (Some "Team A") (Some 0) None
                    Sample.noRooms)) = Some Internal.
Proof. vm_compute. repeat split. Qed.

(** C5, amended. A create request whose name is missing or has a trimmed
    length below 2 creates no room and leaves the world as it was; when the
    session exists and the actor is a host or moderator, its answer is
    [InvalidArgument]. The handler does not validate [maxParticipants]: a
    request with [maxParticipants = 0] and an acceptable name is never
    answered with [InvalidArgument]; either a room of capacity 0 is stored
    and the answer is a success, or the schema stops the save, the answer
    is the generic failure and no room is stored. *)
Theorem createRoom_validation E user sid name maxp auto w :
  (match name with
   | None => True
   | Some n => (String.length (trim n) < 2)%nat
   end ->
   isSuccess (fst (createRoom E user sid name maxp auto w)) = false /\
   snd (createRoom E user sid name maxp auto w) = w /\
   forall si s p,
     findOne (sessionNamed sid) (sessions w) = Some (si, s) ->
     List.find (hasId user) (Session.participants s) = Some p ->
     Participant.isHost p || Participant.isModerator p = true ->
     errorKind (fst (createRoom E user sid name maxp auto w)) = Some InvalidArgument) /\
  (forall si s p n,
     findOne (sessionNamed sid) (sessions w) = Some (si, s) ->
     List.find (hasId user) (Session.participants s) = Some p ->
     Participant.isHost p || Participant.isModerator p = true ->
     name = Some n -> (2 <= String.length (trim n))%nat -> maxp = Some 0 ->
     errorKind (fst (createRoom E user sid name maxp auto w)) <> Some InvalidArgument /\
     ((isSuccess (fst (createRoom E user sid name maxp auto w)) = true /\
       exists r, rooms (snd (createRoom E user sid name maxp auto w))
                 = (rooms w ++ [r])%list /\
                 BreakoutRoom.maxParticipants r = 0 /\
                 roster r = [] /\ BreakoutRoom.status r = active) \/
      (errorKind (fst (createRoom E user sid name maxp auto w)) = Some Internal /\
       rooms (snd (createRoom E user sid name maxp auto w)) = rooms w))).
Proof.
  split.
  - intros Hname.
    destruct (createRoom_short_name_inert E user sid name maxp auto w Hname) as [H1 H2].
    split; [exact H1|]. split; [exact H2|].
    intros si s p Hs Hp Hpriv.
    rewrite (createRoom_short_name E user sid name maxp auto w si s p Hs Hp Hpriv Hname).
    reflexivity.
  - intros si s p n Hs Hp Hpriv -> Hname ->.
    destruct (createRoom_runs E user sid n (Some 0) auto w si s p Hs Hp Hpriv Hname)
      as (room & ss' & evs' & t & t' & Hmax & Hroster & Hst & _ & Hrun).
    rewrite Hrun. destruct (schemaError E room) as [msg|]; simpl.
    + split; [discriminate|]. right. split; reflexivity.
    + split; [discriminate|]. left. split; [reflexivity|].
      exists room. auto.
Qed.

Lemma createRoom_validation_witness :
  errorKind (fst (createRoom Sample.env "P1" "s1" (Some " a ") None None Sample.noRooms))
    = Some InvalidArgument /\
  snd (createRoom Sample.env "P1" "s1" (Some " a ") None None Sample.noRooms)
    = Sample.noRooms.
Proof.
  destruct (createRoom_validation Sample.env "P1" "s1" (Some " a ") None None
              Sample.noRooms) as [Hname _].
  destruct Hname as (_ & Hsame & Hkind); [vm_compute; lia|].
  split; [|exact Hsame].
  apply (Hkind 0%nat Sample.session (Sample.person "P1" true true));
    reflexivity.
Defined.

(** ** C6: the credential issuer is down *)



(** ** C2: rosters stay within capacity *)

Lemma joinRoom_full_inert E user sid rid w ri r :
  findOne (roomNamed rid) (rooms w) = Some (ri, r) ->
  BreakoutRoom.maxParticipants r <= Z.of_nat (length (roster r)) ->
  isSuccess (fst (joinRoom E user sid rid w)) = false /\
  snd (joinRoom E user sid rid w) = w.
Proof.
  intros Hr Hfull. unfold roster in Hfull.
  assert (Hleb : (BreakoutRoom.maxParticipants r
                    <=? Z.of_nat (length (BreakoutRoom.participants r))) = true)
    by (apply Z.leb_le; exact Hfull).
  unfold joinRoom. run_handler.
  destruct (findOne (sessionNamed sid) (sessions w)) as [[si s]|]; simpl; [|auto].
  destruct (List.find (hasId user) (Session.participants s)) as [p|]; simpl; [|auto].
  rewrite Hr. simpl.
  destruct (negb (String.eqb (BreakoutRoom.sessionId r) sid)); simpl; [auto|].
  rewrite Hleb. simpl. auto.
Qed.

(** With two handlers taking turns at every [await], both joins read the
    room with its one place free, both pass the capacity test and both are
    answered with a success. If the store appends what was pushed, the
    room of capacity 1 then holds two members; if it writes the document
    as the handler holds it, the room holds the second member only and the
    first, who was told that the join succeeded, is not in it. The same two
    handlers run one after the other give one success and one refusal. *)
Lemma overlapping_joins_exceed_capacity :
  capacityOk Race.oneSeat /\
  (List.map succeeded
     (joinAnswers (fst (interleave Race.turns (Race.rivals PushDelta) Race.oneSeat)))
   = [true; true] /\
   List.map (fun r => (rosterIds r, BreakoutRoom.maxParticipants r))
     (rooms (snd (interleave Race.turns (Race.rivals PushDelta) Race.oneSeat)))
   = [(["P2"; "P3"], 1)] /\
   ~ capacityOk (snd (interleave Race.turns (Race.rivals PushDelta) Race.oneSeat))) /\
  (List.map succeeded
     (joinAnswers (fst (interleave Race.turns (Race.rivals WholeDocument) Race.oneSeat)))
   = [true; true] /\
   List.map (fun r => (rosterIds r, BreakoutRoom.maxParticipants r))
     (rooms (snd (interleave Race.turns (Race.rivals WholeDocument) Race.oneSeat)))
   = [(["P3"], 1)]) /\
  (forall P,
     List.map succeeded
       (joinAnswers (fst (interleave Race.inOrder (Race.rivals P) Race.oneSeat)))
     = [true; false] /\
     List.map (fun r => (rosterIds r, BreakoutRoom.maxParticipants r))
       (rooms (snd (interleave Race.inOrder (Race.rivals P) Race.oneSeat)))
     = [(["P2"], 1)]).
Proof.
  split; [|split; [split; [|split]|split; [split|intros []; split]]];
    try (vm_compute; reflexivity).
  - repeat constructor. vm_compute. discriminate.
  - intros H. apply Forall_inv in H. vm_compute in H. apply H. reflexivity.
Qed.

(** C2. Handlers that run one after the other, each to its answer before
    the next begins, keep every roster within its room's capacity: if every
    room holds at most [maxParticipants] entries, so it is after any
    sequence of requests that stores no room of negative capacity, in
    particular after any sequence of joins and auto-assigns, and in every
    world reached that way from one without rooms.
    A join aimed at a room whose roster has reached [maxParticipants] is
    refused and changes nothing, with [CapacityExceeded] when the actor is
    a participant of the room's session. Auto-assign never changes a
    capacity, and a roster it made longer ends within the capacity.
    The handlers of such a sequence are those of the source: a join handler
    resumed at each of its [await]s with no other handler in between
    answers and stores what [joinRoom] does. Nothing keeps two handlers
    apart, though: the lemma above has two joins that overlap. *)
Theorem roster_within_capacity E :
  (forall qs w,
     Forall capacitySafe qs -> capacityOk w -> capacityOk (run E qs w)) /\
  (forall qs w,
     Forall capacitySafe qs -> rooms w = [] -> capacityOk (run E qs w)) /\
  (forall user sid rid w ri r,
     findOne (roomNamed rid) (rooms w) = Some (ri, r) ->
     BreakoutRoom.maxParticipants r <= Z.of_nat (length (roster r)) ->
     isSuccess (fst (joinRoom E user sid rid w)) = false /\
     snd (joinRoom E user sid rid w) = w /\
     forall si s p,
       findOne (sessionNamed sid) (sessions w) = Some (si, s) ->
       List.find (hasId user) (Session.participants s) = Some p ->
       BreakoutRoom.sessionId r = sid ->
       errorKind (fst (joinRoom E user sid rid w)) = Some CapacityExceeded) /\
  (forall user sid w i r r',
     rooms w !! i = Some r ->
     rooms (snd (autoAssign E user sid w)) !! i = Some r' ->
     BreakoutRoom.maxParticipants r' = BreakoutRoom.maxParticipants r /\
     ((length (roster r) < length (roster r'))%nat ->
      Z.of_nat (length (roster r')) <= BreakoutRoom.maxParticipants r)) /\
  (forall P user sid rid w,
     joinAnswers (fst (interleave [0; 0; 0; 0; 0]%nat [joinTask E P user sid rid] w))
       = [Some (fst (joinRoom E user sid rid w))] /\
     snd (interleave [0; 0; 0; 0; 0]%nat [joinTask E P user sid rid] w)
       = snd (joinRoom E user sid rid w)).
Proof.
  split; [|split; [|split; [|split]]].
  - intros qs w. apply run_capacityOk.
  - intros qs w Hqs Hw. apply run_capacityOk; [exact Hqs|].
    unfold capacityOk. rewrite Hw. constructor.
  - intros user sid rid w ri r Hr Hfull.
    destruct (joinRoom_full_inert E user sid rid w ri r Hr Hfull) as [H1 H2].
    split; [exact H1|]. split; [exact H2|].
    intros si s p Hs Hp Hsid.
    rewrite (joinRoom_full E user sid rid w si s p ri r Hs Hp Hr Hsid Hfull).
    reflexivity.
  - intros user sid w i r r' Hr Hr'.
    destruct (evolves_grows_within E (fun _ => True) _ _
                (autoAssign_evolves E _ user sid w) i r r' Hr Hr') as [Hmax Hlen].
    split; [exact Hmax|]. intros Hgrew. destruct Hlen as [Hlen|Hlen]; [lia | exact Hlen].
  - intros P user sid rid w. apply joinTask_uninterrupted.
Qed.

(** Two joins fill the first room, a third is refused, and auto-assign
    places the participants that are left where there is room. *)
Lemma roster_within_capacity_witness :
  capacityOk
    (run Sample.env
       [JoinRoom "P2" "s1" "R1"; JoinRoom "P3" "s1" "R1"; JoinRoom "P4" "s1" "R1";
        AutoAssign "P1" "s1"]
       Sample.twoRooms).
Proof.
  apply (proj1 (roster_within_capacity Sample.env)).
  - repeat constructor.
  - repeat constructor; vm_compute; discriminate.
Defined.

(** ** C10: roster entries start muted and connected *)

(** C10. Whatever the request, every entry of a roster after the handler
    ran either was in that room's roster before, or is a snapshot with
    [isMuted = true], [connectionStatus = connected] and a [joinedAt] read
    from the clock during this run, whatever the participant's own mute and
    connection state. Hence rosters whose entries are all muted and
    connected stay so along any sequence of requests, and so are all
    rosters reached from a world without rooms. *)
Theorem roster_entries_start_muted E :
  (forall q w i r' x,
     rooms (snd (handle E q w)) !! i = Some r' -> x ∈ roster r' ->
     (exists r, rooms w !! i = Some r /\ x ∈ roster r) \/
     (RoomParticipant.isMuted x = true /\
      RoomParticipant.connectionStatus x = connected /\
      exists k, (tick w <= k < tick (snd (handle E q w)))%nat /\
                RoomParticipant.joinedAt x = clock E k)) /\
  (forall qs w, rostersMuted w -> rostersMuted (run E qs w)) /\
  (forall qs w, rooms w = [] -> rostersMuted (run E qs w)).
Proof.
  split; [|split].
  - intros q w i r' x Hr' Hx.
    assert (Hev : evolves E (fun _ => True) w (snd (handle E q w)))
      by (apply handle_evolves; intros; exact I).
    destruct (evolves_entries E _ _ _ Hev i r' x Hr' Hx) as [Hold|[[Hm Hc] Hk]].
    + left. exact Hold.
    + right. auto.
  - intros qs w. apply run_rostersMuted.
  - intros qs w Hw. apply run_rostersMuted. unfold rostersMuted. rewrite Hw. constructor.
Qed.

Lemma roster_entries_start_muted_witness :
  rostersMuted (run Sample.env [JoinRoom "P2" "s1" "R1"; AutoAssign "P1" "s1"]
                  Sample.twoRooms).
Proof.
  apply (proj1 (proj2 (roster_entries_start_muted Sample.env))).
  repeat constructor.
Defined.

(** ** C4: auto-assignment *)

Lemma List_filter_sublist {A} (f : A -> bool) (l : list A) :
  List.filter f l `sublist_of` l.
Proof.
  induction l as [|x l IH]; simpl; [constructor|].
  destruct (f x); [apply sublist_skip | apply sublist_cons]; exact IH.
Qed.

Lemma unassignedParticipants_sublist s brs :
  unassignedParticipants s brs `sublist_of` Session.participants s.
Proof. apply List_filter_sublist. Qed.

Lemma unassignedParticipants_spec s brs p :
  p ∈ unassignedParticipants s brs <->
  p ∈ Session.participants s /\
  forall slot pos r, brs !! slot = Some (pos, r) -> Participant.id p ∉ rosterIds r.
Proof.
  unfold unassignedParticipants.
  rewrite list_elem_of_In, filter_In, <- list_elem_of_In, negb_true_iff.
  split; intros [Hin Hfree]; (split; [exact Hin|]).
  - intros slot pos r Hslot Hmem.
    apply existsb_hasRoomId in Hmem.
    assert (existsb
              (fun room => existsb (hasRoomId (Participant.id p))
                             (BreakoutRoom.participants (snd room))) brs = true) as Hex.
    { apply existsb_exists. exists (pos, r). split; [|exact Hmem].
      apply list_elem_of_In. eapply list_elem_of_lookup_2; eauto. }
    congruence.
  - apply not_true_is_false. intros Hex.
    apply existsb_exists in Hex as ([pos r] & Hin' & Hmem). simpl in Hmem.
    apply list_elem_of_In, list_elem_of_lookup_1 in Hin' as [slot Hslot].
    apply (Hfree slot pos r Hslot). apply existsb_hasRoomId. exact Hmem.
Qed.

(** A committed assignment sends the participant in position [i] of the
    iteration to slot [i mod N], and to no other. *)
Lemma roundRobin_target us : forall free k p slot,
  (p, slot) ∈ roundRobin free k us ->
  exists i, us !! i = Some p /\ slot = ((k + i) mod length free)%nat.
Proof.
  induction us as [|p0 rest IH]; intros free k p slot; simpl.
  - intros H. apply elem_of_nil in H. contradiction.
  - destruct (free !! (k mod length free)%nat) as [f|] eqn:Hf;
      [|intros H; apply elem_of_nil in H; contradiction].
    destruct (0 <? f).
    + rewrite elem_of_cons. intros [[= -> ->]|Hin].
      * exists 0%nat. rewrite Nat.add_0_r. split; reflexivity.
      * apply IH in Hin as (i & Hi & ->). rewrite length_insert.
        exists (S i). split; [exact Hi|]. f_equal. lia.
    + intros Hin. apply IH in Hin as (i & Hi & ->).
      exists (S i). split; [exact Hi|]. f_equal. lia.
Qed.

Lemma autoAssign_no_session E user sid w :
  findOne (sessionNamed sid) (sessions w) = None ->
  autoAssign E user sid w = (res_error "Session not found" 404, w).
Proof. intros Hs. unfold autoAssign. run_handler. rewrite Hs. reflexivity. Qed.

Lemma autoAssign_not_host E user sid w si s :
  findOne (sessionNamed sid) (sessions w) = Some (si, s) ->
  String.eqb (Session.hostId s) user = false ->
  autoAssign E user sid w
    = (res_error "Only the host can auto-assign participants" 403, w).
Proof.
  intros Hs Hhost. unfold autoAssign. run_handler.
  rewrite Hs. simpl. rewrite Hhost. reflexivity.
Qed.

Lemma autoAssign_no_rooms E user sid w si s :
  findOne (sessionNamed sid) (sessions w) = Some (si, s) ->
  Session.hostId s = user ->
  findAll (isActiveRoomOf sid) (rooms w) = [] ->
  autoAssign E user sid w = (res_error "No active breakout rooms found" 400, w).
Proof.
  intros Hs Hhost Hbrs. pose proof (sessionNamed_id _ _ _ _ Hs) as Hid.
  unfold autoAssign. run_handler.
  rewrite Hs. simpl. rewrite Hhost, String.eqb_refl, Hid. simpl.
  rewrite Hbrs. reflexivity.
Qed.

(** The answer and the membership auto-assign leaves depend on the sessions
    and rooms only: not on the clock, the id generator, the events
    published so far or the number of oracle reads. *)
Lemma autoAssign_snapshot E1 E2 user sid ss rs ev1 ev2 t1 t2 :
  fst (autoAssign E1 user sid (mkWorld ss rs ev1 t1))
    = fst (autoAssign E2 user sid (mkWorld ss rs ev2 t2)) /\
  List.map rosterIds (rooms (snd (autoAssign E1 user sid (mkWorld ss rs ev1 t1))))
    = List.map rosterIds (rooms (snd (autoAssign E2 user sid (mkWorld ss rs ev2 t2)))).
Proof.
  set (w1 := mkWorld ss rs ev1 t1). set (w2 := mkWorld ss rs ev2 t2).
  destruct (findOne (sessionNamed sid) ss) as [[si s]|] eqn:Hs.
  2:{ rewrite (autoAssign_no_session E1 user sid w1 Hs),
              (autoAssign_no_session E2 user sid w2 Hs). split; reflexivity. }
  destruct (String.eqb (Session.hostId s) user) eqn:Hhost.
  2:{ rewrite (autoAssign_not_host E1 user sid w1 si s Hs Hhost),
              (autoAssign_not_host E2 user sid w2 si s Hs Hhost). split; reflexivity. }
  apply String.eqb_eq in Hhost.
  destruct (findAll (isActiveRoomOf sid) rs) as [|b brs0] eqn:Hbrs.
  { rewrite (autoAssign_no_rooms E1 user sid w1 si s Hs Hhost Hbrs),
            (autoAssign_no_rooms E2 user sid w2 si s Hs Hhost Hbrs). split; reflexivity. }
  destruct (autoAssign_run E1 (fun _ => True) user sid w1 si s Hs Hhost)
    as (w1' & Hrun1 & _ & _ & Hout1 & Hin1);
    [simpl; rewrite Hbrs; discriminate|].
  destruct (autoAssign_run E2 (fun _ => True) user sid w2 si s Hs Hhost)
    as (w2' & Hrun2 & _ & _ & Hout2 & Hin2);
    [simpl; rewrite Hbrs; discriminate|].
  simpl in Hrun1, Hrun2, Hout1, Hout2, Hin1, Hin2.
  rewrite Hrun1, Hrun2. split; [reflexivity|]. simpl.
  change (rosterIds <$> rooms w1' = rosterIds <$> rooms w2').
  apply list_eq. intros pos. rewrite !list_lookup_fmap.
  destruct (decide (pos ∈ List.map fst (findAll (isActiveRoomOf sid) rs))) as [Hpos|Hpos].
  - change (pos ∈ fst <$> findAll (isActiveRoomOf sid) rs) in Hpos.
    apply list_elem_of_fmap in Hpos as ([pos' r] & -> & Hin). simpl.
    apply list_elem_of_lookup_1 in Hin as [slot Hslot].
    destruct (Hin1 slot pos' r Hslot) as (x1 & -> & Hx1).
    destruct (Hin2 slot pos' r Hslot) as (x2 & -> & Hx2).
    simpl. unfold rosterIds, roster. simpl.
    rewrite !map_app, Hx1, Hx2. reflexivity.
  - rewrite (Hout1 pos Hpos), (Hout2 pos Hpos). reflexivity.
Qed.

(** C4. Asked by the host of a session with at least one active room,
    auto-assign succeeds and does what [roundRobin] plans. The participants
    it iterates over are those of the session roster whose id is in no
    active room's roster, in session-roster order. The participant in
    position [i] of that iteration is aimed at active room [i mod N]
    whatever the rooms' fill: it is appended to that room's roster when the
    room has a free place at that moment and is otherwise left out, never
    sent to another room. Rooms that are not active rooms of the session
    are untouched. With roster [P1..P5] and two empty active rooms of
    capacity 2 the rosters become [P1, P3] and [P2, P4], and P5 is in
    neither. The answer and the resulting membership depend on the
    session and room snapshot only. *)
Theorem autoAssign_round_robin :
  (forall E user sid w si s,
     findOne (sessionNamed sid) (sessions w) = Some (si, s) ->
     Session.hostId s = user ->
     let brs := findAll (isActiveRoomOf sid) (rooms w) in
     let us := unassignedParticipants s brs in
     let plan := roundRobin (List.map (fun b => freePlaces (snd b)) brs) 0 us in
     brs <> [] ->
     us `sublist_of` Session.participants s /\
     (forall p, p ∈ us <->
                p ∈ Session.participants s /\
                forall slot pos r, brs !! slot = Some (pos, r) ->
                                   Participant.id p ∉ rosterIds r) /\
     (forall p slot, (p, slot) ∈ plan ->
                     exists i, us !! i = Some p /\ slot = (i mod length brs)%nat) /\
     isSuccess (fst (autoAssign E user sid w)) = true /\
     (forall slot pos r,
        brs !! slot = Some (pos, r) ->
        exists r', rooms (snd (autoAssign E user sid w)) !! pos = Some r' /\
                   rosterIds r' = (rosterIds r ++ assignedTo slot plan)%list) /\
     (forall pos, pos ∉ List.map fst brs ->
                  rooms (snd (autoAssign E user sid w)) !! pos = rooms w !! pos)) /\
  (forall free i p rest,
     roundRobin free i (p :: rest)
     = match free !! (i mod length free)%nat with
       | Some f =>
           if 0 <? f
           then (p, (i mod length free)%nat)
                  :: roundRobin (<[(i mod length free)%nat := f - 1]> free) (S i) rest
           else roundRobin free (S i) rest
       | None => []
       end) /\
  List.map rosterIds (rooms (snd (autoAssign Sample.env "P1" "s1" Sample.twoRooms)))
    = [["P1"; "P3"]; ["P2"; "P4"]] /\
  (forall E1 E2 user sid ss rs ev1 ev2 t1 t2,
     fst (autoAssign E1 user sid (mkWorld ss rs ev1 t1))
       = fst (autoAssign E2 user sid (mkWorld ss rs ev2 t2)) /\
     List.map rosterIds (rooms (snd (autoAssign E1 user sid (mkWorld ss rs ev1 t1))))
       = List.map rosterIds (rooms (snd (autoAssign E2 user sid (mkWorld ss rs ev2 t2))))).
Proof.
  split; [|split; [|split]].
  - intros E user sid w si s Hs Hhost brs us plan Hne.
    destruct (autoAssign_run E (fun _ => True) user sid w si s Hs Hhost Hne)
      as (w' & Hrun & _ & _ & Hout & Hin).
    fold brs in Hrun, Hout, Hin. fold us in Hrun, Hin. fold plan in Hin.
    split; [apply unassignedParticipants_sublist|].
    split; [intros p; apply unassignedParticipants_spec|].
    split.
    { intros p slot Hp. apply roundRobin_target in Hp as (i & Hi & ->).
      rewrite length_map. exists i. split; [exact Hi | reflexivity]. }
    rewrite Hrun. simpl.
    split; [destruct (length us =? 0)%nat; reflexivity|].
    split; [|exact Hout].
    intros slot pos r Hslot. destruct (Hin slot pos r Hslot) as (extra & Hr' & Hids).
    eexists. split; [exact Hr'|].
    unfold rosterIds, roster. simpl. rewrite map_app, Hids. reflexivity.
  - reflexivity.
  - vm_compute. reflexivity.
  - apply autoAssign_snapshot.
Qed.

Lemma autoAssign_round_robin_witness :
  exists r',
    rooms (snd (autoAssign Sample.env "P1" "s1" Sample.twoRooms)) !! 1%nat = Some r' /\
    rosterIds r' = ["P2"; "P4"].
Proof.
  destruct (proj1 autoAssign_round_robin Sample.env "P1" "s1" Sample.twoRooms
              0%nat Sample.session eq_refl eq_refl)
    as (_ & _ & _ & _ & Hin & _).
  - vm_compute. discriminate.
  - destruct (Hin 1%nat 1%nat (Sample.room "R2" 2 active []) eq_refl) as (r' & Hr' & Hids).
    exists r'. split; [exact Hr' | exact Hids].
Defined.

(** * Further properties of the handlers *)

(** ** Requests that are refused *)

Ltac inert := intros; try discriminate; repeat split; reflexivity.

Lemma createRoom_refused E user sid name maxp auto w :
  isSuccess (fst (createRoom E user sid name maxp auto w)) = false ->
  sessions (snd (createRoom E user sid name maxp auto w)) = sessions w /\
  rooms (snd (createRoom E user sid name maxp auto w)) = rooms w /\
  events (snd (createRoom E user sid name maxp auto w)) = events w.
Proof. unfold createRoom. run_handler. split_paths; inert. Qed.

Lemma joinRoom_refused E user sid rid w :
  isSuccess (fst (joinRoom E user sid rid w)) = false ->
  snd (joinRoom E user sid rid w) = w.
Proof. unfold joinRoom. run_handler. split_paths; inert. Qed.

Lemma leaveRoom_refused E user sid rid w :
  isSuccess (fst (leaveRoom E user sid rid w)) = false ->
  snd (leaveRoom E user sid rid w) = w.
Proof.
  unfold leaveRoom. run_handler. split_paths; try inert.
  match goal with
  | Hi : findIndex _ ?l = Some ?j, Hn : ?l !! ?j = None |- _ =>
      destruct (findIndex_Some _ _ _ Hi) as (? & Hx & _); congruence
  end.
Qed.

Lemma listRooms_readonly user sid w : snd (listRooms user sid w) = w.
Proof. unfold listRooms. run_handler. split_paths; reflexivity. Qed.

Lemma closeRoom_refused E user sid rid w :
  isSuccess (fst (closeRoom E user sid rid w)) = false ->
  snd (closeRoom E user sid rid w) = w.
Proof. unfold closeRoom. run_handler. split_paths; inert. Qed.

(** The four ways an auto-assign request can go. *)
Lemma autoAssign_cases E user sid w :
  autoAssign E user sid w = (res_error "Session not found" 404, w) \/
  autoAssign E user sid w
    = (res_error "Only the host can auto-assign participants" 403, w) \/
  autoAssign E user sid w = (res_error "No active breakout rooms found" 400, w) \/
  exists si s,
    findOne (sessionNamed sid) (sessions w) = Some (si, s) /\
    Session.hostId s = user /\
    findAll (isActiveRoomOf sid) (rooms w) <> [].
Proof.
  destruct (findOne (sessionNamed sid) (sessions w)) as [[si s]|] eqn:Hs.
  2:{ left. apply autoAssign_no_session, Hs. }
  destruct (String.eqb (Session.hostId s) user) eqn:Hhost.
  2:{ right. left. eapply autoAssign_not_host; eauto. }
  apply String.eqb_eq in Hhost.
  destruct (findAll (isActiveRoomOf sid) (rooms w)) eqn:Hbrs.
  { right. right. left. eapply autoAssign_no_rooms; eauto. }
  right. right. right. exists si, s.
  split; [reflexivity|]. split; [exact Hhost | discriminate].
Qed.

Lemma autoAssign_refused E user sid w :
  isSuccess (fst (autoAssign E user sid w)) = false ->
  snd (autoAssign E user sid w) = w.
Proof.
  destruct (autoAssign_cases E user sid w) as [H|[H|[H|(si & s & Hs & Hhost & Hne)]]];
    try (rewrite H; reflexivity).
  destruct (autoAssign_run E (fun _ => True) user sid w si s Hs Hhost Hne)
    as (w' & Hrun & _).
  rewrite Hrun. simpl. destruct (length _ =? 0)%nat; discriminate.
Qed.

Lemma refusal_not_success r : refusal r = true -> isSuccess r = false.
Proof. destruct r; [reflexivity | discriminate]. Qed.

Ltac known_status :=
  intros; try discriminate;
  match goal with
  | H : res_error _ _ = res_error _ _ |- _ => injection H as <- <-; tauto
  | H : _ = res_error _ _ |- _ => inversion H; subst; tauto
  end.

Lemma createRoom_status E user sid name maxp auto w msg code :
  fst (createRoom E user sid name maxp auto w) = res_error msg code ->
  code = 400 \/ code = 403 \/ code = 404 \/ code = 500.
Proof. unfold createRoom. run_handler. split_paths; known_status. Qed.

Lemma joinRoom_status E user sid rid w msg code :
  fst (joinRoom E user sid rid w) = res_error msg code ->
  code = 400 \/ code = 403 \/ code = 404 \/ code = 500.
Proof. unfold joinRoom. run_handler. split_paths; known_status. Qed.

Lemma leaveRoom_status E user sid rid w msg code :
  fst (leaveRoom E user sid rid w) = res_error msg code ->
  code = 400 \/ code = 403 \/ code = 404 \/ code = 500.
Proof. unfold leaveRoom. run_handler. split_paths; known_status. Qed.

Lemma listRooms_status user sid w msg code :
  fst (listRooms user sid w) = res_error msg code ->
  code = 400 \/ code = 403 \/ code = 404 \/ code = 500.
Proof. unfold listRooms. run_handler. split_paths; known_status. Qed.

Lemma closeRoom_status E user sid rid w msg code :
  fst (closeRoom E user sid rid w) = res_error msg code ->
  code = 400 \/ code = 403 \/ code = 404 \/ code = 500.
Proof. unfold closeRoom. run_handler. split_paths; known_status. Qed.

Lemma autoAssign_status E user sid w msg code :
  fst (autoAssign E user sid w) = res_error msg code ->
  code = 400 \/ code = 403 \/ code = 404 \/ code = 500.
Proof.
  destruct (autoAssign_cases E user sid w) as [H|[H|[H|(si & s & Hs & Hhost & Hne)]]];
    try (rewrite H; simpl; known_status).
  destruct (autoAssign_run E (fun _ => True) user sid w si s Hs Hhost Hne)
    as (w' & Hrun & _).
  rewrite Hrun. simpl. destruct (length _ =? 0)%nat; discriminate.
Qed.

(** X1. A request that a handler turns down itself, with a status from 400
    to 499, has stored nothing and published nothing: the sessions, the
    rooms and the event log are those before the request. Every test that
    can refuse comes before the first save of its handler. The statuses of
    error answers are 400, 403, 404 and 500. An answer of 500 comes from the
    [catch] of a handler, which also catches what an awaited save or
    publication throws after an earlier save went through; nothing is said
    here about the store behind a 500. *)
Theorem refusal_changes_nothing E q w :
  (refusal (fst (handle E q w)) = true ->
   sessions (snd (handle E q w)) = sessions w /\
   rooms (snd (handle E q w)) = rooms w /\
   events (snd (handle E q w)) = events w) /\
  (forall msg code,
     fst (handle E q w) = res_error msg code ->
     code = 400 \/ code = 403 \/ code = 404 \/ code = 500).
Proof.
  split.
  - intros H. apply refusal_not_success in H. destruct q; simpl in *.
    + apply createRoom_refused, H.
    + rewrite (joinRoom_refused _ _ _ _ _ H). auto.
    + rewrite (leaveRoom_refused _ _ _ _ _ H). auto.
    + rewrite listRooms_readonly. auto.
    + rewrite (closeRoom_refused _ _ _ _ _ H). auto.
    + rewrite (autoAssign_refused _ _ _ _ H). auto.
  - intros msg code. destruct q; simpl.
    + apply createRoom_status.
    + apply joinRoom_status.
    + apply leaveRoom_status.
    + apply listRooms_status.
    + apply closeRoom_status.
    + apply autoAssign_status.
Qed.

Lemma refusal_changes_nothing_witness :
  sessions (snd (handle Sample.env (JoinRoom "P2" "s1" "R1") Sample.fullRoom))
    = sessions Sample.fullRoom /\
  rooms (snd (handle Sample.env (JoinRoom "P2" "s1" "R1") Sample.fullRoom))
    = rooms Sample.fullRoom /\
  events (snd (handle Sample.env (JoinRoom "P2" "s1" "R1") Sample.fullRoom))
    = events Sample.fullRoom.
Proof.
  apply (proj1 (refusal_changes_nothing Sample.env (JoinRoom "P2" "s1" "R1")
                  Sample.fullRoom)).
  reflexivity.
Defined.

(** ** What an accepted request went through *)

Ltac read_tests :=
  repeat match goal with
         | H : negb _ = false |- _ => apply negb_false_iff in H
         | H : String.eqb _ _ = true |- _ => apply String.eqb_eq in H
         | H : (_ <=? _) = false |- _ => apply Z.leb_gt in H
         end.

Lemma joinRoom_accepted E user sid rid w :
  isSuccess (fst (joinRoom E user sid rid w)) = true ->
  exists si s p ri r,
    findOne (sessionNamed sid) (sessions w) = Some (si, s) /\
    List.find (hasId user) (Session.participants s) = Some p /\
    findOne (roomNamed rid) (rooms w) = Some (ri, r) /\
    BreakoutRoom.sessionId r = sid /\
    Z.of_nat (length (roster r)) < BreakoutRoom.maxParticipants r /\
    existsb (hasRoomId user) (roster r) = false.
Proof.
  unfold joinRoom. run_handler. split_paths; intros H; try discriminate.
  open_pairs. read_tests. do 5 eexists. unfold roster. repeat split; eauto.
Qed.

Lemma leaveRoom_accepted E user sid rid w :
  isSuccess (fst (leaveRoom E user sid rid w)) = true ->
  exists ri r j p,
    findOne (roomNamed rid) (rooms w) = Some (ri, r) /\
    findIndex (hasRoomId user) (roster r) = Some j /\
    roster r !! j = Some p.
Proof.
  unfold leaveRoom. run_handler. split_paths; intros H; try discriminate.
  open_pairs. do 4 eexists. unfold roster. repeat split; eauto.
Qed.

Lemma closeRoom_accepted E user sid rid w :
  isSuccess (fst (closeRoom E user sid rid w)) = true ->
  exists si s ri r,
    findOne (sessionNamed sid) (sessions w) = Some (si, s) /\
    Session.hostId s = user /\
    findOne (roomNamed rid) (rooms w) = Some (ri, r).
Proof.
  unfold closeRoom. run_handler. split_paths; intros H; try discriminate.
  open_pairs. read_tests. do 4 eexists. repeat split; eauto.
Qed.

(** ** The listing *)

Lemma findAllFrom_snd {A} (f : A -> bool) k l :
  List.map snd (findAllFrom f k l) = List.filter f l.
Proof.
  revert k. induction l as [|x l IH]; intros k; simpl; [reflexivity|].
  destruct (f x); simpl; rewrite IH; reflexivity.
Qed.

Lemma insertByCreatedAt_perm x l : insertByCreatedAt x l ≡ₚ x :: l.
Proof.
  induction l as [|y l IH]; simpl; [reflexivity|].
  destruct (_ <=? _); [reflexivity|].
  rewrite IH. apply Permutation_swap.
Qed.

Lemma sortByCreatedAt_perm l : sortByCreatedAt l ≡ₚ l.
Proof.
  induction l as [|x l IH]; simpl; [reflexivity|].
  rewrite insertByCreatedAt_perm, IH. reflexivity.
Qed.

Lemma insertByCreatedAt_sorted x l :
  Sorted (fun a b => createdNoLater (snd a) (snd b)) l ->
  Sorted (fun a b => createdNoLater (snd a) (snd b)) (insertByCreatedAt x l).
Proof.
  induction l as [|y l IH]; simpl; intros Hl.
  - repeat constructor.
  - destruct (Z.leb_spec (BreakoutRoom.createdAt (snd x))
                (BreakoutRoom.createdAt (snd y))) as [Hle|Hgt].
    + constructor; [exact Hl|]. constructor. exact Hle.
    + inversion Hl as [|? ? Hl' Hhd]; subst.
      constructor; [apply IH, Hl'|].
      destruct l as [|z l]; simpl.
      * constructor. unfold createdNoLater. lia.
      * destruct (_ <=? _); constructor.
        -- unfold createdNoLater. lia.
        -- inversion Hhd; subst. assumption.
Qed.

Lemma sortByCreatedAt_sorted l :
  Sorted (fun a b => createdNoLater (snd a) (snd b)) (sortByCreatedAt l).
Proof.
  induction l as [|x l IH]; simpl; [constructor|].
  apply insertByCreatedAt_sorted, IH.
Qed.

Lemma listRooms_success user sid w si s p :
  findOne (sessionNamed sid) (sessions w) = Some (si, s) ->
  List.find (hasId user) (Session.participants s) = Some p ->
  let listed :=
    List.map snd (sortByCreatedAt (findAll (isActiveRoomOf sid) (rooms w))) in
  listRooms user sid w
    = (res_success (RoomsD (List.map (summarize user) listed) (length listed))
         "Breakout rooms retrieved successfully", w).
Proof.
  intros Hs Hp listed. pose proof (sessionNamed_id _ _ _ _ Hs) as Hid.
  unfold listRooms. run_handler. rewrite Hs. simpl. rewrite Hp. simpl.
  rewrite Hid, length_map. reflexivity.
Qed.

(** X2. Asked by a participant of an existing session, the listing
    succeeds, changes nothing, and returns one summary for each room of the
    session whose status is active and for no other room, ordered by
    creation time, oldest first, with [totalRooms] their number. *)
Theorem listRooms_exact user sid w si s p :
  findOne (sessionNamed sid) (sessions w) = Some (si, s) ->
  List.find (hasId user) (Session.participants s) = Some p ->
  exists listed,
    listRooms user sid w
      = (res_success (RoomsD (List.map (summarize user) listed) (length listed))
           "Breakout rooms retrieved successfully", w) /\
    listed ≡ₚ List.filter (isActiveRoomOf sid) (rooms w) /\
    StronglySorted createdNoLater listed.
Proof.
  intros Hs Hp. eexists. split; [apply (listRooms_success user sid w si s p Hs Hp)|].
  split.
  - rewrite <- (findAllFrom_snd (isActiveRoomOf sid) 0 (rooms w)).
    change (snd <$> sortByCreatedAt (findAll (isActiveRoomOf sid) (rooms w))
            ≡ₚ snd <$> findAllFrom (isActiveRoomOf sid) 0 (rooms w)).
    apply fmap_Permutation, sortByCreatedAt_perm.
  - apply Sorted_StronglySorted.
    + intros a b c. unfold createdNoLater. lia.
    + pose proof (sortByCreatedAt_sorted (findAll (isActiveRoomOf sid) (rooms w))) as H.
      induction H as [|x l Hl IH Hhd]; simpl; constructor; [exact IH|].
      destruct Hhd; simpl; constructor. assumption.
Qed.

Lemma listRooms_exact_witness :
  exists listed,
    listRooms "P2" "s1" Sample.twoRooms
      = (res_success (RoomsD (List.map (summarize "P2") listed) (length listed))
           "Breakout rooms retrieved successfully", Sample.twoRooms) /\
    listed ≡ₚ List.filter (isActiveRoomOf "s1") (rooms Sample.twoRooms) /\
    StronglySorted createdNoLater listed.
Proof.
  apply (listRooms_exact "P2" "s1" Sample.twoRooms 0%nat Sample.session
           (Sample.person "P2" false true)); reflexivity.
Defined.

(** ** What a create request does *)

Lemma createRoom_effect E user sid name maxp auto w :
  (isSuccess (fst (createRoom E user sid name maxp auto w)) = false /\
   sessions (snd (createRoom E user sid name maxp auto w)) = sessions w /\
   rooms (snd (createRoom E user sid name maxp auto w)) = rooms w /\
   events (snd (createRoom E user sid name maxp auto w)) = events w) \/
  exists si s n r,
    isSuccess (fst (createRoom E user sid name maxp auto w)) = true /\
    findOne (sessionNamed sid) (sessions w) = Some (si, s) /\
    name = Some n /\ (2 <= String.length (trim n))%nat /\
    rooms (snd (createRoom E user sid name maxp auto w)) = (rooms w ++ [r])%list /\
    BreakoutRoom.sessionId r = Session.id s /\
    BreakoutRoom.name r = trim n /\
    BreakoutRoom.createdBy r = user /\
    BreakoutRoom.status r = active /\
    roster r = [] /\
    sessions (snd (createRoom E user sid name maxp auto w))
      = <[si := Session.mk (Session.id s) (Session.hostId s) (Session.hostAlias s)
                  (Session.participants s)
                  (push (length (rooms w)) (Session.breakoutRooms s))]> (sessions w) /\
    headlines (events (snd (createRoom E user sid name maxp auto w)))
      = (headlines (events w)
         ++ [(("session:" ++ sid)%string, "breakout_room_created")])%list.
Proof.
  unfold createRoom. run_handler.
  split_paths;
    first [ left; repeat split; reflexivity
          | right; open_pairs;
            match goal with
            | H : (_ || (_ <? _)%nat) = false |- _ =>
                apply orb_false_iff in H as [_ H]; apply Nat.ltb_ge in H
            end;
            do 4 eexists;
            split; [reflexivity|]; split; [reflexivity|]; split; [reflexivity|];
            split; [eassumption|];
            split; [reflexivity|]; split; [reflexivity|]; split; [reflexivity|];
            split; [reflexivity|]; split; [reflexivity|]; split; [reflexivity|];
            split; [reflexivity|];
            unfold headlines; rewrite map_app; reflexivity ].
Qed.

(** ** Rooms keep their identity *)

Lemma sameRoom_refl r : sameRoom r r.
Proof. unfold sameRoom. repeat split; reflexivity. Qed.

Lemma sameRoom_trans r1 r2 r3 : sameRoom r1 r2 -> sameRoom r2 r3 -> sameRoom r1 r3.
Proof. unfold sameRoom. intuition congruence. Qed.

Lemma evolves_identity E New w w' :
  evolves E New w w' ->
  forall i r, rooms w !! i = Some r ->
    exists r', rooms w' !! i = Some r' /\ sameRoom r r' /\
               (BreakoutRoom.status r = closed -> BreakoutRoom.status r' = closed).
Proof.
  induction 1 as [w w' Hrs _|w w' r0 Hrs _ _ _|w w' j r0 id p k Hj Hcap _ Hrs
                  |w w' j r0 n Hj Hrs _|w w' j r0 t Hj Hrs _|w1 w2 w3 H12 IH12 H23 IH23];
    intros i r Hr.
  - exists r. rewrite Hrs. auto using sameRoom_refl.
  - exists r. rewrite Hrs, lookup_app_l by (eapply lookup_lt_Some; eauto).
    auto using sameRoom_refl.
  - rewrite Hrs. destruct (decide (j = i)) as [->|Hne].
    + rewrite list_lookup_insert_eq by (eapply lookup_lt_Some; eauto).
      rewrite Hj in Hr. injection Hr as <-. eexists. split; [reflexivity|].
      split; [unfold sameRoom; simpl; tauto | simpl; auto].
    + rewrite list_lookup_insert_ne by congruence. exists r. auto using sameRoom_refl.
  - rewrite Hrs. destruct (decide (j = i)) as [->|Hne].
    + rewrite list_lookup_insert_eq by (eapply lookup_lt_Some; eauto).
      rewrite Hj in Hr. injection Hr as <-. eexists. split; [reflexivity|].
      split; [unfold sameRoom; simpl; tauto | simpl; auto].
    + rewrite list_lookup_insert_ne by congruence. exists r. auto using sameRoom_refl.
  - rewrite Hrs. destruct (decide (j = i)) as [->|Hne].
    + rewrite list_lookup_insert_eq by (eapply lookup_lt_Some; eauto).
      rewrite Hj in Hr. injection Hr as <-. eexists. split; [reflexivity|].
      split; [unfold sameRoom; simpl; tauto | simpl; auto].
    + rewrite list_lookup_insert_ne by congruence. exists r. auto using sameRoom_refl.
  - destruct (IH12 _ _ Hr) as (r2 & Hr2 & Hsame12 & Hst12).
    destruct (IH23 _ _ Hr2) as (r3 & Hr3 & Hsame23 & Hst23).
    exists r3. split; [exact Hr3|]. split; [eapply sameRoom_trans; eauto | auto].
Qed.

(** X3. Along any sequence of requests a stored room stays at its position
    and keeps its id, session, name, creator, capacity, channel, token,
    creation and expiry times; only its roster, status and [closedAt] can
    change, and a room that is closed stays closed: no request deletes or
    reopens a room. *)
Theorem rooms_keep_identity E qs w i r :
  rooms w !! i = Some r ->
  exists r', rooms (run E qs w) !! i = Some r' /\ sameRoom r r' /\
             (BreakoutRoom.status r = closed -> BreakoutRoom.status r' = closed).
Proof.
  revert w r. induction qs as [|q qs IH]; intros w r Hr; simpl.
  - exists r. auto using sameRoom_refl.
  - assert (Hev : evolves E (fun _ => True) w (snd (handle E q w)))
      by (apply handle_evolves; intros; exact I).
    destruct (evolves_identity _ _ _ _ Hev i r Hr) as (r1 & Hr1 & Hsame1 & Hst1).
    destruct (IH _ _ Hr1) as (r' & Hr' & Hsame' & Hst').
    exists r'. split; [exact Hr'|]. split; [eapply sameRoom_trans; eauto | auto].
Qed.

Lemma rooms_keep_identity_witness :
  exists r',
    rooms (run Sample.env
             [JoinRoom "P2" "s1" "R1"; CloseRoom "P1" "s1" "R1"; AutoAssign "P1" "s1";
              CreateRoom "P1" "s1" (Some "Team A") None None]
             Sample.closedRoom) !! 0%nat = Some r' /\
    sameRoom (Sample.room "R1" 2 closed []) r' /\
    (BreakoutRoom.status (Sample.room "R1" 2 closed []) = closed ->
     BreakoutRoom.status r' = closed).
Proof.
  apply (rooms_keep_identity Sample.env _ Sample.closedRoom 0%nat). reflexivity.
Defined.

(** ** Sessions keep their roster *)

Lemma sameSession_refl s : sameSession s s.
Proof. unfold sameSession. repeat split; reflexivity. Qed.

Lemma sameSession_trans s1 s2 s3 :
  sameSession s1 s2 -> sameSession s2 s3 -> sameSession s1 s3.
Proof.
  unfold sameSession. intros (?&?&?&?&H12) (?&?&?&?&H23).
  repeat split; try congruence. etrans; eauto.
Qed.

Lemma handle_sessions E q w :
  sessions (snd (handle E q w)) = sessions w \/
  exists si s,
    sessions w !! si = Some s /\
    sessions (snd (handle E q w))
      = <[si := Session.mk (Session.id s) (Session.hostId s) (Session.hostAlias s)
                  (Session.participants s)
                  (push (length (rooms w)) (Session.breakoutRooms s))]> (sessions w).
Proof.
  destruct q; simpl.
  - destruct (createRoom_effect E user sessionId name maxParticipants autoAssign0 w)
      as [(_ & Hs & _)|(si & s & n & r & _ & Hfound & _ & _ & _ & _ & _ & _ & _ & _ & Hs & _)].
    + left. exact Hs.
    + right. exists si, s. split; [|exact Hs].
      apply findOne_Some in Hfound. tauto.
  - left. unfold joinRoom. run_handler. split_paths; reflexivity.
  - left. apply leaveRoom_sessions.
  - left. rewrite listRooms_readonly. reflexivity.
  - left. unfold closeRoom. run_handler. split_paths; reflexivity.
  - left.
    destruct (autoAssign_cases E user sessionId w)
      as [H|[H|[H|(si & s & Hs & Hhost & Hne)]]]; try (rewrite H; reflexivity).
    destruct (autoAssign_run E (fun _ => True) user sessionId w si s Hs Hhost Hne)
      as (w' & Hrun & Hsess & _).
    rewrite Hrun. exact Hsess.
Qed.

Lemma handle_sameSession E q w i s :
  sessions w !! i = Some s ->
  exists s', sessions (snd (handle E q w)) !! i = Some s' /\ sameSession s s'.
Proof.
  intros Hs. destruct (handle_sessions E q w) as [->|(si & s0 & Hs0 & ->)].
  - exists s. auto using sameSession_refl.
  - destruct (decide (si = i)) as [->|Hne].
    + rewrite list_lookup_insert_eq by (eapply lookup_lt_Some; eauto).
      rewrite Hs in Hs0. injection Hs0 as <-. eexists. split; [reflexivity|].
      unfold sameSession, push. simpl. repeat split. apply prefix_app_r. reflexivity.
    + rewrite list_lookup_insert_ne by congruence.
      exists s. auto using sameSession_refl.
Qed.

(** X4. Along any sequence of requests a session stays at its position and
    keeps its id, host and participant roster; the list of rooms it refers
    to only grows at the end. Breakout requests never add anyone to, or
    remove anyone from, a main session. *)
Theorem sessions_keep_roster E qs w i s :
  sessions w !! i = Some s ->
  exists s', sessions (run E qs w) !! i = Some s' /\ sameSession s s'.
Proof.
  revert w s. induction qs as [|q qs IH]; intros w s Hs; simpl.
  - exists s. auto using sameSession_refl.
  - destruct (handle_sameSession E q w i s Hs) as (s1 & Hs1 & Hsame1).
    destruct (IH _ _ Hs1) as (s' & Hs' & Hsame').
    exists s'. split; [exact Hs' | eapply sameSession_trans; eauto].
Qed.

Lemma sessions_keep_roster_witness :
  exists s',
    sessions (run Sample.env
                [CreateRoom "P1" "s1" (Some "Team A") None None;
                 JoinRoom "P2" "s1" "R1"; LeaveRoom "P2" "s1" "R1"]
                Sample.twoRooms) !! 0%nat = Some s' /\
    sameSession Sample.session s'.
Proof.
  apply (sessions_keep_roster Sample.env _ Sample.twoRooms 0%nat). reflexivity.
Defined.

(** ** Who may do what *)

(** X5. Closing a room and auto-assigning are reserved to the session's
    host: asked by anyone else, a moderator included, either is refused
    with 403 and changes nothing. Creating a room is reserved to session
    participants that are host or moderator: a user who is not in the
    session roster, or is in it as neither, is refused with 403 and nothing
    changes. *)
Theorem privileged_operations E user sid w si s :
  findOne (sessionNamed sid) (sessions w) = Some (si, s) ->
  (Session.hostId s <> user ->
   (forall rid,
      closeRoom E user sid rid w
        = (res_error "Only the host can delete breakout rooms" 403, w)) /\
   autoAssign E user sid w
     = (res_error "Only the host can auto-assign participants" 403, w)) /\
  (match List.find (hasId user) (Session.participants s) with
   | Some p => Participant.isHost p = false /\ Participant.isModerator p = false
   | None => True
   end ->
   forall name maxp auto,
     createRoom E user sid name maxp auto w
       = (res_error "Only hosts and moderators can create breakout rooms" 403, w)).
Proof.
  intros Hs. split.
  - intros Hhost. apply String.eqb_neq in Hhost. split.
    + intros rid. unfold closeRoom. run_handler.
      rewrite Hs. simpl. rewrite Hhost. reflexivity.
    + eapply autoAssign_not_host; eauto.
  - intros Hp name maxp auto. unfold createRoom. run_handler.
    rewrite Hs. simpl.
    destruct (List.find (hasId user) (Session.participants s)) as [p|]; simpl;
      [|reflexivity].
    destruct Hp as [-> ->]. reflexivity.
Qed.

Lemma privileged_operations_witness :
  closeRoom Sample.env "P2" "s1" "R1" Sample.twoRooms
    = (res_error "Only the host can delete breakout rooms" 403, Sample.twoRooms) /\
  createRoom Sample.env "P2" "s1" (Some "Team A") None None Sample.twoRooms
    = (res_error "Only hosts and moderators can create breakout rooms" 403,
       Sample.twoRooms).
Proof.
  destruct (privileged_operations Sample.env "P2" "s1" Sample.twoRooms 0%nat
              Sample.session eq_refl) as [Hhost Hcreate].
  split.
  - apply Hhost. vm_compute. discriminate.
  - apply Hcreate. vm_compute. split; reflexivity.
Defined.

(** ** Why a join is refused *)

(** X6. For a participant of an existing session the join handler refuses,
    leaving the world as it was, in this order: 404 when no room has the
    id; 400 when the room belongs to another session; [CapacityExceeded]
    when the roster has reached the capacity, also for someone who is
    already in it; [AlreadyMember] when there is a free place and the actor
    is in the roster. A user who is not in the session roster is refused
    with 403 whatever the room. *)
Theorem joinRoom_refusals E user sid rid w si s :
  findOne (sessionNamed sid) (sessions w) = Some (si, s) ->
  (List.find (hasId user) (Session.participants s) = None ->
   joinRoom E user sid rid w
     = (res_error "Must be a participant in the main session" 403, w)) /\
  (forall p,
     List.find (hasId user) (Session.participants s) = Some p ->
     match findOne (roomNamed rid) (rooms w) with
     | None =>
         joinRoom E user sid rid w = (res_error "Breakout room not found" 404, w)
     | Some (ri, r) =>
         if negb (String.eqb (BreakoutRoom.sessionId r) sid) then
           joinRoom E user sid rid w
             = (res_error "Breakout room does not belong to this session" 400, w)
         else if BreakoutRoom.maxParticipants r <=? Z.of_nat (length (roster r)) then
           joinRoom E user sid rid w = (res_error "Breakout room is full" 400, w)
         else
           user ∈ rosterIds r ->
           joinRoom E user sid rid w = (res_error "Already in breakout room" 400, w) /\
           errorKind (fst (joinRoom E user sid rid w)) = Some AlreadyMember
     end).
Proof.
  intros Hs. split.
  - intros Hp. unfold joinRoom. run_handler. rewrite Hs. simpl. rewrite Hp. reflexivity.
  - intros p Hp. unfold joinRoom, roster. run_handler.
    rewrite Hs. simpl. rewrite Hp. simpl.
    destruct (findOne (roomNamed rid) (rooms w)) as [[ri r]|]; simpl; [|reflexivity].
    destruct (negb (String.eqb (BreakoutRoom.sessionId r) sid)); simpl; [reflexivity|].
    destruct (_ <=? _); simpl; [reflexivity|].
    intros Hin. apply existsb_hasRoomId in Hin. unfold roster in Hin.
    rewrite Hin. simpl. auto.
Qed.

Lemma joinRoom_refusals_witness :
  joinRoom Sample.env "P3" "s1" "R1" Sample.fullRoom
    = (res_error "Breakout room is full" 400, Sample.fullRoom).
Proof.
  exact (proj2 (joinRoom_refusals Sample.env "P3" "s1" "R1" Sample.fullRoom
                  0%nat Sample.session eq_refl)
           (Sample.person "P3" false false) eq_refl).
Defined.

(** ** No participant twice in a roster *)

Lemma sublist_map {A B} (f : A -> B) (l k : list A) :
  l `sublist_of` k -> List.map f l `sublist_of` List.map f k.
Proof. induction 1; simpl; constructor; assumption. Qed.

Lemma splice1_sublist {A} (j : nat) (l : list A) : splice1 j l `sublist_of` l.
Proof.
  revert j. induction l as [|x l IH]; intros j.
  - destruct j; constructor.
  - destruct j as [|j]; simpl.
    + apply sublist_cons. reflexivity.
    + apply sublist_skip. apply IH.
Qed.

Lemma roundRobin_sublist us : forall free k,
  List.map fst (roundRobin free k us) `sublist_of` us.
Proof.
  induction us as [|p rest IH]; intros free k; simpl; [constructor|].
  destruct (free !! (k mod length free)%nat) as [f|]; [|apply sublist_nil_l].
  destruct (0 <? f); simpl.
  - apply sublist_skip, IH.
  - apply sublist_cons, IH.
Qed.

Lemma assignedTo_sublist slot free k us :
  assignedTo slot (roundRobin free k us) `sublist_of` List.map Participant.id us.
Proof.
  unfold assignedTo. rewrite <- (map_map fst Participant.id).
  apply sublist_map. etrans; [|apply roundRobin_sublist].
  apply sublist_map, List_filter_sublist.
Qed.

Lemma assignedTo_elem_of slot plan x :
  x ∈ assignedTo slot plan -> exists p, (p, slot) ∈ plan /\ x = Participant.id p.
Proof.
  unfold assignedTo. intros Hx.
  change (x ∈ (fun a => Participant.id (fst a)) <$>
                List.filter (fun a => Nat.eqb (snd a) slot) plan) in Hx.
  apply list_elem_of_fmap in Hx as ([p slot'] & -> & Hin).
  apply list_elem_of_In, filter_In in Hin as [Hin Hslot]. simpl in *.
  apply Nat.eqb_eq in Hslot. subst slot'.
  exists p. split; [apply list_elem_of_In, Hin | reflexivity].
Qed.

Lemma handle_sessionsDistinct E q w :
  sessionsDistinct w -> sessionsDistinct (snd (handle E q w)).
Proof.
  unfold sessionsDistinct. intros Hw.
  destruct (handle_sessions E q w) as [->|(si & s & Hs & ->)]; [exact Hw|].
  apply Forall_insert; [exact Hw|]. simpl.
  rewrite Forall_lookup in Hw. exact (Hw _ _ Hs).
Qed.

Lemma autoAssign_rostersDistinct E user sid w :
  sessionsDistinct w -> rostersDistinct w ->
  rostersDistinct (snd (autoAssign E user sid w)).
Proof.
  intros Hss Hrs.
  destruct (autoAssign_cases E user sid w)
    as [H|[H|[H|(si & s & Hs & Hhost & Hne)]]]; try (rewrite H; exact Hrs).
  destruct (autoAssign_run E (fun _ => True) user sid w si s Hs Hhost Hne)
    as (w' & Hrun & _ & _ & Hout & Hin).
  rewrite Hrun. simpl.
  set (brs := findAll (isActiveRoomOf sid) (rooms w)) in *.
  set (us := unassignedParticipants s brs) in *.
  assert (Hus : NoDup (List.map Participant.id us)).
  { apply findOne_Some in Hs as (_ & Hs & _).
    unfold sessionsDistinct in Hss. rewrite Forall_lookup in Hss.
    eapply sublist_NoDup; [exact (Hss _ _ Hs)|].
    apply sublist_map, unassignedParticipants_sublist. }
  unfold rostersDistinct in *. rewrite Forall_lookup in Hrs |- *.
  intros pos r' Hr'.
  destruct (decide (pos ∈ List.map fst brs)) as [Hpos|Hpos].
  - change (pos ∈ fst <$> brs) in Hpos.
    apply list_elem_of_fmap in Hpos as ([pos' r] & -> & Hmem). simpl in *.
    apply list_elem_of_lookup_1 in Hmem as [slot Hslot].
    destruct (Hin slot pos' r Hslot) as (extra & Hr'' & Hids).
    rewrite Hr'' in Hr'. injection Hr' as <-.
    unfold rosterIds, roster. simpl. rewrite map_app, Hids.
    apply NoDup_app. split; [|split].
    + apply (Hrs pos' r).
      apply list_elem_of_lookup_2, findAll_spec in Hslot. tauto.
    + intros x Hx Hx'. apply assignedTo_elem_of in Hx' as (p & Hp & ->).
      apply roundRobin_target in Hp as (i & Hi & _).
      apply list_elem_of_lookup_2 in Hi.
      apply unassignedParticipants_spec in Hi as [_ Hfree].
      exact (Hfree slot pos' r Hslot Hx).
    + eapply sublist_NoDup; [exact Hus | apply assignedTo_sublist].
  - rewrite (Hout pos Hpos) in Hr'. exact (Hrs _ _ Hr').
Qed.

Lemma handle_rostersDistinct E q w :
  sessionsDistinct w -> rostersDistinct w -> rostersDistinct (snd (handle E q w)).
Proof.
  intros Hss Hrs. destruct q as [u s n m a|u s rid|u s rid|u s|u s rid|u s]; simpl.
  - destruct (createRoom_effect E u s n m a w)
      as [(_ & _ & Hsame & _)|(si & s0 & n0 & r & _ & _ & _ & _ & Hrooms & _ & _ & _ & _ & Hempty & _)];
      unfold rostersDistinct in *.
    + rewrite Hsame. exact Hrs.
    + rewrite Hrooms. apply Forall_app. split; [exact Hrs|].
      constructor; [|constructor]. unfold rosterIds. rewrite Hempty. constructor.
  - destruct (isSuccess (fst (joinRoom E u s rid w))) eqn:Hok.
    + apply joinRoom_accepted in Hok
        as (si & s0 & p & ri & r & Hs & Hp & Hr & Hsid & Hcap & Hnew).
      rewrite (joinRoom_success E u s rid w si s0 p ri r Hs Hp Hr Hsid Hcap Hnew).
      unfold rostersDistinct in *. simpl.
      apply Forall_insert; [exact Hrs|].
      apply findOne_Some in Hr as (_ & Hr & _).
      rewrite Forall_lookup in Hrs. specialize (Hrs _ _ Hr).
      unfold rosterIds, roster, push in *. simpl. rewrite map_app.
      apply NoDup_app. split; [exact Hrs|]. split; [|repeat constructor; apply not_elem_of_nil].
      intros x Hx Hx'. apply list_elem_of_singleton in Hx'. simpl in Hx'. subst x.
      apply existsb_hasRoomId_false in Hnew. exact (Hnew Hx).
    + rewrite (joinRoom_refused _ _ _ _ _ Hok). exact Hrs.
  - destruct (isSuccess (fst (leaveRoom E u s rid w))) eqn:Hok.
    + apply leaveRoom_accepted in Hok as (ri & r & j & p & Hr & Hj & Hp).
      rewrite (leaveRoom_success E u s rid w ri r j p Hr Hj Hp).
      unfold rostersDistinct in *. simpl.
      apply Forall_insert; [exact Hrs|].
      apply findOne_Some in Hr as (_ & Hr & _).
      rewrite Forall_lookup in Hrs. specialize (Hrs _ _ Hr).
      eapply sublist_NoDup; [exact Hrs|].
      unfold rosterIds, roster. simpl. apply sublist_map, splice1_sublist.
    + rewrite (leaveRoom_refused _ _ _ _ _ Hok). exact Hrs.
  - rewrite listRooms_readonly. exact Hrs.
  - destruct (isSuccess (fst (closeRoom E u s rid w))) eqn:Hok.
    + apply closeRoom_accepted in Hok as (si & s0 & ri & r & Hs & Hhost & Hr).
      rewrite (closeRoom_success E u s rid w si s0 ri r Hs Hhost Hr).
      unfold rostersDistinct in *. simpl.
      apply Forall_insert; [exact Hrs|].
      apply findOne_Some in Hr as (_ & Hr & _).
      rewrite Forall_lookup in Hrs. exact (Hrs _ _ Hr).
    + rewrite (closeRoom_refused _ _ _ _ _ Hok). exact Hrs.
  - apply autoAssign_rostersDistinct; assumption.
Qed.

(** X7. Handled one after the other, each handler running to its answer
    before the next begins, requests keep rosters free of repeated ids:
    when no session lists a participant id twice, rosters without a
    repeated participant id stay so along any such sequence of requests. A
    join is refused for someone already in the roster, and auto-assign
    places only participants that are in no active room, each at most once.
    The order matters: when two joins of one user take turns at every
    [await], both read the roster without the user and both are answered
    with a success; a store that appends what was pushed then holds the id
    twice, one that writes the document as the handler holds it holds it
    once. *)
Theorem rosters_stay_distinct E :
  (forall qs w,
     sessionsDistinct w -> rostersDistinct w -> rostersDistinct (run E qs w)) /\
  (List.map succeeded
     (joinAnswers (fst (interleave Race.turns (Race.twice PushDelta) Race.twoSeats)))
   = [true; true] /\
   List.map rosterIds
     (rooms (snd (interleave Race.turns (Race.twice PushDelta) Race.twoSeats)))
   = [["P2"; "P2"]] /\
   List.map rosterIds
     (rooms (snd (interleave Race.turns (Race.twice WholeDocument) Race.twoSeats)))
   = [["P2"]]).
Proof.
  split; [|repeat split; vm_compute; reflexivity].
  intros qs. induction qs as [|q qs IH]; intros w Hss Hrs; simpl; [exact Hrs|].
  apply IH.
  - apply handle_sessionsDistinct, Hss.
  - apply handle_rostersDistinct; assumption.
Qed.

Lemma rosters_stay_distinct_witness :
  rostersDistinct
    (run Sample.env
       [JoinRoom "P2" "s1" "R1"; AutoAssign "P1" "s1"; JoinRoom "P2" "s1" "R1"]
       Sample.twoRooms).
Proof.
  apply (proj1 (rosters_stay_distinct Sample.env)).
  - repeat constructor; vm_compute; intros H;
      repeat (apply elem_of_cons in H as [H|H]; [discriminate|]);
      apply elem_of_nil in H; exact H.
  - repeat constructor.
Defined.

(** ** Whose membership a join or a leave changes *)


Lemma splice1_cons {A} (x : A) l j : splice1 (S j) (x :: l) = x :: splice1 j l.
Proof. reflexivity. Qed.

Lemma others_splice user (l : list RoomParticipant.t) j :
  findIndex (hasRoomId user) l = Some j ->
  others user (List.map RoomParticipant.id (splice1 j l))
  = others user (List.map RoomParticipant.id l).
Proof.
  revert j. induction l as [|x l IH]; intros j; [discriminate|].
  cbn [findIndex]. unfold hasRoomId at 1.
  destruct (String.eqb (RoomParticipant.id x) user) eqn:Hx.
  - intros [= <-]. cbn [List.map]. unfold others. cbn [List.filter].
    rewrite Hx. reflexivity.
  - destruct (findIndex (hasRoomId user) l) as [j'|] eqn:Hj; [|discriminate].
    intros [= <-]. rewrite splice1_cons. cbn [List.map]. unfold others.
    cbn [List.filter]. rewrite Hx. cbn [negb]. f_equal. apply (IH j' eq_refl).
Qed.

Lemma splice_removes user (l : list RoomParticipant.t) j :
  findIndex (hasRoomId user) l = Some j ->
  NoDup (List.map RoomParticipant.id l) ->
  user ∉ List.map RoomParticipant.id (splice1 j l).
Proof.
  revert j. induction l as [|x l IH]; intros j; [discriminate|].
  cbn [findIndex]. unfold hasRoomId at 1.
  destruct (String.eqb (RoomParticipant.id x) user) eqn:Hx.
  - intros [= <-] Hnd. apply String.eqb_eq in Hx. subst user.
    cbn [List.map] in Hnd. apply NoDup_cons in Hnd. tauto.
  - destruct (findIndex (hasRoomId user) l) as [j'|] eqn:Hj; [|discriminate].
    intros [= <-] Hnd. cbn [List.map] in Hnd. apply NoDup_cons in Hnd as [_ Hnd].
    rewrite splice1_cons. cbn [List.map]. rewrite not_elem_of_cons. split.
    + apply String.eqb_neq in Hx. congruence.
    + apply (IH j' eq_refl Hnd).
Qed.







(** ** Requests other than create *)

Lemma handle_evolves_closed E q w :
  isCreate q = false -> evolves E (fun _ => False) w (snd (handle E q w)).
Proof.
  intros Hq. apply handle_evolves. intros u s n m a r ->. discriminate.
Qed.

Lemma evolves_closed_rooms E w w' :
  evolves E (fun _ => False) w w' ->
  forall i r', rooms w' !! i = Some r' ->
    exists r, rooms w !! i = Some r /\ sameRoom r r'.
Proof.
  induction 1 as [w w' Hrs _|w w' r0 Hrs _ [] _|w w' j r0 id p k Hj Hcap _ Hrs
                  |w w' j r0 n Hj Hrs _|w w' j r0 t Hj Hrs _|w1 w2 w3 H12 IH12 H23 IH23];
    intros i r' Hr'.
  - rewrite Hrs in Hr'. eauto using sameRoom_refl.
  - rewrite Hrs in Hr'. destruct (decide (j = i)) as [->|Hne].
    + rewrite list_lookup_insert_eq in Hr' by (eapply lookup_lt_Some; eauto).
      injection Hr' as <-. exists r0. split; [exact Hj|].
      unfold sameRoom; simpl; tauto.
    + rewrite list_lookup_insert_ne in Hr' by congruence. eauto using sameRoom_refl.
  - rewrite Hrs in Hr'. destruct (decide (j = i)) as [->|Hne].
    + rewrite list_lookup_insert_eq in Hr' by (eapply lookup_lt_Some; eauto).
      injection Hr' as <-. exists r0. split; [exact Hj|].
      unfold sameRoom; simpl; tauto.
    + rewrite list_lookup_insert_ne in Hr' by congruence. eauto using sameRoom_refl.
  - rewrite Hrs in Hr'. destruct (decide (j = i)) as [->|Hne].
    + rewrite list_lookup_insert_eq in Hr' by (eapply lookup_lt_Some; eauto).
      injection Hr' as <-. exists r0. split; [exact Hj|].
      unfold sameRoom; simpl; tauto.
    + rewrite list_lookup_insert_ne in Hr' by congruence. eauto using sameRoom_refl.
  - destruct (IH23 _ _ Hr') as (r2 & Hr2 & Hsame2).
    destruct (IH12 _ _ Hr2) as (r1 & Hr1 & Hsame1).
    exists r1. split; [exact Hr1 | eapply sameRoom_trans; eauto].
Qed.

Lemma handle_sessions_other E q w :
  isCreate q = false -> sessions (snd (handle E q w)) = sessions w.
Proof.
  destruct q as [u s n m a|u s rid|u s rid|u s|u s rid|u s]; simpl; intros Hq;
    try discriminate.
  - unfold joinRoom. run_handler. split_paths; reflexivity.
  - apply leaveRoom_sessions.
  - rewrite listRooms_readonly. reflexivity.
  - unfold closeRoom. run_handler. split_paths; reflexivity.
  - destruct (autoAssign_cases E u s w)
      as [H|[H|[H|(si & s0 & Hs & Hhost & Hne)]]]; try (rewrite H; reflexivity).
    destruct (autoAssign_run E (fun _ => True) u s w si s0 Hs Hhost Hne)
      as (w' & Hrun & Hsess & _).
    rewrite Hrun. exact Hsess.
Qed.

(** ** Sessions refer to their own rooms *)

Lemma handle_linksValid E q w : linksValid w -> linksValid (snd (handle E q w)).
Proof.
  intros Hw. destruct (isCreate q) eqn:Hq.
  - destruct q as [u s n m a| | | | |]; try discriminate. simpl.
    destruct (createRoom_effect E u s n m a w)
      as [(_ & Hss & Hrs & _)
         |(si & s0 & n0 & r & _ & Hfound & _ & _ & Hrs & Hsid & _ & _ & _ & _ & Hss & _)];
      unfold linksValid in *; rewrite Hss, Hrs; [exact Hw|].
    apply findOne_Some in Hfound as (_ & Hs0 & _).
    assert (Hold : forall s1, s1 ∈ sessions w ->
              Forall (fun pos => exists r1, (rooms w ++ [r])%list !! pos = Some r1 /\
                                            BreakoutRoom.sessionId r1 = Session.id s1)
                (Session.breakoutRooms s1)).
    { intros s1 Hs1. rewrite Forall_forall in Hw. specialize (Hw _ Hs1).
      eapply Forall_impl; [exact Hw|]. intros pos (r1 & Hr1 & Hid1).
      exists r1. split; [|exact Hid1].
      rewrite lookup_app_l by (eapply lookup_lt_Some; eauto). exact Hr1. }
    apply Forall_insert.
    + rewrite Forall_forall. exact Hold.
    + simpl. unfold push. apply Forall_app. split.
      * apply Hold. eapply list_elem_of_lookup_2; eauto.
      * constructor; [|constructor]. exists r. split; [|exact Hsid].
        apply list_lookup_middle. reflexivity.
  - unfold linksValid in *. rewrite (handle_sessions_other E q w Hq).
    pose proof (handle_evolves E (fun _ => True) q w) as Hev.
    eapply Forall_impl; [exact Hw|]. intros s Hs. simpl in Hs.
    eapply Forall_impl; [exact Hs|]. intros pos (r & Hr & Hid). simpl.
    destruct (evolves_identity _ _ _ _ (Hev (fun _ _ _ _ _ _ _ _ _ => I)) pos r Hr)
      as (r' & Hr' & Hsame & _).
    exists r'. split; [exact Hr'|]. destruct Hsame as (_ & Hsid & _). congruence.
Qed.

(** X10. The positions a session lists in [breakoutRooms] stay valid: if
    each of them holds a room whose [sessionId] is that session's id, so it
    is after any sequence of requests. A create request stores the room and
    records its position in the session in one step, and no request moves,
    deletes or re-parents a room. *)
Theorem links_stay_valid E qs w : linksValid w -> linksValid (run E qs w).
Proof.
  revert w. induction qs as [|q qs IH]; intros w Hw; simpl; [exact Hw|].
  apply IH, handle_linksValid, Hw.
Qed.

Lemma links_stay_valid_witness :
  linksValid
    (run Sample.env
       [CreateRoom "P1" "s1" (Some "Team A") None None; CloseRoom "P1" "s1" "R1"]
       Sample.twoRooms).
Proof.
  apply links_stay_valid.
  repeat constructor; eexists; (split; [reflexivity|reflexivity]).
Defined.

(** ** Room names *)

Lemma lastChar_nonempty c s : exists d, lastChar (String c s) = Some d.
Proof.
  revert c. induction s as [|e s IH]; intros c; simpl; [eauto|].
  destruct (IH e) as [d Hd]. exists d. exact Hd.
Qed.

Lemma lastChar_cons c d s : lastChar (String c (String d s)) = lastChar (String d s).
Proof. reflexivity. Qed.

Lemma revString_length s : forall acc,
  String.length (revString acc s) = (String.length acc + String.length s)%nat.
Proof.
  induction s as [|c s IH]; intros acc; simpl; [lia|].
  rewrite IH. simpl. lia.
Qed.

Lemma revString_lastChar s : forall acc,
  lastChar (revString acc s)
  = match lastChar acc with
    | Some c => Some c
    | None => firstChar s
    end.
Proof.
  induction s as [|c s IH]; intros acc; simpl.
  - destruct (lastChar acc); reflexivity.
  - rewrite IH. destruct acc as [|d acc]; [reflexivity|].
    rewrite lastChar_cons. destruct (lastChar_nonempty d acc) as [e ->]. reflexivity.
Qed.

Lemma revString_firstChar s : forall acc,
  firstChar (revString acc s)
  = match lastChar s with
    | Some c => Some c
    | None => firstChar acc
    end.
Proof.
  induction s as [|c s IH]; intros acc; [reflexivity|].
  cbn [revString]. rewrite IH. destruct s as [|d s]; [reflexivity|].
  rewrite lastChar_cons. destruct (lastChar_nonempty d s) as [e ->]. reflexivity.
Qed.

Lemma trimStart_firstChar s c :
  firstChar (trimStart s) = Some c -> isWhiteSpace c = false.
Proof.
  induction s as [|d s IH]; simpl; [discriminate|].
  destruct (isWhiteSpace d) eqn:Hd; [exact IH|].
  simpl. intros [= <-]. exact Hd.
Qed.

Lemma trimStart_lastChar s :
  trimStart s <> EmptyString -> lastChar (trimStart s) = lastChar s.
Proof.
  induction s as [|d s IH]; simpl; [congruence|].
  destruct (isWhiteSpace d) eqn:Hd; [|reflexivity].
  intros Hne. rewrite (IH Hne). destruct s as [|e s]; [simpl in Hne; congruence|].
  reflexivity.
Qed.

Lemma length_zero_empty s : String.length s = 0%nat -> s = EmptyString.
Proof. destruct s; [reflexivity | discriminate]. Qed.

Lemma trim_tidy s :
  trim s <> EmptyString ->
  (forall c, firstChar (trim s) = Some c -> isWhiteSpace c = false) /\
  (forall c, lastChar (trim s) = Some c -> isWhiteSpace c = false).
Proof.
  unfold trim, trimEnd. set (t := trimStart s).
  set (u := trimStart (revString EmptyString t)). intros Hne.
  assert (Hu : u <> EmptyString).
  { intros Hu. apply Hne. rewrite Hu. reflexivity. }
  split; intros c.
  - rewrite revString_firstChar. unfold u in *.
    rewrite (trimStart_lastChar _ Hu), revString_lastChar. simpl.
    destruct (firstChar t) as [d|] eqn:Ht.
    + intros [= <-]. exact (trimStart_firstChar s d Ht).
    + discriminate.
  - rewrite revString_lastChar. simpl. apply trimStart_firstChar.
Qed.

Lemma trim_whitespace s : allWhiteSpace s = true -> trim s = EmptyString.
Proof.
  intros Hs. assert (Ht : trimStart s = EmptyString).
  { induction s as [|c s IH]; simpl in *; [reflexivity|].
    apply andb_true_iff in Hs as [Hc Hs]. rewrite Hc. exact (IH Hs). }
  unfold trim. rewrite Ht. reflexivity.
Qed.

Lemma handle_namesTidy E q w : namesTidy w -> namesTidy (snd (handle E q w)).
Proof.
  intros Hw. destruct (isCreate q) eqn:Hq.
  - destruct q as [u s n m a| | | | |]; try discriminate. simpl.
    destruct (createRoom_effect E u s n m a w)
      as [(_ & _ & Hrs & _)
         |(si & s0 & n0 & r & _ & _ & _ & Hlen & Hrs & _ & Hname & _)];
      unfold namesTidy in *; rewrite Hrs; [exact Hw|].
    apply Forall_app. split; [exact Hw|]. constructor; [|constructor].
    rewrite Hname. split; [exact Hlen|]. apply trim_tidy.
    intros Hempty. rewrite Hempty in Hlen. simpl in Hlen. lia.
  - unfold namesTidy in *. rewrite Forall_lookup in Hw |- *. intros i r' Hr'.
    destruct (evolves_closed_rooms E _ _ (handle_evolves_closed E q w Hq) i r' Hr')
      as (r & Hr & Hsame).
    destruct Hsame as (_ & _ & Hname & _). rewrite Hname. exact (Hw _ _ Hr).
Qed.

(** X11. Every room name the create handler stores is the requested name
    without its surrounding white space: it has at least two characters and
    neither begins nor ends with white space, and no later request changes
    it; so rooms with such names keep them along any sequence of requests.
    A name made of white space only is refused and nothing is stored. *)
Theorem room_names_stay_tidy E :
  (forall qs w, namesTidy w -> namesTidy (run E qs w)) /\
  (forall user sid n maxp auto w,
     allWhiteSpace n = true ->
     isSuccess (fst (createRoom E user sid (Some n) maxp auto w)) = false /\
     snd (createRoom E user sid (Some n) maxp auto w) = w).
Proof.
  split.
  - intros qs. induction qs as [|q qs IH]; intros w Hw; simpl; [exact Hw|].
    apply IH, handle_namesTidy, Hw.
  - intros user sid n maxp auto w Hn. apply createRoom_short_name_inert.
    rewrite (trim_whitespace n Hn). simpl. lia.
Qed.

Lemma room_names_stay_tidy_witness :
  namesTidy (run Sample.env [CreateRoom "P1" "s1" (Some "  Team A ") None None]
               Sample.noRooms) /\
  snd (createRoom Sample.env "P1" "s1" (Some "   ") None None Sample.noRooms)
    = Sample.noRooms.
Proof.
  split.
  - apply (proj1 (room_names_stay_tidy Sample.env)). constructor.
  - apply (proj2 (room_names_stay_tidy Sample.env)). reflexivity.
Defined.

(** ** What auto-assign publishes *)

Lemma headlines_app l k : headlines (l ++ k) = (headlines l ++ headlines k)%list.
Proof. unfold headlines. apply map_app. Qed.

Lemma assignLoop_events E us : forall brs i w,
  brs <> [] ->
  exists brs' w',
    assignLoop E brs i us w = (Value brs', w') /\
    headlines (events w')
    = (headlines (events w)
       ++ List.map noticeOf
            (roundRobin (List.map (fun b => freePlaces (snd b)) brs) i us))%list.
Proof.
  induction us as [|p rest IH]; intros brs i w Hne.
  - exists brs, w. simpl. rewrite app_nil_r. auto.
  - assert (Hlen : (i mod length brs < length brs)%nat).
    { apply Nat.mod_upper_bound. destruct brs; [congruence | simpl; lia]. }
    destruct (lookup_lt_is_Some_2 _ _ Hlen) as [[pos target] Hslot].
    simpl. rewrite Hslot, length_map.
    change (List.map (fun b => freePlaces (snd b)) brs !! (i mod length brs)%nat)
      with (((fun b => freePlaces (snd b)) <$> brs) !! (i mod length brs)%nat).
    rewrite list_lookup_fmap, Hslot. simpl.
    destruct (Z.ltb_spec (Z.of_nat (length (BreakoutRoom.participants target)))
                (BreakoutRoom.maxParticipants target)) as [Hcap|Hfull].
    + assert (Hfree0 : (0 <? freePlaces target) = true)
        by (apply Z.ltb_lt; unfold freePlaces, roster; lia).
      rewrite Hfree0. run_handler.
      set (rp := roomParticipant (Participant.id p) p (clock E (tick w))).
      set (w1 := mkWorld _ _ _ _).
      set (brs1 := <[(i mod length brs)%nat := _]> brs).
      assert (Hne1 : brs1 <> []).
      { intros H0. apply (f_equal length) in H0. unfold brs1 in H0.
        rewrite length_insert in H0. destruct brs; [congruence | discriminate]. }
      destruct (IH brs1 (S i) w1 Hne1) as (brs' & w' & Hrun & Hev).
      exists brs', w'. split; [exact Hrun|].
      rewrite Hev. unfold w1. simpl. rewrite headlines_app. simpl.
      rewrite <- app_assoc. simpl. f_equal. f_equal. f_equal.
      unfold brs1. pose proof (freePlaces_commit brs (i mod length brs)%nat pos target rp)
        as Hfree.
      unfold roster in Hfree. rewrite Hfree. reflexivity.
    + assert (Hfree0 : (0 <? freePlaces target) = false)
        by (apply Z.ltb_ge; unfold freePlaces, roster; lia).
      rewrite Hfree0. apply IH, Hne.
Qed.

Lemma autoAssign_publishes E user sid w si s :
  findOne (sessionNamed sid) (sessions w) = Some (si, s) ->
  Session.hostId s = user ->
  let brs := findAll (isActiveRoomOf sid) (rooms w) in
  let us := unassignedParticipants s brs in
  let plan := roundRobin (List.map (fun b => freePlaces (snd b)) brs) 0 us in
  brs <> [] ->
  headlines (events (snd (autoAssign E user sid w)))
    = (headlines (events w) ++ List.map noticeOf plan)%list /\
  (length plan <= length us)%nat /\
  (us <> [] ->
   fst (autoAssign E user sid w)
     = res_success (AssignedD (length us) (length brs))
         "Participants auto-assigned successfully").
Proof.
  intros Hs Hhost brs us plan Hne.
  pose proof (sessionNamed_id _ _ _ _ Hs) as Hid.
  destruct (assignLoop_events E us brs 0 w Hne) as (brs' & w' & Hrun & Hev).
  fold plan in Hev.
  assert (Hlen : (length brs =? 0)%nat = false).
  { apply Nat.eqb_neq. destruct brs; [congruence | discriminate]. }
  split; [|split].
  - unfold autoAssign. run_handler. rewrite Hs. simpl.
    rewrite Hhost, String.eqb_refl, Hid. simpl. fold brs. rewrite Hlen. simpl.
    fold us. destruct (length us =? 0)%nat eqn:Hus; simpl.
    + apply Nat.eqb_eq in Hus. unfold plan. destruct us; [|discriminate].
      simpl. rewrite app_nil_r. reflexivity.
    + rewrite Hrun. exact Hev.
  - unfold plan. rewrite <- (length_map fst).
    apply sublist_length, roundRobin_sublist.
  - intros Hus. unfold autoAssign. run_handler. rewrite Hs. simpl.
    rewrite Hhost, String.eqb_refl, Hid. simpl. fold brs. rewrite Hlen. simpl.
    fold us. destruct (length us =? 0)%nat eqn:Hus0; simpl.
    + apply Nat.eqb_eq in Hus0. destruct us; [congruence | discriminate].
    + rewrite Hrun. reflexivity.
Qed.

(** X13. A successful auto-assign publishes exactly one
    [auto_assigned_to_breakout] event per participant it placed, on that
    participant's own [user:] topic, in the order of placement, and nothing
    else: nothing goes to the room topics or the session topic. The
    [assignedCount] it answers is the number of participants that were
    unassigned, which is at least the number placed. *)
Theorem autoAssign_notifies_the_placed E user sid w si s :
  findOne (sessionNamed sid) (sessions w) = Some (si, s) ->
  Session.hostId s = user ->
  let brs := findAll (isActiveRoomOf sid) (rooms w) in
  let us := unassignedParticipants s brs in
  let plan := roundRobin (List.map (fun b => freePlaces (snd b)) brs) 0 us in
  brs <> [] ->
  headlines (events (snd (autoAssign E user sid w)))
    = (headlines (events w) ++ List.map noticeOf plan)%list /\
  (length plan <= length us)%nat /\
  (us <> [] ->
   fst (autoAssign E user sid w)
     = res_success (AssignedD (length us) (length brs))
         "Participants auto-assigned successfully").
Proof.
  intros Hs Hhost brs us plan Hne.
  exact (autoAssign_publishes E user sid w si s Hs Hhost Hne).
Qed.

Lemma autoAssign_notifies_the_placed_witness :
  headlines (events (snd (autoAssign Sample.env "P1" "s1" Sample.twoRooms)))
  = [("user:P1", "auto_assigned_to_breakout"); ("user:P2", "auto_assigned_to_breakout");
     ("user:P3", "auto_assigned_to_breakout"); ("user:P4", "auto_assigned_to_breakout")].
Proof.
  refine (proj1 (autoAssign_notifies_the_placed Sample.env "P1" "s1" Sample.twoRooms
                   0%nat Sample.session eq_refl eq_refl _)).
  vm_compute. discriminate.
Defined.

(** ** Enough room for everyone *)

Lemma roundRobin_all us : forall free k,
  free <> [] ->
  Forall (fun f => Z.of_nat (length us) <= f) free ->
  List.map fst (roundRobin free k us) = us.
Proof.
  induction us as [|p rest IH]; intros free k Hne Hfree; simpl; [reflexivity|].
  assert (Hlen : (k mod length free < length free)%nat).
  { apply Nat.mod_upper_bound. destruct free; [congruence | simpl; lia]. }
  destruct (lookup_lt_is_Some_2 _ _ Hlen) as [f Hf]. rewrite Hf.
  pose proof Hfree as Hall. rewrite Forall_lookup in Hall.
  pose proof (Hall _ _ Hf) as Hbig. simpl in Hbig.
  assert (H0 : (0 <? f) = true) by (apply Z.ltb_lt; lia).
  rewrite H0. simpl. f_equal. apply IH.
  - intros H. apply (f_equal length) in H. rewrite length_insert in H.
    destruct free; [congruence | discriminate].
  - apply Forall_insert.
    + eapply Forall_impl; [exact Hfree|]. simpl. intros; lia.
    + lia.
Qed.

Lemma assignedTo_intro p slot plan :
  (p, slot) ∈ plan -> Participant.id p ∈ assignedTo slot plan.
Proof.
  intros Hin. unfold assignedTo.
  change (Participant.id p ∈ (fun a => Participant.id (fst a)) <$>
            List.filter (fun a => Nat.eqb (snd a) slot) plan).
  apply list_elem_of_fmap. exists (p, slot). split; [reflexivity|].
  apply list_elem_of_In, filter_In. split; [apply list_elem_of_In, Hin|].
  simpl. apply Nat.eqb_refl.
Qed.

(** X12. When every active room of the session has at least as many free
    places as there are unassigned participants, auto-assign skips nobody:
    every unassigned participant is afterwards in the roster of an active
    room of the session, and one notice is published per unassigned
    participant. *)
Theorem autoAssign_places_everyone E user sid w si s :
  findOne (sessionNamed sid) (sessions w) = Some (si, s) ->
  Session.hostId s = user ->
  let brs := findAll (isActiveRoomOf sid) (rooms w) in
  let us := unassignedParticipants s brs in
  brs <> [] ->
  Forall (fun b => Z.of_nat (length us) <= freePlaces (snd b)) brs ->
  (forall p, p ∈ us ->
     exists slot pos r r',
       brs !! slot = Some (pos, r) /\
       rooms (snd (autoAssign E user sid w)) !! pos = Some r' /\
       Participant.id p ∈ rosterIds r') /\
  length (events (snd (autoAssign E user sid w)))
    = (length (events w) + length us)%nat.
Proof.
  intros Hs Hhost brs us Hne Hfree.
  set (free := List.map (fun b => freePlaces (snd b)) brs).
  assert (Hall : List.map fst (roundRobin free 0 us) = us).
  { apply roundRobin_all.
    - unfold free. intros H. apply (f_equal length) in H. rewrite length_map in H.
      destruct brs; [congruence | discriminate].
    - unfold free. change (Forall (fun f => Z.of_nat (length us) <= f)
                             ((fun b => freePlaces (snd b)) <$> brs)).
      apply Forall_fmap. exact Hfree. }
  split.
  - intros p Hp.
    destruct (autoAssign_run E (fun _ => True) user sid w si s Hs Hhost Hne)
      as (w' & Hrun & _ & _ & _ & Hin).
    fold brs in Hrun, Hin. fold us in Hrun, Hin. fold free in Hin.
    rewrite <- Hall in Hp.
    change (p ∈ fst <$> roundRobin free 0 us) in Hp.
    apply list_elem_of_fmap in Hp as ([p' slot] & -> & Hplan). simpl.
    pose proof Hplan as Htarget.
    apply roundRobin_target in Htarget as (i & _ & Hslot).
    assert (Hlt : (slot < length brs)%nat).
    { subst slot. unfold free. rewrite length_map. simpl.
      apply Nat.mod_upper_bound. destruct brs; [congruence | simpl; lia]. }
    destruct (lookup_lt_is_Some_2 _ _ Hlt) as [[pos r] Hr].
    destruct (Hin slot pos r Hr) as (extra & Hr' & Hids).
    exists slot, pos, r. eexists. rewrite Hrun. simpl.
    split; [exact Hr|]. split; [exact Hr'|].
    unfold rosterIds, roster. simpl. rewrite map_app, Hids.
    apply elem_of_app. right. apply assignedTo_intro, Hplan.
  - destruct (autoAssign_publishes E user sid w si s Hs Hhost Hne)
      as (Hev & _).
    fold brs in Hev. fold us in Hev. fold free in Hev.
    apply (f_equal length) in Hev. unfold headlines in Hev.
    rewrite length_app, !length_map in Hev. rewrite Hev.
    rewrite <- (length_map fst), Hall. reflexivity.
Qed.

Lemma autoAssign_places_everyone_witness :
  length (events (snd (autoAssign Sample.env "P1" "s1"
                         (mkWorld [Sample.session]
                            [Sample.room "R1" 10 active []; Sample.room "R2" 5 active []]
                            [] 0)))) = 5%nat.
Proof.
  refine (proj2 (autoAssign_places_everyone Sample.env "P1" "s1"
                   (mkWorld [Sample.session]
                      [Sample.room "R1" 10 active []; Sample.room "R2" 5 active []]
                      [] 0)
                   0%nat Sample.session eq_refl eq_refl _ _)).
  - vm_compute. discriminate.
  - repeat constructor; vm_compute; discriminate.
Defined.

(** ** What the other requests publish *)

(** X14. A successful create, join, leave, listing or close appends to the
    event log exactly the events of its kind, in a fixed order: a create
    one [breakout_room_created] on the session topic; a join
    [participant_joined] on the room topic, then [breakout_room_joined] on
    the session topic; a leave [participant_left], then
    [breakout_room_left]; a close [room_closed], then
    [breakout_room_closed]; a listing nothing. Topics are built from the
    ids in the request path. *)
Theorem successful_request_announces E q w :
  isAutoAssign q = false ->
  isSuccess (fst (handle E q w)) = true ->
  headlines (events (snd (handle E q w)))
    = (headlines (events w) ++ announces q)%list.
Proof.
  destruct q as [u s n m a|u s rid|u s rid|u s|u s rid|u s]; simpl; intros Hq Hok;
    try discriminate.
  - destruct (createRoom_effect E u s n m a w) as [(Hno & _)|H]; [congruence|].
    destruct H as (si & s0 & n0 & r & _ & _ & _ & _ & _ & _ & _ & _ & _ & _ & _ & Hev).
    exact Hev.
  - apply joinRoom_accepted in Hok
      as (si & s0 & p & ri & r & Hs & Hp & Hr & Hsid & Hcap & Hnew).
    rewrite (joinRoom_success E u s rid w si s0 p ri r Hs Hp Hr Hsid Hcap Hnew).
    simpl. rewrite headlines_app. reflexivity.
  - apply leaveRoom_accepted in Hok as (ri & r & j & p & Hr & Hj & Hp).
    rewrite (leaveRoom_success E u s rid w ri r j p Hr Hj Hp).
    simpl. rewrite headlines_app. reflexivity.
  - rewrite listRooms_readonly, app_nil_r. reflexivity.
  - apply closeRoom_accepted in Hok as (si & s0 & ri & r & Hs & Hhost & Hr).
    rewrite (closeRoom_success E u s rid w si s0 ri r Hs Hhost Hr).
    simpl. rewrite headlines_app. reflexivity.
Qed.

Lemma successful_request_announces_witness :
  headlines (events (snd (handle Sample.env (LeaveRoom "P3" "s1" "R1") Sample.fullRoom)))
  = [("breakout:R1", "participant_left"); ("session:s1", "breakout_room_left")].
Proof.
  exact (successful_request_announces Sample.env (LeaveRoom "P3" "s1" "R1")
           Sample.fullRoom eq_refl eq_refl).
Defined.

(** * The authentication middleware *)

Lemma startsWith_split p : forall s,
  startsWith p s = true -> s = p ++ slice (String.length p) s.
Proof.
  induction p as [|c p IH]; intros s; simpl; [reflexivity|].
  destruct s as [|d s]; [discriminate|].
  intros H. apply andb_true_iff in H as [Hc Hs].
  apply Ascii.eqb_eq in Hc. subst d.
  change (String c s = String c (p ++ slice (String.length p) s)).
  f_equal. apply IH, Hs.
Qed.

Lemma extractToken_authenticate A h :
  authMiddleware A h
  = match extractToken h with
    | Some t => authenticate A t
    | None => Deny 401 "No token, authorization denied"
    end.
Proof.
  unfold authMiddleware, authenticate. destruct (extractToken h) as [t|]; [|reflexivity].
  simpl. destruct (String.eqb t ""); reflexivity.
Qed.

Lemma extractToken_carries h t : extractToken h = Some t -> carries h t.
Proof.
  unfold extractToken, carries. cbv zeta.
  assert (Hsrc : orElse (x_auth_token h) (authorization h) = x_auth_token h \/
                 orElse (x_auth_token h) (authorization h) = authorization h)
    by (unfold orElse; destruct (truthy _); auto).
  destruct (orElse (x_auth_token h) (authorization h)) as [raw|]; [|discriminate].
  intros H. exists raw. split; [destruct Hsrc as [<-|<-]; auto|].
  destruct (truthy (Some raw) && startsWith "Bearer " raw) eqn:Hb.
  - injection H as <-. right. apply andb_true_iff in Hb as [_ Hb].
    exact (startsWith_split "Bearer " raw Hb).
  - injection H as <-. left. reflexivity.
Qed.

(** X15. The strict middleware lets a request through only with proof of
    identity: if it passes with [req.user = u], then a header of the
    request carried a non-empty token, bare or after ["Bearer "], that
    [jwt.verify] accepted, and [u] is the user found for the id in its
    payload. Every refusal has status 401. *)
Theorem authMiddleware_sound A h :
  (forall u,
     authMiddleware A h = Pass u ->
     exists t decoded,
       carries h t /\ t <> "" /\
       jwt_verify A t = Some decoded /\
       User_findOne A (payloadUserId decoded) = Some u) /\
  (forall status error, authMiddleware A h = Deny status error -> status = 401).
Proof.
  rewrite extractToken_authenticate. split.
  - intros u. destruct (extractToken h) as [t|] eqn:Ht; [|discriminate].
    unfold authenticate. destruct (String.eqb_spec t ""); [discriminate|].
    destruct (jwt_verify A t) as [decoded|] eqn:Hv; [|discriminate].
    destruct (User_findOne A (payloadUserId decoded)) as [u'|] eqn:Hu; [|discriminate].
    intros [= <-]. exists t, decoded. auto using extractToken_carries.
  - intros status error. destruct (extractToken h) as [t|]; [|congruence].
    unfold authenticate. destruct (String.eqb t ""); [congruence|].
    destruct (jwt_verify A t) as [decoded|]; [|congruence].
    destruct (User_findOne A (payloadUserId decoded)); congruence.
Qed.

Lemma authMiddleware_sound_witness :
  exists t decoded,
    carries (mkHeaders None (Some "Bearer jwt-P2")) t /\ t <> "" /\
    jwt_verify SampleAuth.env t = Some decoded /\
    User_findOne SampleAuth.env (payloadUserId decoded) = Some (User.mk "P2" "user").
Proof.
  apply (proj1 (authMiddleware_sound SampleAuth.env
                  (mkHeaders None (Some "Bearer jwt-P2")))).
  reflexivity.
Defined.

(** X16. Where the token is read from. A non-empty [x-auth-token] that does
    not start with ["Bearer "] is the token, whatever [Authorization]
    holds; with [x-auth-token] absent or empty, the token is what follows
    ["Bearer "] in [Authorization]; an [x-auth-token] that starts with
    ["Bearer "] is read without that prefix, [Authorization] being ignored
    even when nothing follows the prefix. So the same token is treated
    alike in either header, and exactly one leading ["Bearer "] is
    removed. *)
Theorem authMiddleware_token_source A t :
  (t <> "" -> startsWith "Bearer " t = false ->
   forall a, authMiddleware A (mkHeaders (Some t) a) = authenticate A t) /\
  (forall x, truthy x = false ->
             authMiddleware A (mkHeaders x (Some ("Bearer " ++ t))) = authenticate A t) /\
  (forall a, authMiddleware A (mkHeaders (Some ("Bearer " ++ t)) a) = authenticate A t).
Proof.
  split; [|split].
  - intros Hne Hb a. rewrite extractToken_authenticate.
    unfold extractToken, orElse, truthy. cbn [x_auth_token authorization].
    apply String.eqb_neq in Hne.
    repeat (rewrite ?Hne, ?Hb; cbn [negb andb]). reflexivity.
  - intros x Hx. rewrite extractToken_authenticate.
    unfold extractToken, orElse. cbn [x_auth_token authorization]. rewrite Hx.
    reflexivity.
  - intros a. rewrite extractToken_authenticate. reflexivity.
Qed.

Lemma authMiddleware_token_source_witness :
  authMiddleware SampleAuth.env (mkHeaders (Some "jwt-P2") (Some "Bearer other"))
  = Pass (User.mk "P2" "user").
Proof.
  refine (proj1 (authMiddleware_token_source SampleAuth.env "jwt-P2") _ _
            (Some "Bearer other")).
  - discriminate.
  - reflexivity.
Defined.

(** X17. The optional middleware reads [x-auth-token] only and takes it as
    it is. For a non-empty [x-auth-token] that does not start with
    ["Bearer "] it sets the user exactly when the strict middleware passes,
    and the same user. A request that carries its token in [Authorization]
    only is anonymous for the optional middleware even when the strict one
    would pass it. *)
Theorem optionalAuth_agreement A :
  (forall t a u,
     t <> "" -> startsWith "Bearer " t = false ->
     (optionalAuthMiddleware A (mkHeaders (Some t) a) = Some u <->
      authMiddleware A (mkHeaders (Some t) a) = Pass u)) /\
  (forall x a, truthy x = false -> optionalAuthMiddleware A (mkHeaders x a) = None).
Proof.
  split.
  - intros t a u Hne Hb. rewrite extractToken_authenticate.
    unfold extractToken, orElse, optionalAuthMiddleware, authenticate, truthy.
    cbn [x_auth_token authorization].
    apply String.eqb_neq in Hne.
    repeat (rewrite ?Hne, ?Hb; cbn [negb andb]).
    destruct (jwt_verify A t) as [decoded|]; [|split; discriminate].
    destruct (User_findOne A (payloadUserId decoded)); split; congruence.
  - intros x a Hx. unfold optionalAuthMiddleware. simpl.
    destruct x as [t|]; [|reflexivity]. rewrite Hx. reflexivity.
Qed.

Lemma optionalAuth_agreement_witness :
  optionalAuthMiddleware SampleAuth.env (mkHeaders (Some "jwt-old-P1") None)
  = Some (User.mk "P1" "admin").
Proof.
  apply (proj1 (optionalAuth_agreement SampleAuth.env) "jwt-old-P1" None).
  - discriminate.
  - reflexivity.
  - reflexivity.
Defined.

Lemma extractToken_bearer t :
  extractToken (mkHeaders None (Some ("Bearer " ++ t))) = Some t.
Proof. reflexivity. Qed.

Lemma orElse_first a b c t :
  orElse (orElse a b) c = Some t -> t <> "" ->
  a = Some t \/
  (truthy a = false /\ b = Some t) \/
  (truthy a = false /\ truthy b = false /\ c = Some t).
Proof.
  unfold orElse. destruct (truthy a) eqn:Ha; simpl.
  - rewrite Ha. auto.
  - destruct (truthy b) eqn:Hb; auto.
Qed.

(** X18. What the strict middleware makes of the header the client builds
    from its three storage keys. When one of them holds a non-empty text,
    the first such text is the token the middleware goes on with; when all
    three are absent, the token is the literal text ["null"], which goes to
    [jwt.verify] like any other. Both hold for a header value that arrives
    as it was sent. When nothing but an empty text is stored, the value
    sent is ["Bearer "] with nothing after the space: arriving as sent it
    is answered as a missing token; arriving without the final space it
    makes the middleware go on with the text ["Bearer"] as the token. *)
Theorem client_header_reaches_verify A T a b c :
  (forall t,
     orElse (orElse a b) c = Some t -> t <> "" ->
     (a = Some t \/
      (truthy a = false /\ b = Some t) \/
      (truthy a = false /\ truthy b = false /\ c = Some t)) /\
     (T ("Bearer " ++ t) = "Bearer " ++ t ->
      authMiddleware A (received T (getAuthHeaders a b c)) = authenticate A t)) /\
  (orElse (orElse a b) c = None ->
   T "Bearer null" = "Bearer null" ->
   authMiddleware A (received T (getAuthHeaders a b c)) = authenticate A "null") /\
  (orElse (orElse a b) c = Some "" ->
   (T "Bearer " = "Bearer " ->
    authMiddleware A (received T (getAuthHeaders a b c))
      = Deny 401 "No token, authorization denied") /\
   (T "Bearer " = "Bearer" ->
    authMiddleware A (received T (getAuthHeaders a b c)) = authenticate A "Bearer")).
Proof.
  unfold getAuthHeaders, received. cbn [x_auth_token authorization option_map].
  split; [|split].
  - intros t Ht Hne. split; [exact (orElse_first a b c t Ht Hne)|].
    rewrite Ht. cbn [interpolate]. intros ->.
    rewrite extractToken_authenticate, extractToken_bearer. reflexivity.
  - intros ->. cbn [interpolate]. change ("Bearer " ++ "null") with "Bearer null".
    intros ->. rewrite extractToken_authenticate. reflexivity.
  - intros ->. cbn [interpolate]. split; intros HT.
    + change ("Bearer " ++ "") with "Bearer ". rewrite HT. reflexivity.
    + change ("Bearer " ++ "") with "Bearer ". rewrite HT.
      rewrite extractToken_authenticate. reflexivity.
Qed.

Lemma client_header_reaches_verify_witness :
  authMiddleware SampleAuth.env
    (received (fun v => v) (getAuthHeaders None (Some "") (Some "jwt-P2")))
  = authenticate SampleAuth.env "jwt-P2".
Proof.
  apply (proj1 (client_header_reaches_verify SampleAuth.env (fun v => v)
                  None (Some "") (Some "jwt-P2")) "jwt-P2").
  - reflexivity.
  - discriminate.
  - reflexivity.
Defined.

(** X23. The admin gate behind the optional middleware. A request passes
    [adminMiddleware] after [optionalAuthMiddleware] only if its
    [x-auth-token] header is non-empty, verifies, and names an account whose
    role is [admin]; an anonymous request, which the optional middleware
    lets through, is stopped here. Every refusal of the gate is a 403. *)
Theorem adminMiddleware_guard A h :
  (adminMiddleware (optionalAuthMiddleware A h) = Pass tt ->
   exists t decoded u,
     x_auth_token h = Some t /\ t <> "" /\
     jwt_verify A t = Some decoded /\
     User_findOne A (payloadUserId decoded) = Some u /\
     User.role u = "admin") /\
  (forall s e, adminMiddleware (optionalAuthMiddleware A h) = Deny s e -> s = 403).
Proof.
  split.
  - unfold optionalAuthMiddleware, adminMiddleware, truthy. cbn zeta.
    destruct (x_auth_token h) as [t|]; [|discriminate].
    destruct (String.eqb_spec t "") as [->|Hne]; cbn [negb]; [discriminate|].
    destruct (jwt_verify A t) as [decoded|] eqn:Hv; [|discriminate].
    destruct (User_findOne A (payloadUserId decoded)) as [u|] eqn:Hu; [|discriminate].
    destruct (String.eqb_spec (User.role u) "admin") as [Hrole|]; cbn [negb];
      [|discriminate].
    intros _. exists t, decoded, u. auto.
  - intros s e. unfold adminMiddleware.
    destruct (optionalAuthMiddleware A h) as [u|]; [|congruence].
    destruct (negb (String.eqb (User.role u) "admin")); congruence.
Qed.

Lemma adminMiddleware_guard_witness :
  exists t decoded u,
    x_auth_token (mkHeaders (Some "jwt-old-P1") None) = Some t /\ t <> "" /\
    jwt_verify SampleAuth.env t = Some decoded /\
    User_findOne SampleAuth.env (payloadUserId decoded) = Some u /\
    User.role u = "admin".
Proof.
  apply (proj1 (adminMiddleware_guard SampleAuth.env (mkHeaders (Some "jwt-old-P1") None))).
  reflexivity.
Defined.

(** * The voice preview route *)

(** X19. The voice preview route consults the provider only for a
    participant of an existing session who names a voice: otherwise the
    answer is 404, 403 or 400, in that order of precedence, whatever the
    provider would do. When it is consulted, it is with the request's
    text, or with the default sentence when the text is absent or empty,
    and that is the text the success echoes; a provider that resolves to a
    failure and one that throws are answered alike, with 500 and the same
    message. *)
Theorem voicePreview_consults_provider user sid voiceId text w :
  (findOne (sessionNamed sid) (sessions w) = None ->
   forall g, voicePreview g user sid voiceId text w
             = voice_error "Session not found" 404) /\
  (forall si s,
     findOne (sessionNamed sid) (sessions w) = Some (si, s) ->
     (List.find (hasId user) (Session.participants s) = None ->
      forall g, voicePreview g user sid voiceId text w
                = voice_error "Not a participant in this session" 403) /\
     (forall p,
        List.find (hasId user) (Session.participants s) = Some p ->
        (truthy voiceId = false ->
         forall g, voicePreview g user sid voiceId text w
                   = voice_error "Voice ID is required" 400) /\
        (forall v g,
           voiceId = Some v -> v <> "" ->
           let shown :=
             orDefault text
               "Hello, this is how your voice will sound in the sanctuary." in
           (truthy text = true -> text = Some shown) /\
           (forall audio e, g v shown = PreviewResult true audio e ->
              voicePreview g user sid voiceId text w
                = voice_success v audio shown "Voice preview generated successfully") /\
           (forall audio m,
              g v shown = PreviewResult false audio m \/ g v shown = PreviewThrown m ->
              voicePreview g user sid voiceId text w
                = voice_error ("Failed to generate voice preview: " ++ m) 500)))).
Proof.
  split.
  - intros Hs g. unfold voicePreview. rewrite Hs. reflexivity.
  - intros si s Hs. unfold voicePreview. rewrite Hs. cbn [snd]. split.
    + intros Hp g. rewrite Hp. reflexivity.
    + intros p Hp. rewrite Hp. split.
      * intros Hv g. destruct voiceId as [v|]; [|reflexivity]. rewrite Hv. reflexivity.
      * intros v g -> Hv. set (shown := orDefault text _).
        assert (Htruthy : truthy (Some v) = true).
        { unfold truthy. apply String.eqb_neq in Hv. rewrite Hv. reflexivity. }
        rewrite Htruthy. split; [|split].
        -- unfold shown, orDefault. destruct text as [t|]; [|discriminate].
           intros Ht. rewrite Ht. reflexivity.
        -- intros audio e Hg. rewrite Hg. reflexivity.
        -- intros audio m [Hg|Hg]; rewrite Hg; reflexivity.
Qed.

Lemma voicePreview_consults_provider_witness :
  voicePreview (fun v t => PreviewThrown "quota exceeded") "P2" "s1"
    (Some "9BWtsMINqrJLrRacOk9x") (Some "") Sample.twoRooms
  = voice_error "Failed to generate voice preview: quota exceeded" 500.
Proof.
  refine (proj2 (proj2 (proj2 (proj2
    (proj2 (voicePreview_consults_provider "P2" "s1" (Some "9BWtsMINqrJLrRacOk9x")
              (Some "") Sample.twoRooms)
       0%nat Sample.session eq_refl)
    (Sample.person "P2" false true) eq_refl)
    "9BWtsMINqrJLrRacOk9x" (fun v t => PreviewThrown "quota exceeded") eq_refl _))
    "" "quota exceeded" _).
  - discriminate.
  - right. reflexivity.
Defined.

(** * The client's participant list *)

Lemma dedupeFrom_sublist ps : forall seen, dedupeFrom seen ps `sublist_of` ps.
Proof.
  induction ps as [|p ps IH]; intros seen; simpl; [constructor|].
  destruct (decide (Participant.id p ∈ seen)).
  - apply sublist_cons, IH.
  - apply sublist_skip, IH.
Qed.

Lemma dedupeFrom_unseen ps : forall seen p,
  p ∈ dedupeFrom seen ps -> Participant.id p ∉ seen.
Proof.
  induction ps as [|q ps IH]; intros seen p; simpl.
  - intros H. apply elem_of_nil in H. contradiction.
  - destruct (decide (Participant.id q ∈ seen)) as [Hq|Hq].
    + apply IH.
    + rewrite elem_of_cons. intros [->|Hin]; [exact Hq|].
      apply IH in Hin. set_solver.
Qed.

Lemma dedupeFrom_NoDup ps : forall seen,
  NoDup (List.map Participant.id (dedupeFrom seen ps)).
Proof.
  induction ps as [|q ps IH]; intros seen; simpl; [constructor|].
  destruct (decide (Participant.id q ∈ seen)) as [Hq|Hq]; [apply IH|].
  simpl. constructor; [|apply IH].
  intros Hin. change (Participant.id q ∈ Participant.id <$>
                        dedupeFrom ({[Participant.id q]} ∪ seen) ps) in Hin.
  apply list_elem_of_fmap in Hin as (p & Hid & Hin).
  apply dedupeFrom_unseen in Hin. rewrite <- Hid in Hin. set_solver.
Qed.

Lemma dedupeFrom_covers ps : forall seen p,
  p ∈ ps ->
  Participant.id p ∈ seen \/
  Participant.id p ∈ List.map Participant.id (dedupeFrom seen ps).
Proof.
  induction ps as [|q ps IH]; intros seen p; simpl.
  - intros H. apply elem_of_nil in H. contradiction.
  - rewrite elem_of_cons.
    destruct (decide (Participant.id q ∈ seen)) as [Hq|Hq]; intros [->|Hin].
    + left. exact Hq.
    + apply IH, Hin.
    + right. simpl. apply list_elem_of_here.
    + destruct (IH ({[Participant.id q]} ∪ seen) p Hin) as [Hseen|Hout].
      * apply elem_of_union in Hseen as [Hseen|Hseen]; [|left; exact Hseen].
        apply elem_of_singleton in Hseen. right. simpl. rewrite Hseen.
        apply list_elem_of_here.
      * right. simpl. apply list_elem_of_further, Hout.
Qed.

Lemma dedupeFrom_distinct ps : forall seen,
  NoDup (List.map Participant.id ps) ->
  (forall p, p ∈ ps -> Participant.id p ∉ seen) ->
  dedupeFrom seen ps = ps.
Proof.
  induction ps as [|q ps IH]; intros seen Hnd Hseen; simpl; [reflexivity|].
  simpl in Hnd. apply NoDup_cons in Hnd as [Hq Hnd].
  destruct (decide (Participant.id q ∈ seen)) as [Hin|_].
  - exfalso. apply (Hseen q); [apply list_elem_of_here | exact Hin].
  - f_equal. apply IH; [exact Hnd|].
    intros p Hp Hin. apply elem_of_union in Hin as [Hin|Hin].
    + apply elem_of_singleton in Hin. apply Hq. rewrite <- Hin.
      change (Participant.id p ∈ Participant.id <$> ps).
      apply list_elem_of_fmap. exists p. auto.
    + apply (Hseen p); [apply list_elem_of_further, Hp | exact Hin].
Qed.

(** X20. [uniqueParticipants] keeps, in their order, the participants whose
    id did not occur earlier in the list: the result holds no id twice, is
    a sublist of the input, holds every id of the input, and is the input
    itself when that already held no id twice. An absent list gives the
    empty list. *)
Theorem uniqueParticipants_spec :
  uniqueParticipants None = [] /\
  forall ps,
    NoDup (List.map Participant.id (uniqueParticipants (Some ps))) /\
    uniqueParticipants (Some ps) `sublist_of` ps /\
    (forall p, p ∈ ps ->
       Participant.id p ∈ List.map Participant.id (uniqueParticipants (Some ps))) /\
    (NoDup (List.map Participant.id ps) -> uniqueParticipants (Some ps) = ps).
Proof.
  split; [reflexivity|]. intros ps. unfold uniqueParticipants. simpl.
  split; [apply dedupeFrom_NoDup|]. split; [apply dedupeFrom_sublist|]. split.
  - intros p Hp. destruct (dedupeFrom_covers ps ∅ p Hp) as [H|H]; [set_solver | exact H].
  - intros Hnd. apply dedupeFrom_distinct; [exact Hnd | set_solver].
Qed.

Lemma uniqueParticipants_spec_witness :
  uniqueParticipants (Some (Session.participants Sample.session))
  = Session.participants Sample.session.
Proof.
  apply (proj2 uniqueParticipants_spec (Session.participants Sample.session)).
  vm_compute.
  repeat (constructor;
          [intros H; repeat (apply elem_of_cons in H as [H|H]; [discriminate|]);
           apply elem_of_nil in H; exact H|]).
  constructor.
Defined.

(** * The room page follows the roster *)

Lemma findIndex_app_l {A} (f : A -> bool) l k i :
  findIndex f l = Some i -> findIndex f (l ++ k) = Some i.
Proof.
  revert i. induction l as [|x l IH]; intros i; simpl; [discriminate|].
  destruct (f x); [auto|].
  destruct (findIndex f l) as [j|]; simpl; [|discriminate].
  intros [= <-]. rewrite (IH j eq_refl). reflexivity.
Qed.

Lemma findOne_app_l {A} (f : A -> bool) l k i x :
  findOne f l = Some (i, x) -> findOne f (l ++ k) = Some (i, x).
Proof.
  intros H. apply findOne_Some in H as (Hi & Hx & _).
  unfold findOne. rewrite (findIndex_app_l f l k i Hi).
  rewrite lookup_app_l by (eapply lookup_lt_Some; eauto). rewrite Hx. reflexivity.
Qed.

Lemma findOne_insert_other {A} (f : A -> bool) l i x j y y' :
  findOne f l = Some (i, x) -> l !! j = Some y -> f y' = f y -> j <> i ->
  findOne f (<[j := y']> l) = Some (i, x).
Proof.
  intros H Hy Hf Hne. apply findOne_Some in H as (Hi & Hx & _).
  unfold findOne. rewrite (findIndex_insert f l j y y' Hy Hf), Hi.
  rewrite list_lookup_insert_ne by exact Hne. rewrite Hx. reflexivity.
Qed.

Lemma room_topic_eqb a b :
  String.eqb ("breakout:" ++ a) ("breakout:" ++ b) = String.eqb a b.
Proof. reflexivity. Qed.

Lemma session_topic_eqb s r :
  String.eqb ("session:" ++ s) ("breakout:" ++ r) = false.
Proof. reflexivity. Qed.

Lemma others_absent user ids : user ∉ ids -> others user ids = ids.
Proof.
  induction ids as [|x ids IH]; intros Hin; [reflexivity|].
  apply not_elem_of_cons in Hin as [Hx Hin]. unfold others in *. simpl.
  destruct (String.eqb_spec x user); [congruence|]. simpl. f_equal. apply IH, Hin.
Qed.

Lemma splice1_ids user (l : list RoomParticipant.t) j :
  findIndex (hasRoomId user) l = Some j ->
  NoDup (List.map RoomParticipant.id l) ->
  List.map RoomParticipant.id (splice1 j l) = others user (List.map RoomParticipant.id l).
Proof.
  intros Hj Hnd. rewrite <- (others_splice user l j Hj).
  symmetry. apply others_absent, splice_removes; assumption.
Qed.

Lemma viewIds_left user view :
  viewIds (onParticipantLeft user view) = others user (viewIds view).
Proof.
  unfold viewIds, onParticipantLeft, others.
  induction view as [|p view IH]; simpl; [reflexivity|].
  destruct (String.eqb (c_id p) user); simpl; rewrite IH; reflexivity.
Qed.

Lemma find_map {A B} (f : A -> B) (p : B -> bool) (l : list A) :
  List.find p (List.map f l) = option_map f (List.find (fun x => p (f x)) l).
Proof.
  induction l as [|x l IH]; simpl; [reflexivity|].
  destruct (p (f x)); [reflexivity | exact IH].
Qed.

Lemma find_only {A} (p : A -> bool) (l : list A) x :
  x ∈ l -> p x = true -> (forall y, y ∈ l -> p y = true -> y = x) ->
  List.find p l = Some x.
Proof.
  induction l as [|z l IH]; intros Hin Hpx Honly; [apply elem_of_nil in Hin; tauto|].
  simpl. destruct (p z) eqn:Hpz.
  - f_equal. apply Honly; [left | exact Hpz].
  - apply IH; [|exact Hpx|].
    + apply elem_of_cons in Hin as [->|Hin]; [congruence | exact Hin].
    + intros y Hy. apply Honly. right. exact Hy.
Qed.

Lemma find_nowhere {A} (p : A -> bool) (l : list A) :
  (forall y, y ∈ l -> p y = false) -> List.find p l = None.
Proof.
  induction l as [|z l IH]; intros Hno; [reflexivity|].
  simpl. rewrite (Hno z) by left. apply IH. intros y Hy. apply Hno. right. exact Hy.
Qed.

(** The rooms the listing shows are stored active rooms of the session. *)
Lemma listed_stored sid (rs : list BreakoutRoom.t) x :
  x ∈ List.map snd (sortByCreatedAt (findAll (isActiveRoomOf sid) rs)) <->
  exists i, rs !! i = Some x /\ isActiveRoomOf sid x = true.
Proof.
  split.
  - intros Hx. change (x ∈ snd <$> sortByCreatedAt (findAll (isActiveRoomOf sid) rs)) in Hx.
    apply list_elem_of_fmap in Hx as ([i y] & -> & Hin).
    apply (proj1 (sortByCreatedAt_elem_of _ _)) in Hin.
    apply (proj1 (findAll_spec _ _ _ _)) in Hin. exists i. exact Hin.
  - intros (i & Hi & Hact).
    change (x ∈ snd <$> sortByCreatedAt (findAll (isActiveRoomOf sid) rs)).
    apply list_elem_of_fmap. exists (i, x). split; [reflexivity|].
    apply (proj2 (sortByCreatedAt_elem_of _ _)), (proj2 (findAll_spec _ _ _ _)). auto.
Qed.

(** What the page starts from. *)
Lemma fetchRoomInfo_start user sid rid w si s ri r :
  findOne (sessionNamed sid) (sessions w) = Some (si, s) ->
  findOne (roomNamed rid) (rooms w) = Some (ri, r) ->
  (forall j r2, rooms w !! j = Some r2 -> BreakoutRoom.id r2 = rid -> j = ri) ->
  (List.find (hasId user) (Session.participants s) = None \/
   isActiveRoomOf sid r = false ->
   fetchRoomInfo user sid rid w = []) /\
  (forall p,
     List.find (hasId user) (Session.participants s) = Some p ->
     isActiveRoomOf sid r = true ->
     viewIds (fetchRoomInfo user sid rid w) = rosterIds r).
Proof.
  intros Hs Hr Honly.
  pose proof (findOne_Some _ _ _ _ Hr) as (_ & Hri & Hnamed).
  assert (Hsame : forall x,
            x ∈ List.map snd (sortByCreatedAt (findAll (isActiveRoomOf sid) (rooms w))) ->
            String.eqb (RoomSummary.id (summarize user x)) rid = true ->
            x = r /\ isActiveRoomOf sid r = true).
  { intros x Hx Hid. apply listed_stored in Hx as (i & Hi & Hact).
    apply String.eqb_eq in Hid. simpl in Hid.
    rewrite (Honly i x Hi Hid) in Hi. rewrite Hri in Hi. injection Hi as <-. auto. }
  split.
  - intros [Hp|Hact]; unfold fetchRoomInfo.
    + unfold listRooms. run_handler. rewrite Hs. simpl. rewrite Hp. reflexivity.
    + destruct (List.find (hasId user) (Session.participants s)) as [p|] eqn:Hp.
      2:{ unfold listRooms. run_handler. rewrite Hs. simpl. rewrite Hp. reflexivity. }
      rewrite (listRooms_success user sid w si s p Hs Hp). cbn [fst].
      rewrite find_map, find_nowhere; [reflexivity|].
      intros x Hx. destruct (String.eqb _ rid) eqn:Hid; [|reflexivity].
      destruct (Hsame x Hx Hid) as [_ Hact']. congruence.
  - intros p Hp Hact. unfold fetchRoomInfo.
    rewrite (listRooms_success user sid w si s p Hs Hp). cbn [fst].
    rewrite find_map, (find_only _ _ r).
    + unfold viewIds, rosterIds, roster. simpl. rewrite !map_map. reflexivity.
    + apply listed_stored. exists ri. auto.
    + exact Hnamed.
    + intros x Hx Hid. apply (Hsame x Hx Hid).
Qed.

Lemma replay_app feed1 feed2 view :
  replay (feed1 ++ feed2) view = replay feed2 (replay feed1 view).
Proof. unfold replay. apply fold_left_app. Qed.

Lemma roomFeed_app rid l k : roomFeed rid (l ++ k) = (roomFeed rid l ++ roomFeed rid k)%list.
Proof. unfold roomFeed. apply List.filter_app. Qed.

Lemma createRoom_session_topic E user sid name maxp auto w :
  exists new,
    events (snd (createRoom E user sid name maxp auto w)) = (events w ++ new)%list /\
    Forall (fun e => topic e = "session:" ++ sid) new.
Proof.
  unfold createRoom. run_handler.
  split_paths;
    first [ exists []; split; [symmetry; apply app_nil_r | constructor]
          | eexists [_]; split; [reflexivity | repeat constructor] ].
Qed.

Lemma roomFeed_session_topic rid sid new :
  Forall (fun e => topic e = "session:" ++ sid) new -> roomFeed rid new = [].
Proof.
  induction 1 as [|e new He _ IH]; [reflexivity|].
  unfold roomFeed in *. simpl. rewrite He, session_topic_eqb. exact IH.
Qed.

Ltac same_room Hr Hr0 :=
  rewrite Hr in Hr0; injection Hr0 as <- <-.

(** One request other than auto-assign. *)
Lemma page_step E q w rid ri r view :
  isAutoAssign q = false ->
  findOne (roomNamed rid) (rooms w) = Some (ri, r) ->
  NoDup (rosterIds r) ->
  viewIds view = rosterIds r ->
  exists r' new,
    events (snd (handle E q w)) = (events w ++ new)%list /\
    findOne (roomNamed rid) (rooms (snd (handle E q w))) = Some (ri, r') /\
    NoDup (rosterIds r') /\
    viewIds (replay (roomFeed rid new) view) = rosterIds r'.
Proof.
  intros Hq Hr Hnd Hview.
  pose proof (findOne_Some _ _ _ _ Hr) as (_ & Hri & Hnamed).
  assert (Hstay : forall w', rooms w' = rooms w -> events w' = events w ->
            exists r' new,
              events w' = (events w ++ new)%list /\
              findOne (roomNamed rid) (rooms w') = Some (ri, r') /\
              NoDup (rosterIds r') /\
              viewIds (replay (roomFeed rid new) view) = rosterIds r').
  { intros w' Hrs Hev. exists r, []. rewrite Hrs, Hev, app_nil_r. auto. }
  destruct q as [u s n m a|u s rq|u s rq|u s|u s rq|u s]; simpl in *; try discriminate.
  - (* create *)
    destruct (createRoom_session_topic E u s n m a w) as (new & Hev & Htopic).
    exists r, new. split; [exact Hev|].
    rewrite (roomFeed_session_topic rid s new Htopic). simpl.
    split; [|auto].
    destruct (createRoom_effect E u s n m a w)
      as [(_ & _ & Hrs & _)|(si & s0 & n0 & r0 & _ & _ & _ & _ & Hrs & _)];
      rewrite Hrs; [exact Hr | apply findOne_app_l, Hr].
  - (* join *)
    destruct (isSuccess (fst (joinRoom E u s rq w))) eqn:Hok.
    2:{ apply Hstay; rewrite (joinRoom_refused _ _ _ _ _ Hok); reflexivity. }
    apply joinRoom_accepted in Hok
      as (si & s0 & p & ri0 & r0 & Hs & Hp & Hr0 & Hsid & Hcap & Hnew).
    rewrite (joinRoom_success E u s rq w si s0 p ri0 r0 Hs Hp Hr0 Hsid Hcap Hnew).
    cbn [snd events rooms].
    destruct (String.eqb_spec rq rid) as [->|Hne].
    + same_room Hr Hr0. eexists _, [_; _]. split; [reflexivity|].
      unfold roomFeed. cbn [List.filter topic].
      rewrite room_topic_eqb, session_topic_eqb, String.eqb_refl.
      split; [apply (findOne_insert _ _ _ _ _ Hr); exact Hnamed|].
      assert (Hids : rosterIds (BreakoutRoom.with_participants
                                  (push (roomParticipant u p (clock E (tick w))) (roster r)) r)
                     = (rosterIds r ++ [u])%list).
      { unfold rosterIds, roster, push. simpl. rewrite map_app. reflexivity. }
      rewrite Hids. split.
      * apply NoDup_app. split; [exact Hnd|].
        split; [|repeat constructor; apply not_elem_of_nil].
        intros x Hx Hx'. apply list_elem_of_singleton in Hx'. subst x.
        apply existsb_hasRoomId_false in Hnew. exact (Hnew Hx).
      * unfold replay, onEvent. cbn [fold_left payload eventType].
        rewrite String.eqb_refl. unfold onParticipantJoined, push, viewIds.
        rewrite map_app, <- Hview. reflexivity.
    + pose proof (findOne_Some _ _ _ _ Hr0) as (_ & Hri0 & Hnamed0).
      assert (Hpos : ri0 <> ri).
      { intros ->. rewrite Hri in Hri0. injection Hri0 as <-.
        apply String.eqb_eq in Hnamed, Hnamed0. congruence. }
      exists r. eexists [_; _]. split; [reflexivity|].
      unfold roomFeed. cbn [List.filter topic].
      rewrite room_topic_eqb, session_topic_eqb, (proj2 (String.eqb_neq _ _) Hne).
      split; [|auto].
      apply (findOne_insert_other _ _ _ _ _ r0 _ Hr Hri0); [reflexivity | exact Hpos].
  - (* leave *)
    destruct (isSuccess (fst (leaveRoom E u s rq w))) eqn:Hok.
    2:{ apply Hstay; rewrite (leaveRoom_refused _ _ _ _ _ Hok); reflexivity. }
    apply leaveRoom_accepted in Hok as (ri0 & r0 & j & p & Hr0 & Hj & Hp).
    rewrite (leaveRoom_success E u s rq w ri0 r0 j p Hr0 Hj Hp).
    cbn [snd events rooms].
    destruct (String.eqb_spec rq rid) as [->|Hne].
    + same_room Hr Hr0. eexists _, [_; _]. split; [reflexivity|].
      unfold roomFeed. cbn [List.filter topic].
      rewrite room_topic_eqb, session_topic_eqb, String.eqb_refl.
      split; [apply (findOne_insert _ _ _ _ _ Hr); exact Hnamed|].
      assert (Hids : rosterIds (BreakoutRoom.with_participants (splice1 j (roster r)) r)
                     = others u (rosterIds r)).
      { unfold rosterIds, roster in *. simpl. apply splice1_ids; assumption. }
      rewrite Hids. split.
      * eapply sublist_NoDup; [exact Hnd|]. unfold others.
        apply List_filter_sublist.
      * unfold replay, onEvent. cbn [fold_left payload eventType].
        rewrite String.eqb_refl, viewIds_left, Hview. reflexivity.
    + pose proof (findOne_Some _ _ _ _ Hr0) as (_ & Hri0 & Hnamed0).
      assert (Hpos : ri0 <> ri).
      { intros ->. rewrite Hri in Hri0. injection Hri0 as <-.
        apply String.eqb_eq in Hnamed, Hnamed0. congruence. }
      exists r. eexists [_; _]. split; [reflexivity|].
      unfold roomFeed. cbn [List.filter topic].
      rewrite room_topic_eqb, session_topic_eqb, (proj2 (String.eqb_neq _ _) Hne).
      split; [|auto].
      apply (findOne_insert_other _ _ _ _ _ r0 _ Hr Hri0); [reflexivity | exact Hpos].
  - (* listing *)
    apply Hstay; rewrite listRooms_readonly; reflexivity.
  - (* close *)
    destruct (isSuccess (fst (closeRoom E u s rq w))) eqn:Hok.
    2:{ apply Hstay; rewrite (closeRoom_refused _ _ _ _ _ Hok); reflexivity. }
    apply closeRoom_accepted in Hok as (si & s0 & ri0 & r0 & Hs & Hhost & Hr0).
    rewrite (closeRoom_success E u s rq w si s0 ri0 r0 Hs Hhost Hr0).
    cbn [snd events rooms].
    destruct (String.eqb_spec rq rid) as [->|Hne].
    + same_room Hr Hr0. eexists _, [_; _]. split; [reflexivity|].
      unfold roomFeed. cbn [List.filter topic].
      rewrite room_topic_eqb, session_topic_eqb, String.eqb_refl.
      split; [apply (findOne_insert _ _ _ _ _ Hr); exact Hnamed|].
      split; [exact Hnd|]. exact Hview.
    + pose proof (findOne_Some _ _ _ _ Hr0) as (_ & Hri0 & Hnamed0).
      assert (Hpos : ri0 <> ri).
      { intros ->. rewrite Hri in Hri0. injection Hri0 as <-.
        apply String.eqb_eq in Hnamed, Hnamed0. congruence. }
      exists r. eexists [_; _]. split; [reflexivity|].
      unfold roomFeed. cbn [List.filter topic].
      rewrite room_topic_eqb, session_topic_eqb, (proj2 (String.eqb_neq _ _) Hne).
      split; [|auto].
      apply (findOne_insert_other _ _ _ _ _ r0 _ Hr Hri0); [reflexivity | exact Hpos].
Qed.

Lemma page_run E rid ri : forall qs w r view,
  Forall (fun q => isAutoAssign q = false) qs ->
  findOne (roomNamed rid) (rooms w) = Some (ri, r) ->
  NoDup (rosterIds r) ->
  viewIds view = rosterIds r ->
  exists r' new,
    events (run E qs w) = (events w ++ new)%list /\
    findOne (roomNamed rid) (rooms (run E qs w)) = Some (ri, r') /\
    NoDup (rosterIds r') /\
    viewIds (replay (roomFeed rid new) view) = rosterIds r'.
Proof.
  induction qs as [|q qs IH]; intros w r view Hqs Hr Hnd Hview.
  - exists r, []. simpl. rewrite app_nil_r. auto.
  - apply Forall_cons in Hqs as [Hq Hqs].
    destruct (page_step E q w rid ri r view Hq Hr Hnd Hview)
      as (r1 & new1 & Hev1 & Hr1 & Hnd1 & Hview1).
    destruct (IH _ r1 _ Hqs Hr1 Hnd1 Hview1) as (r2 & new2 & Hev2 & Hr2 & Hnd2 & Hview2).
    exists r2, (new1 ++ new2)%list. simpl.
    rewrite Hev2, Hev1, <- app_assoc, roomFeed_app, replay_app. auto.
Qed.

(** X21. The room page keeps up with the roster of an active room. The
    page starts from what the listing of the session answers to its user:
    the participants of the room when the user is in the session and the
    room, the only one of its id, is an active room of that session, and
    the empty list otherwise, a closed room not being listed. From there
    it applies its [participant_joined] and [participant_left] handlers to
    the events the route handlers publish on the topic [breakout:rid], in
    the order of publication. For a room that was listed and whose roster
    held no id twice, the ids on the page are then exactly the ids of the
    stored roster, in the same order, after any sequence of create, join,
    leave, list and close requests handled one after the other.
    Auto-assign is excluded: it publishes nothing on the room topic. *)
Theorem room_page_follows_roster E user sid rid w si s ri r :
  findOne (sessionNamed sid) (sessions w) = Some (si, s) ->
  findOne (roomNamed rid) (rooms w) = Some (ri, r) ->
  (forall j r2, rooms w !! j = Some r2 -> BreakoutRoom.id r2 = rid -> j = ri) ->
  (List.find (hasId user) (Session.participants s) = None \/
   isActiveRoomOf sid r = false ->
   fetchRoomInfo user sid rid w = []) /\
  (forall p qs,
     List.find (hasId user) (Session.participants s) = Some p ->
     isActiveRoomOf sid r = true ->
     NoDup (rosterIds r) ->
     Forall (fun q => isAutoAssign q = false) qs ->
     exists r' new,
       events (run E qs w) = (events w ++ new)%list /\
       findOne (roomNamed rid) (rooms (run E qs w)) = Some (ri, r') /\
       viewIds (replay (roomFeed rid new) (fetchRoomInfo user sid rid w)) = rosterIds r').
Proof.
  intros Hs Hr Honly.
  destruct (fetchRoomInfo_start user sid rid w si s ri r Hs Hr Honly) as [Hempty Hstart].
  split; [exact Hempty|].
  intros p qs Hp Hact Hnd Hqs.
  destruct (page_run E rid ri qs w r (fetchRoomInfo user sid rid w) Hqs Hr Hnd
              (Hstart p Hp Hact))
    as (r' & new & Hev & Hr' & _ & Hview).
  exists r', new. auto.
Qed.

Lemma room_page_follows_roster_witness :
  exists r' new,
    events (run Sample.env
              [JoinRoom "P2" "s1" "R1"; JoinRoom "P3" "s1" "R2"; JoinRoom "P4" "s1" "R1";
               LeaveRoom "P2" "s1" "R1"]
              Sample.twoRooms)
      = (events Sample.twoRooms ++ new)%list /\
    findOne (roomNamed "R1")
      (rooms (run Sample.env
                [JoinRoom "P2" "s1" "R1"; JoinRoom "P3" "s1" "R2"; JoinRoom "P4" "s1" "R1";
                 LeaveRoom "P2" "s1" "R1"]
                Sample.twoRooms))
      = Some (0%nat, r') /\
    viewIds (replay (roomFeed "R1" new) (fetchRoomInfo "P5" "s1" "R1" Sample.twoRooms))
      = rosterIds r'.
Proof.
  refine (proj2 (room_page_follows_roster Sample.env "P5" "s1" "R1" Sample.twoRooms
                   0%nat Sample.session 0%nat (Sample.room "R1" 2 active [])
                   eq_refl eq_refl _)
            (Sample.person "P5" false false) _ eq_refl eq_refl _ _).
  - intros [|[|j]] r2 Hj Hid; [reflexivity | | discriminate].
    injection Hj as <-. discriminate.
  - constructor.
  - repeat constructor.
Defined.

(** ** Auto-assign and the room page *)

Lemma assignLoop_room_feed E rid us : forall brs i w,
  brs <> [] ->
  exists brs' w' new,
    assignLoop E brs i us w = (Value brs', w') /\
    events w' = (events w ++ new)%list /\
    roomFeed rid new = [].
Proof.
  induction us as [|p rest IH]; intros brs i w Hne.
  - exists brs, w, []. simpl. rewrite app_nil_r. auto.
  - assert (Hlen : (i mod length brs < length brs)%nat).
    { apply Nat.mod_upper_bound. destruct brs; [congruence | simpl; lia]. }
    destruct (lookup_lt_is_Some_2 _ _ Hlen) as [[pos target] Hslot].
    simpl. rewrite Hslot.
    destruct (Z.of_nat (length (BreakoutRoom.participants target))
                <? BreakoutRoom.maxParticipants target).
    + run_handler.
      set (w1 := mkWorld _ _ _ _).
      set (brs1 := <[(i mod length brs)%nat := _]> brs).
      assert (Hne1 : brs1 <> []).
      { intros H0. apply (f_equal length) in H0. unfold brs1 in H0.
        rewrite length_insert in H0. destruct brs; [congruence | discriminate]. }
      destruct (IH brs1 (S i) w1 Hne1) as (brs' & w' & new & Hrun & Hev & Hfeed).
      exists brs', w'. eexists (_ :: new). split; [exact Hrun|].
      split.
      * rewrite Hev. unfold w1. cbn [events]. rewrite <- app_assoc. reflexivity.
      * unfold roomFeed in *. cbn [List.filter topic].
        change (String.eqb ("user:" ++ Participant.id p) ("breakout:" ++ rid)) with false.
        exact Hfeed.
    + apply IH, Hne.
Qed.

Lemma autoAssign_room_feed E user sid w rid :
  exists new,
    events (snd (autoAssign E user sid w)) = (events w ++ new)%list /\
    roomFeed rid new = [].
Proof.
  destruct (autoAssign_cases E user sid w) as [H|[H|[H|(si & s & Hs & Hhost & Hne)]]];
    try (exists []; rewrite H, app_nil_r; split; reflexivity).
  pose proof (sessionNamed_id _ _ _ _ Hs) as Hid.
  set (brs := findAll (isActiveRoomOf sid) (rooms w)) in *.
  destruct (assignLoop_room_feed E rid (unassignedParticipants s brs) brs 0 w Hne)
    as (brs' & w' & new & Hrun & Hev & Hfeed).
  assert (Hlen : (length brs =? 0)%nat = false).
  { apply Nat.eqb_neq. destruct brs; [congruence | discriminate]. }
  unfold autoAssign. run_handler. rewrite Hs. simpl.
  rewrite Hhost, String.eqb_refl, Hid. simpl. fold brs. rewrite Hlen. simpl.
  destruct (length (unassignedParticipants s brs) =? 0)%nat; simpl.
  - exists []. rewrite app_nil_r. split; reflexivity.
  - rewrite Hrun. exists new. split; assumption.
Qed.

(** X22. Auto-assign goes past the room page. When the host auto-assigns,
    the room at position [slot] of the active rooms gains, at the end of its
    roster, the participants the round robin sends to that slot, yet nothing
    is published on the room's topic: a page of that room which showed the
    roster before the request and replays what the request published still
    shows the roster as it was before. *)
Theorem autoAssign_bypasses_room_page E user sid w si s slot pos r view :
  findOne (sessionNamed sid) (sessions w) = Some (si, s) ->
  Session.hostId s = user ->
  let brs := findAll (isActiveRoomOf sid) (rooms w) in
  let us := unassignedParticipants s brs in
  brs !! slot = Some (pos, r) ->
  viewIds view = rosterIds r ->
  exists r' new,
    events (snd (autoAssign E user sid w)) = (events w ++ new)%list /\
    rooms (snd (autoAssign E user sid w)) !! pos = Some r' /\
    rosterIds r'
      = (rosterIds r
         ++ assignedTo slot
              (roundRobin (List.map (fun b => freePlaces (snd b)) brs) 0 us))%list /\
    viewIds (replay (roomFeed (BreakoutRoom.id r) new) view) = rosterIds r.
Proof.
  intros Hs Hhost brs us Hslot Hview.
  assert (Hne : brs <> []) by (intros H0; rewrite H0 in Hslot; discriminate).
  destruct (autoAssign_room_feed E user sid w (BreakoutRoom.id r)) as (new & Hev & Hfeed).
  destruct (autoAssign_run E (fun _ => True) user sid w si s Hs Hhost Hne)
    as (w' & Hrun & _ & _ & _ & Hin).
  destruct (Hin slot pos r Hslot) as (extra & Hr' & Hids).
  eexists _, new. split; [exact Hev|].
  rewrite Hrun. cbn [snd]. split; [exact Hr'|].
  split.
  - unfold rosterIds, roster. simpl. rewrite map_app, Hids. reflexivity.
  - rewrite Hfeed. exact Hview.
Qed.

Lemma autoAssign_bypasses_room_page_witness :
  exists r' new,
    events (snd (autoAssign Sample.env "P1" "s1" Sample.twoRooms))
      = (events Sample.twoRooms ++ new)%list /\
    rooms (snd (autoAssign Sample.env "P1" "s1" Sample.twoRooms)) !! 0%nat = Some r' /\
    rosterIds r' = ["P1"; "P3"] /\
    viewIds (replay (roomFeed "R1" new) []) = [].
Proof.
  exact (autoAssign_bypasses_room_page Sample.env "P1" "s1" Sample.twoRooms
           0%nat Sample.session 0%nat 0%nat (Sample.room "R1" 2 active []) []
           eq_refl eq_refl eq_refl eq_refl).
Defined.

(** * Joins that overlap *)

(** X24. The capacity test and the membership test of a join are made on
    the room as the handler read it, and the save comes one [await] later.
    When two joins for one room take turns at every [await], and each
    would succeed on its own, both are answered with a success. A store
    that appends what was pushed then holds both new entries after the old
    roster, whether or not there was room for two and whether or not the
    two are the same user; a store that writes the document as the handler
    holds it then holds the old roster and the second entry only, the
    first user having been told that the join succeeded. *)
Theorem overlapping_joins_both_succeed E P u1 u2 sid rid w si s p1 p2 ri r :
  findOne (sessionNamed sid) (sessions w) = Some (si, s) ->
  List.find (hasId u1) (Session.participants s) = Some p1 ->
  List.find (hasId u2) (Session.participants s) = Some p2 ->
  findOne (roomNamed rid) (rooms w) = Some (ri, r) ->
  BreakoutRoom.sessionId r = sid ->
  Z.of_nat (length (roster r)) < BreakoutRoom.maxParticipants r ->
  existsb (hasRoomId u1) (roster r) = false ->
  existsb (hasRoomId u2) (roster r) = false ->
  List.map succeeded
    (joinAnswers
       (fst (interleave Race.turns [joinTask E P u1 sid rid; joinTask E P u2 sid rid] w)))
    = [true; true] /\
  exists r',
    rooms (snd (interleave Race.turns
                  [joinTask E P u1 sid rid; joinTask E P u2 sid rid] w)) !! ri
      = Some r' /\
    BreakoutRoom.maxParticipants r' = BreakoutRoom.maxParticipants r /\
    rosterIds r'
      = (rosterIds r ++ match P with
                        | PushDelta => [u1; u2]
                        | WholeDocument => [u2]
                        end)%list /\
    (P = PushDelta ->
     Z.of_nat (length (roster r)) + 1 = BreakoutRoom.maxParticipants r ->
     BreakoutRoom.maxParticipants r' < Z.of_nat (length (roster r'))).
Proof.
  intros Hs Hp1 Hp2 Hr Hsid Hcap Hnew1 Hnew2.
  destruct (joinTask_turns E P u1 u2 sid rid w si s p1 p2 ri r
              Hs Hp1 Hp2 Hr Hsid Hcap Hnew1 Hnew2) as [Hans Hrooms].
  split; [exact Hans|].
  apply findOne_Some in Hr as (_ & Hri & _).
  assert (Hlt : (ri < length (rooms w))%nat) by (eapply lookup_lt_Some; eauto).
  eexists. rewrite Hrooms, list_lookup_insert_eq by exact Hlt.
  split; [reflexivity|]. split; [reflexivity|]. split.
  - unfold rosterIds, roster. cbn [BreakoutRoom.participants BreakoutRoom.with_participants].
    destruct P; rewrite List.map_app; reflexivity.
  - intros -> Hlast. unfold roster in *.
    cbn [BreakoutRoom.participants BreakoutRoom.maxParticipants
           BreakoutRoom.with_participants].
    rewrite length_app. simpl. lia.
Qed.

Lemma overlapping_joins_both_succeed_witness :
  List.map succeeded
    (joinAnswers
       (fst (interleave Race.turns
               [joinTask Sample.env PushDelta "P2" "s1" "R1";
                joinTask Sample.env PushDelta "P3" "s1" "R1"]
               Race.oneSeat)))
    = [true; true].
Proof.
  refine (proj1 (overlapping_joins_both_succeed Sample.env PushDelta "P2" "P3" "s1" "R1"
                   Race.oneSeat 0%nat Sample.session
                   (Sample.person "P2" false true) (Sample.person "P3" false false)
                   0%nat (Sample.room "R1" 1 active [])
                   eq_refl eq_refl eq_refl eq_refl eq_refl _ eq_refl eq_refl)).
  vm_compute. reflexivity.
Defined.
